(** * rsl_rl.modules.student_teacher : a shallow embedding

    The Python class [StudentTeacher] of [rsl_rl/modules/student_teacher.py]
    is embedded method by method.  Python dictionaries are insertion-ordered
    association lists, tensors carry a shape and row-major real data, and a
    method is a computation in a state-and-exception monad over the object
    and the random generator.  The collaborators that are not part of the
    file ([MLP], [EmpiricalNormalization], sampling from [Normal]) are the
    fields of the class [Collaborators]. *)

From Stdlib Require Import Ascii String List Reals Lia Lra Bool Arith Permutation.
Import ListNotations.
Open Scope string_scope.

(** ** Python strings *)

Module Str.

(** [sub in s] *)
Fixpoint contains (sub s : string) : bool :=
  if String.prefix sub s then true
  else match s with
       | EmptyString => false
       | String _ s' => contains sub s'
       end.

(** Scan of [s.replace(old, new)] for a non-empty [old]: [skip] counts the
    characters of a match that are still to be dropped. *)
Fixpoint replace_from (old new : string) (skip : nat) (s : string) : string :=
  match s with
  | EmptyString => EmptyString
  | String c s' =>
      match skip with
      | S k => replace_from old new k s'
      | O =>
          if String.prefix old s
          then new ++ replace_from old new (String.length old - 1) s'
          else String c (replace_from old new 0 s')
      end
  end.

(** [s.replace(old, new)]; both call sites pass a non-empty literal [old]. *)
Definition replace (old new s : string) : string := replace_from old new 0 s.

End Str.

(** ** Python dictionaries, in insertion order *)

Module Dict.

Definition t (V : Type) : Type := list (string * V).

Definition keys {V} (d : t V) : list string := map fst d.

(** [d.get(k)] *)
Fixpoint get {V} (d : t V) (k : string) : option V :=
  match d with
  | [] => None
  | (k', v) :: d' => if k' =? k then Some v else get d' k
  end.

(** [k in d] *)
Definition mem {V} (d : t V) (k : string) : bool :=
  match get d k with Some _ => true | None => false end.

(** [d[k] = v]: an existing key keeps its position, a new one goes last. *)
Fixpoint set {V} (d : t V) (k : string) (v : V) : t V :=
  match d with
  | [] => [(k, v)]
  | (k', v') :: d' => if k' =? k then (k', v) :: d' else (k', v') :: set d' k v
  end.

End Dict.

(** ** Exceptions and results *)

Inductive Exception : Type :=
| KeyError (key : string)
| AssertionError (msg : string)
| ValueError (msg : string)
| AttributeError (msg : string)
| NotImplementedError
  (** the [IndexError] of [t[0]] on a tensor without entries *)
| IndexError
| RuntimeError (msg : string)
  (** the [RuntimeError] of [torch.nn.Module.load_state_dict], with the keys
      its message lists *)
| LoadStateDictError (missing unexpected mismatched : list string).

Inductive Result (A : Type) : Type :=
| Ok (a : A)
| Err (e : Exception).
Arguments Ok {A} a.
Arguments Err {A} e.

Definition is_ok {A} (r : Result A) : bool :=
  match r with Ok _ => true | Err _ => false end.

(** ** Tensors and the [torch] functions the module calls *)

Module Torch.

Record Tensor : Type := mkTensor { shape : list nat; data : list R }.

Definition shape_eqb (s1 s2 : list nat) : bool :=
  if list_eq_dec Nat.eq_dec s1 s2 then true else false.

(** [len(t.shape)] and [t.shape[-1]] *)
Definition ndim (t : Tensor) : nat := length (shape t).
Definition last_dim (t : Tensor) : nat := last (shape t) 0.
Definition lead_dims (t : Tensor) : list nat := removelast (shape t).

Definition numel (sh : list nat) : nat := fold_right Nat.mul 1 sh.

(** [torch.ones(n)], [c * t], [torch.log(t)], [torch.exp(t)], over the
    reals.  In floating point [torch.exp] is the real exponential up to
    rounding only where the result is a normal number; what is stated of
    its values is stated for arguments in that range. *)
Definition ones (n : nat) : Tensor := mkTensor [n] (repeat 1%R n).
Definition scale_by (c : R) (t : Tensor) : Tensor :=
  mkTensor (shape t) (map (Rmult c) (data t)).
Definition log (t : Tensor) : Tensor := mkTensor (shape t) (map ln (data t)).
Definition exp (t : Tensor) : Tensor := mkTensor (shape t) (map Rtrigo_def.exp (data t)).

(** [n] copies of a row, one after the other *)
Fixpoint tile (n : nat) (row : list R) : list R :=
  match n with
  | O => []
  | S n' => row ++ tile n' row
  end.

(** [p.expand_as(other)] for a one-dimensional [p]: the last dimension of
    [other] must be the length of [p], unless [p] has a single entry. *)
Definition expand_as (p other : Tensor) : Result Tensor :=
  match shape p, shape other with
  | [a], _ :: _ =>
      if a =? last_dim other then
        Ok (mkTensor (shape other) (tile (numel (lead_dims other)) (data p)))
      else if a =? 1 then
        Ok (mkTensor (shape other) (tile (numel (shape other)) (data p)))
      else Err (RuntimeError "expand: sizes do not match")
  | _, _ => Err (RuntimeError "expand: sizes do not match")
  end%nat.

(** Row-major data of the concatenation along the last dimension: row by
    row, the row of every piece in turn.  A piece is its last dimension
    and its data. *)
Fixpoint cat_rows (rows : nat) (pieces : list (nat * list R)) : list R :=
  match rows with
  | O => []
  | S rows' =>
      concat (map (fun p => firstn (fst p) (snd p)) pieces)
      ++ cat_rows rows' (map (fun p => (fst p, skipn (fst p) (snd p))) pieces)
  end.

(** The one-dimensional empty tensor that [torch.cat] skips *)
Definition legacy_empty (t : Tensor) : bool := shape_eqb (shape t) [0].

(** [torch.cat(ts, dim=-1)]: the list must be non-empty; tensors of shape
    [(0,)] are skipped; the others must have at least one dimension and
    agree on every dimension but the last. *)
Definition cat (ts : list Tensor) : Result Tensor :=
  match ts with
  | [] => Err (RuntimeError "torch.cat(): expected a non-empty list of Tensors")
  | _ :: _ =>
      match filter (fun t => negb (legacy_empty t)) ts with
      | [] => Ok (mkTensor [0] [])
      | (t0 :: _) as ts' =>
          if existsb (fun t => ndim t =? 0)%nat ts' then
            Err (RuntimeError "zero-dimensional tensor cannot be concatenated")
          else if forallb (fun t => shape_eqb (lead_dims t) (lead_dims t0)) ts' then
            Ok (mkTensor
                  (lead_dims t0 ++ [list_sum (map last_dim ts')])
                  (cat_rows (numel (lead_dims t0))
                            (map (fun t => (last_dim t, data t)) ts')))
          else Err (RuntimeError "Sizes of tensors must match except in dimension -1")
      end
  end.

(** [torch.distributions.Normal(loc, scale)] with argument validation
    switched off: the two (already equally shaped) tensors are stored. *)
Record Normal : Type := mkNormal { loc : Tensor; scale : Tensor }.
Definition mean (d : Normal) : Tensor := loc d.
Definition stddev (d : Normal) : Tensor := scale d.

(** [d.entropy()] of a [Normal]: elementwise
    [0.5 + 0.5 * math.log(2 * math.pi) + torch.log(scale)], over the reals
    (where [ln] of a non-positive number is [0]; [torch] gives [nan] or
    [-inf] there). *)
Definition entropy_of (sigma : R) : R := (1 / 2 + 1 / 2 * ln (2 * PI) + ln sigma)%R.

Definition Normal_entropy (d : Normal) : Tensor :=
  mkTensor (shape (scale d)) (map entropy_of (data (scale d))).

(** The sums of [rows] consecutive rows of the given width *)
Fixpoint row_sums (rows width : nat) (l : list R) : list R :=
  match rows with
  | O => []
  | S rows' =>
      fold_right Rplus 0%R (firstn width l) :: row_sums rows' width (skipn width l)
  end.

(** [t.sum(dim=-1)]: the last dimension is summed away; a scalar is left
    as it is. *)
Definition sum_last (t : Tensor) : Tensor :=
  match shape t with
  | [] => t
  | _ :: _ => mkTensor (lead_dims t) (row_sums (numel (lead_dims t)) (last_dim t) (data t))
  end.

(** *** [torch.nn.Module.load_state_dict] on the flat parameter names

    The own entries are visited in the order of [state_dict()].  An entry
    that the mapping holds is copied from its input when the input has the
    shape of the entry.  For a zero-dimensional entry a one-dimensional
    input is first replaced by its first element ([input_param[0]], kept in
    [torch] for the checkpoints of its version 0.3); an empty input has no
    first element, and the [IndexError] ends the visit there, with the
    earlier entries copied.  After the visit the call raises if an input
    had another shape or, under [strict], if an own name is missing from the
    mapping or a name of the mapping is not an own name. *)

(** [len(param.shape) == 0 and len(input_param.shape) == 1] *)
Definition legacy_scalar (param input : Tensor) : bool :=
  ((ndim param =? 0) && (ndim input =? 1))%nat.

(** [input_param[0]] of a one-dimensional tensor *)
Definition first_element (input : Tensor) : Result Tensor :=
  match shape input with
  | [O] => Err IndexError
  | _ => Ok (mkTensor [] (firstn 1 (data input)))
  end.

(** The input as it is compared and copied *)
Definition input_param (param input : Tensor) : Result Tensor :=
  if legacy_scalar param input then first_element input else Ok input.

(** The [IndexError] of one own entry [prefix + name], if it raises one *)
Definition entry_abort (prefix : string) (state_dict : Dict.t Tensor)
           (entry : string * Tensor) : option Exception :=
  match Dict.get state_dict (prefix ++ fst entry) with
  | Some input =>
      match input_param (snd entry) input with
      | Ok _ => None
      | Err e => Some e
      end
  | None => None
  end.

(** One own entry [prefix + name]: copied from [state_dict] when its input
    is there with the same shape, kept otherwise. *)
Definition load_entry (prefix : string) (state_dict : Dict.t Tensor)
           (entry : string * Tensor) : string * Tensor :=
  match Dict.get state_dict (prefix ++ fst entry) with
  | Some input =>
      match input_param (snd entry) input with
      | Ok input' =>
          if shape_eqb (shape input') (shape (snd entry))
          then (fst entry, input') else entry
      | Err _ => entry
      end
  | None => entry
  end.

(** The own entries after the visit, which stops at an [IndexError] *)
Fixpoint load_from_state_dict (prefix : string) (own state_dict : Dict.t Tensor)
         {struct own} : Dict.t Tensor :=
  match own with
  | [] => []
  | entry :: rest =>
      match entry_abort prefix state_dict entry with
      | Some _ => entry :: rest
      | None =>
          load_entry prefix state_dict entry
          :: load_from_state_dict prefix rest state_dict
      end
  end.

(** The [IndexError] that ends the visit, if one does *)
Fixpoint load_abort (prefix : string) (own state_dict : Dict.t Tensor)
         {struct own} : option Exception :=
  match own with
  | [] => None
  | entry :: rest =>
      match entry_abort prefix state_dict entry with
      | Some e => Some e
      | None => load_abort prefix rest state_dict
      end
  end.

Definition missing_keys (flat_own state_dict : Dict.t Tensor) : list string :=
  filter (fun k => negb (Dict.mem state_dict k)) (Dict.keys flat_own).

(** The names of the mapping that are no own names.  [torch] reports them
    module by module, the parent first, and the layers of an approximator
    are not in the file: the list here is in the order of the mapping, and
    what is stated of the unexpected keys of an error is stated up to their
    order. *)
Definition unexpected_keys (flat_own state_dict : Dict.t Tensor) : list string :=
  filter (fun k => negb (Dict.mem flat_own k)) (Dict.keys state_dict).

Definition mismatched_keys (flat_own state_dict : Dict.t Tensor) : list string :=
  map fst
      (filter (fun entry =>
                 match Dict.get state_dict (fst entry) with
                 | Some input =>
                     match input_param (snd entry) input with
                     | Ok input' => negb (shape_eqb (shape input') (shape (snd entry)))
                     | Err _ => false
                     end
                 | None => false
                 end) flat_own).

(** The error raised once every entry has been visited: a size mismatch
    always, missing and unexpected keys under [strict] only. *)
Definition load_error (flat_own state_dict : Dict.t Tensor) (strict : bool)
  : option Exception :=
  let missing := if strict then missing_keys flat_own state_dict else [] in
  let unexpected := if strict then unexpected_keys flat_own state_dict else [] in
  let mismatched := mismatched_keys flat_own state_dict in
  match missing, unexpected, mismatched with
  | [], [], [] => None
  | _, _, _ => Some (LoadStateDictError missing unexpected mismatched)
  end.

(** What the call raises: the [IndexError] of the visit, or the error that
    follows a completed visit *)
Definition load_outcome (flat_own state_dict : Dict.t Tensor) (strict : bool)
  : option Exception :=
  match load_abort EmptyString flat_own state_dict with
  | Some e => Some e
  | None => load_error flat_own state_dict strict
  end.

(** [module.state_dict()] contribution of a child registered as [prefix] *)
Definition prefixed (prefix : string) (own : Dict.t Tensor) : Dict.t Tensor :=
  map (fun entry => (prefix ++ fst entry, snd entry)) own.

End Torch.
Import Torch.

(** ** The state-and-exception monad of the methods

    A Python call either returns or raises, and what it has written to the
    object before raising stays written. *)

Definition SE (S A : Type) : Type := S -> Result A * S.

Definition ret {S A} (a : A) : SE S A := fun s => (Ok a, s).

Definition bind {S A B} (m : SE S A) (f : A -> SE S B) : SE S B :=
  fun s =>
    match m s with
    | (Ok a, s') => f a s'
    | (Err e, s') => (Err e, s')
    end.

Definition raise {S A} (e : Exception) : SE S A := fun s => (Err e, s).

Definition lift {S A} (r : Result A) : SE S A := fun s => (r, s).

Definition gets {S A} (f : S -> A) : SE S A := fun s => (Ok (f s), s).

Definition modify {S} (f : S -> S) : SE S unit := fun s => (Ok tt, f s).

Declare Scope se_scope.
Delimit Scope se_scope with se.
Notation "x <- c ;; k" := (bind c (fun x => k))
  (at level 100, c at next level, right associativity) : se_scope.
Notation "c ;;; k" := (bind c (fun _ => k))
  (at level 100, right associativity) : se_scope.
Open Scope se_scope.

(** [d[k]] on a dictionary *)
Definition getitem {V} (d : Dict.t V) (k : string) : Result V :=
  match Dict.get d k with
  | Some v => Ok v
  | None => Err (KeyError k)
  end.

(** [obj.name] on an attribute that may not have been assigned *)
Definition getattr {A} (name : string) (a : option A) : Result A :=
  match a with
  | Some v => Ok v
  | None => Err (AttributeError name)
  end.

(** ** The sub-modules *)

(** An [MLP] (a [torch.nn.Sequential]): its parameters by name, and the
    training flag of its sub-tree. *)
Record MLP : Type := mkMLP { mlp_state : Dict.t Tensor; mlp_training : bool }.

(** The object in a normalization slot: [torch.nn.Identity()], which has no
    parameter or buffer, or an [EmpiricalNormalization] with its buffers. *)
Inductive NormalizerKind : Type :=
| Identity
| EmpiricalNormalization (buffers : Dict.t Tensor).

Record Normalizer : Type :=
  mkNormalizer { norm_kind : NormalizerKind; norm_training : bool }.

Definition norm_state (n : Normalizer) : Dict.t Tensor :=
  match norm_kind n with
  | Identity => []
  | EmpiricalNormalization buffers => buffers
  end.

(** Modelled from the spec: [rsl_rl.networks.MLP] and
    [rsl_rl.networks.EmpiricalNormalization] are not in the file; the spec
    gives their interface.  An approximator is built from its input width,
    output width, hidden sizes and activation, and is a deterministic
    function of its parameters and input.  A running normalizer is built for
    a width, [normalize] applies the current statistics and never mutates
    them, [update] folds a batch into them.  [Normal_sample] is
    [torch.distributions.Normal.sample]: it draws from the generator, and
    [torch.normal] may reject the parameters. *)
Class Collaborators : Type := {
  Generator : Type;
  MLP_init : nat -> nat -> list nat -> string -> Generator -> Dict.t Tensor * Generator;
  MLP_forward : MLP -> Tensor -> Result Tensor;
  EmpiricalNormalization_init : nat -> Dict.t Tensor;
  EmpiricalNormalization_forward : Dict.t Tensor -> Tensor -> Result Tensor;
  EmpiricalNormalization_update :
    Dict.t Tensor -> bool -> Tensor -> Result unit * Dict.t Tensor;
  Normal_sample : Normal -> Generator -> Result Tensor * Generator
}.

(** [m.eval()] and [m.train(mode)] on the sub-modules *)
Definition MLP_train (mode : bool) (m : MLP) : MLP := mkMLP (mlp_state m) mode.
Definition Normalizer_train (mode : bool) (n : Normalizer) : Normalizer :=
  mkNormalizer (norm_kind n) mode.

(** [load_state_dict] leaves the kind of the slot alone and writes buffers *)
Definition Normalizer_with_state (n : Normalizer) (st : Dict.t Tensor) : Normalizer :=
  match norm_kind n with
  | Identity => n
  | EmpiricalNormalization _ => mkNormalizer (EmpiricalNormalization st) (norm_training n)
  end.

(** ** The class [StudentTeacher] *)

Module StudentTeacher.

Section Methods.

Context {collab : Collaborators}.

(** The attributes of an instance.  [std] and [log_std] are assigned by
    [__init__] in one noise mode each; [distribution] starts as [None]. *)
Record Self : Type := mkSelf {
  training : bool;
  loaded_teacher : bool;
  obs_groups : Dict.t (list string);
  student : MLP;
  student_obs_normalization : bool;
  student_obs_normalizer : Normalizer;
  teacher : MLP;
  teacher_obs_normalization : bool;
  teacher_obs_normalizer : Normalizer;
  noise_std_type : string;
  std : option Tensor;
  log_std : option Tensor;
  distribution : option Normal
}.

(** The object together with the process-wide random generator *)
Record World : Type := mkWorld { self : Self; generator : Generator }.

Definition M (A : Type) : Type := SE World A.

Definition getself {A} (f : Self -> A) : M A := gets (fun w => f (self w)).
Definition setself (f : Self -> Self) : M unit :=
  modify (fun w => mkWorld (f (self w)) (generator w)).

(** Attribute assignments *)
Definition set_training (v : bool) (s : Self) : Self :=
  mkSelf v (loaded_teacher s) (obs_groups s) (student s)
         (student_obs_normalization s) (student_obs_normalizer s) (teacher s)
         (teacher_obs_normalization s) (teacher_obs_normalizer s)
         (noise_std_type s) (std s) (log_std s) (distribution s).
Definition set_loaded_teacher (v : bool) (s : Self) : Self :=
  mkSelf (training s) v (obs_groups s) (student s)
         (student_obs_normalization s) (student_obs_normalizer s) (teacher s)
         (teacher_obs_normalization s) (teacher_obs_normalizer s)
         (noise_std_type s) (std s) (log_std s) (distribution s).
Definition set_student (v : MLP) (s : Self) : Self :=
  mkSelf (training s) (loaded_teacher s) (obs_groups s) v
         (student_obs_normalization s) (student_obs_normalizer s) (teacher s)
         (teacher_obs_normalization s) (teacher_obs_normalizer s)
         (noise_std_type s) (std s) (log_std s) (distribution s).
Definition set_student_obs_normalizer (v : Normalizer) (s : Self) : Self :=
  mkSelf (training s) (loaded_teacher s) (obs_groups s) (student s)
         (student_obs_normalization s) v (teacher s)
         (teacher_obs_normalization s) (teacher_obs_normalizer s)
         (noise_std_type s) (std s) (log_std s) (distribution s).
Definition set_teacher (v : MLP) (s : Self) : Self :=
  mkSelf (training s) (loaded_teacher s) (obs_groups s) (student s)
         (student_obs_normalization s) (student_obs_normalizer s) v
         (teacher_obs_normalization s) (teacher_obs_normalizer s)
         (noise_std_type s) (std s) (log_std s) (distribution s).
Definition set_teacher_obs_normalizer (v : Normalizer) (s : Self) : Self :=
  mkSelf (training s) (loaded_teacher s) (obs_groups s) (student s)
         (student_obs_normalization s) (student_obs_normalizer s) (teacher s)
         (teacher_obs_normalization s) v
         (noise_std_type s) (std s) (log_std s) (distribution s).
Definition set_std (v : option Tensor) (s : Self) : Self :=
  mkSelf (training s) (loaded_teacher s) (obs_groups s) (student s)
         (student_obs_normalization s) (student_obs_normalizer s) (teacher s)
         (teacher_obs_normalization s) (teacher_obs_normalizer s)
         (noise_std_type s) v (log_std s) (distribution s).
Definition set_log_std (v : option Tensor) (s : Self) : Self :=
  mkSelf (training s) (loaded_teacher s) (obs_groups s) (student s)
         (student_obs_normalization s) (student_obs_normalizer s) (teacher s)
         (teacher_obs_normalization s) (teacher_obs_normalizer s)
         (noise_std_type s) (std s) v (distribution s).
Definition set_distribution (v : option Normal) (s : Self) : Self :=
  mkSelf (training s) (loaded_teacher s) (obs_groups s) (student s)
         (student_obs_normalization s) (student_obs_normalizer s) (teacher s)
         (teacher_obs_normalization s) (teacher_obs_normalizer s)
         (noise_std_type s) (std s) (log_std s) v.

(** *** [__init__] *)

Definition only_1D_msg : string :=
  "The StudentTeacher module only supports 1D observations.".

Definition unknown_std_msg (ty : string) : string :=
  "Unknown standard deviation type: " ++ ty ++ ". Should be 'scalar' or 'log'".

(** The loop [for obs_group in obs_groups[role]: assert ...; num += ...],
    started at [num]. *)
Fixpoint count_obs (obs : Dict.t Tensor) (groups : list string) (num : nat)
  : Result nat :=
  match groups with
  | [] => Ok num
  | obs_group :: rest =>
      match getitem obs obs_group with
      | Err e => Err e
      | Ok t =>
          if (ndim t =? 2)%nat
          then count_obs obs rest (num + last_dim t)
          else Err (AssertionError only_1D_msg)
      end
  end.

(** [self.x_obs_normalizer = EmpiricalNormalization(n) if flag else Identity()];
    a fresh module is in training mode. *)
Definition new_normalizer (flag : bool) (n : nat) : Normalizer :=
  if flag then mkNormalizer (EmpiricalNormalization (EmpiricalNormalization_init n)) true
  else mkNormalizer Identity true.

(** The constructor.  [kwargs] are only printed.  It runs over the random
    generator, from which the two approximators draw their initial weights. *)
Definition __init__
           (obs : Dict.t Tensor) (obs_groups_ : Dict.t (list string))
           (num_actions : nat)
           (student_obs_normalization_ teacher_obs_normalization_ : bool)
           (student_hidden_dims teacher_hidden_dims : list nat)
           (activation : string) (init_noise_std : R) (noise_std_type_ : string)
           (kwargs : list string)
  : SE Generator Self :=
  policy <- lift (getitem obs_groups_ "policy") ;;
  num_student_obs <- lift (count_obs obs policy 0) ;;
  teacher_groups <- lift (getitem obs_groups_ "teacher") ;;
  num_teacher_obs <- lift (count_obs obs teacher_groups 0) ;;
  student_params <- (fun g =>
     let (p, g') := MLP_init num_student_obs num_actions student_hidden_dims activation g
     in (Ok p, g')) ;;
  teacher_params <- (fun g =>
     let (p, g') := MLP_init num_teacher_obs num_actions teacher_hidden_dims activation g
     in (Ok p, g')) ;;
  let s :=
    mkSelf true false obs_groups_
           (mkMLP student_params true)
           student_obs_normalization_
           (new_normalizer student_obs_normalization_ num_student_obs)
           (MLP_train false (mkMLP teacher_params true))
           teacher_obs_normalization_
           (new_normalizer teacher_obs_normalization_ num_teacher_obs)
           noise_std_type_ None None None in
  if noise_std_type_ =? "scalar" then
    ret (set_std (Some (scale_by init_noise_std (ones num_actions))) s)
  else if noise_std_type_ =? "log" then
    ret (set_log_std (Some (log (scale_by init_noise_std (ones num_actions)))) s)
  else raise (ValueError (unknown_std_msg noise_std_type_)).

(** *** Properties and the action head *)

(** A [@property] of the class.  [torch.nn.Module] defines [__getattr__]:
    when the getter raises an [AttributeError], Python looks the name of
    the property up there, where it is no parameter, buffer or sub-module,
    and the [AttributeError] that reaches the caller names the property. *)
Definition property {A} (name : string) (fget : M A) : M A :=
  fun w =>
    match fget w with
    | (Err (AttributeError _), w') => (Err (AttributeError name), w')
    | outcome => outcome
    end.

Definition action_mean : M Tensor :=
  property "action_mean"
    (d <- getself distribution ;;
     d' <- lift (getattr "mean" d) ;;
     ret (mean d')).

Definition action_std : M Tensor :=
  property "action_std"
    (d <- getself distribution ;;
     d' <- lift (getattr "stddev" d) ;;
     ret (stddev d')).

Definition entropy : M Tensor :=
  property "entropy"
    (d <- getself distribution ;;
     d' <- lift (getattr "entropy" d) ;;
     ret (sum_last (Normal_entropy d'))).

Definition update_distribution (obs : Tensor) : M unit :=
  student_ <- getself student ;;
  mean_ <- lift (MLP_forward student_ obs) ;;
  ty <- getself noise_std_type ;;
  std_ <- (if ty =? "scalar" then
             p <- getself std ;;
             p' <- lift (getattr "std" p) ;;
             lift (expand_as p' mean_)
           else if ty =? "log" then
             p <- getself log_std ;;
             p' <- lift (getattr "log_std" p) ;;
             lift (expand_as (exp p') mean_)
           else raise (ValueError (unknown_std_msg ty))) ;;
  setself (set_distribution (Some (mkNormal mean_ std_))).

(** *** Observation routing *)

(** The loop [for obs_group in groups: obs_list.append(obs[obs_group])] *)
Fixpoint collect_obs (obs : Dict.t Tensor) (groups : list string)
  : Result (list Tensor) :=
  match groups with
  | [] => Ok []
  | obs_group :: rest =>
      match getitem obs obs_group with
      | Err e => Err e
      | Ok t =>
          match collect_obs obs rest with
          | Err e => Err e
          | Ok obs_list => Ok (t :: obs_list)
          end
      end
  end.

Definition get_student_obs (obs : Dict.t Tensor) : M Tensor :=
  groups <- getself obs_groups ;;
  policy <- lift (getitem groups "policy") ;;
  obs_list <- lift (collect_obs obs policy) ;;
  lift (cat obs_list).

Definition get_teacher_obs (obs : Dict.t Tensor) : M Tensor :=
  groups <- getself obs_groups ;;
  teacher_groups <- lift (getitem groups "teacher") ;;
  obs_list <- lift (collect_obs obs teacher_groups) ;;
  lift (cat obs_list).

(** Calling a normalization slot *)
Definition Normalizer_forward (n : Normalizer) (x : Tensor) : Result Tensor :=
  match norm_kind n with
  | Identity => Ok x
  | EmpiricalNormalization buffers => EmpiricalNormalization_forward buffers x
  end.

(** [n.update(x)]; [torch.nn.Identity] has no such method. *)
Definition Normalizer_update (n : Normalizer) (x : Tensor) : Result unit * Normalizer :=
  match norm_kind n with
  | Identity => (Err (AttributeError "update"), n)
  | EmpiricalNormalization buffers =>
      let (r, buffers') := EmpiricalNormalization_update buffers (norm_training n) x in
      (r, mkNormalizer (EmpiricalNormalization buffers') (norm_training n))
  end.

(** *** Acting and evaluating *)

Definition act (obs : Dict.t Tensor) : M Tensor :=
  obs1 <- get_student_obs obs ;;
  normalizer <- getself student_obs_normalizer ;;
  obs2 <- lift (Normalizer_forward normalizer obs1) ;;
  update_distribution obs2 ;;;
  d <- getself distribution ;;
  d' <- lift (getattr "sample" d) ;;
  (fun w => let (x, g') := Normal_sample d' (generator w) in
            (x, mkWorld (self w) g')).

Definition act_inference (obs : Dict.t Tensor) : M Tensor :=
  obs1 <- get_student_obs obs ;;
  normalizer <- getself student_obs_normalizer ;;
  obs2 <- lift (Normalizer_forward normalizer obs1) ;;
  student_ <- getself student ;;
  lift (MLP_forward student_ obs2).

Definition evaluate (obs : Dict.t Tensor) : M Tensor :=
  obs1 <- get_teacher_obs obs ;;
  normalizer <- getself teacher_obs_normalizer ;;
  obs2 <- lift (Normalizer_forward normalizer obs1) ;;
  teacher_ <- getself teacher ;;
  lift (MLP_forward teacher_ obs2).

Definition reset : M unit := ret tt.
Definition forward : M unit := raise NotImplementedError.
Definition get_hidden_states : M unit := ret tt.
Definition detach_hidden_states : M unit := ret tt.

(** *** Mode switching *)

(** [torch.nn.Module.train(mode)]: the flag of the module and of every child *)
Definition Module_train (mode : bool) (s : Self) : Self :=
  set_teacher_obs_normalizer (Normalizer_train mode (teacher_obs_normalizer s))
    (set_teacher (MLP_train mode (teacher s))
       (set_student_obs_normalizer (Normalizer_train mode (student_obs_normalizer s))
          (set_student (MLP_train mode (student s))
             (set_training mode s)))).

Definition teacher_eval : M unit :=
  setself (fun s => set_teacher (MLP_train false (teacher s)) s).

Definition teacher_obs_normalizer_eval : M unit :=
  setself (fun s =>
    set_teacher_obs_normalizer (Normalizer_train false (teacher_obs_normalizer s)) s).

Definition train (mode : bool) : M unit :=
  setself (Module_train mode) ;;;
  teacher_eval ;;;
  teacher_obs_normalizer_eval.

Definition update_normalization (obs : Dict.t Tensor) : M unit :=
  flag <- getself student_obs_normalization ;;
  if (flag : bool) then
    student_obs <- get_student_obs obs ;;
    normalizer <- getself student_obs_normalizer ;;
    let (r, normalizer') := Normalizer_update normalizer student_obs in
    setself (set_student_obs_normalizer normalizer') ;;;
    lift r
  else ret tt.

(** *** Checkpoint loading *)

(** [torch.nn.Module.load_state_dict] of a sub-module: the entries are
    visited and copied, and the error of the call, if any, is raised. *)
Definition raise_if (e : option Exception) : Result unit :=
  match e with
  | Some e' => Err e'
  | None => Ok tt
  end.

Definition MLP_load_state_dict (m : MLP) (state_dict : Dict.t Tensor) (strict : bool)
  : Result unit * MLP :=
  (raise_if (load_outcome (mlp_state m) state_dict strict),
   mkMLP (load_from_state_dict EmptyString (mlp_state m) state_dict) (mlp_training m)).

Definition Normalizer_load_state_dict
           (n : Normalizer) (state_dict : Dict.t Tensor) (strict : bool)
  : Result unit * Normalizer :=
  (raise_if (load_outcome (norm_state n) state_dict strict),
   Normalizer_with_state n (load_from_state_dict EmptyString (norm_state n) state_dict)).

(** The parameters registered on the module itself: the noise parameter *)
Definition own_parameters (s : Self) : Dict.t Tensor :=
  (match std s with Some p => [("std", p)] | None => [] end
   ++ match log_std s with Some p => [("log_std", p)] | None => [] end)%list.

(** [self.state_dict()]: own parameters, then every child under its name *)
Definition state_dict_of (s : Self) : Dict.t Tensor :=
  (own_parameters s
   ++ prefixed "student." (mlp_state (student s))
   ++ prefixed "student_obs_normalizer." (norm_state (student_obs_normalizer s))
   ++ prefixed "teacher." (mlp_state (teacher s))
   ++ prefixed "teacher_obs_normalizer." (norm_state (teacher_obs_normalizer s)))%list.

Definition load_parameter (name : string) (state_dict : Dict.t Tensor)
           (p : option Tensor) : option Tensor :=
  match p with
  | Some old => Some (snd (load_entry EmptyString state_dict (name, old)))
  | None => None
  end.

Definition parameter_abort (name : string) (state_dict : Dict.t Tensor)
           (p : option Tensor) : option Exception :=
  match p with
  | Some old => entry_abort EmptyString state_dict (name, old)
  | None => None
  end.

(** The visit of [super().load_state_dict]: the parameters registered on
    the module itself, then every child under its name, in the order of
    their registration.  Each step writes what it has copied and raises the
    [IndexError] that ended it. *)
Definition load_std (state_dict : Dict.t Tensor) : SE Self unit :=
  fun s => (raise_if (parameter_abort "std" state_dict (std s)),
            set_std (load_parameter "std" state_dict (std s)) s).

Definition load_log_std (state_dict : Dict.t Tensor) : SE Self unit :=
  fun s => (raise_if (parameter_abort "log_std" state_dict (log_std s)),
            set_log_std (load_parameter "log_std" state_dict (log_std s)) s).

Definition load_student (state_dict : Dict.t Tensor) : SE Self unit :=
  fun s => (raise_if (load_abort "student." (mlp_state (student s)) state_dict),
            set_student
              (mkMLP (load_from_state_dict "student." (mlp_state (student s)) state_dict)
                     (mlp_training (student s))) s).

Definition load_student_obs_normalizer (state_dict : Dict.t Tensor) : SE Self unit :=
  fun s => (raise_if (load_abort "student_obs_normalizer."
                        (norm_state (student_obs_normalizer s)) state_dict),
            set_student_obs_normalizer
              (Normalizer_with_state (student_obs_normalizer s)
                 (load_from_state_dict "student_obs_normalizer."
                    (norm_state (student_obs_normalizer s)) state_dict)) s).

Definition load_teacher (state_dict : Dict.t Tensor) : SE Self unit :=
  fun s => (raise_if (load_abort "teacher." (mlp_state (teacher s)) state_dict),
            set_teacher
              (mkMLP (load_from_state_dict "teacher." (mlp_state (teacher s)) state_dict)
                     (mlp_training (teacher s))) s).

Definition load_teacher_obs_normalizer (state_dict : Dict.t Tensor) : SE Self unit :=
  fun s => (raise_if (load_abort "teacher_obs_normalizer."
                        (norm_state (teacher_obs_normalizer s)) state_dict),
            set_teacher_obs_normalizer
              (Normalizer_with_state (teacher_obs_normalizer s)
                 (load_from_state_dict "teacher_obs_normalizer."
                    (norm_state (teacher_obs_normalizer s)) state_dict)) s).

Definition Module_load (state_dict : Dict.t Tensor) : SE Self unit :=
  load_std state_dict ;;;
  load_log_std state_dict ;;;
  load_student state_dict ;;;
  load_student_obs_normalizer state_dict ;;;
  load_teacher state_dict ;;;
  load_teacher_obs_normalizer state_dict.

(** What [super().load_state_dict] writes, whether or not it raises *)
Definition Module_loaded (state_dict : Dict.t Tensor) (s : Self) : Self :=
  snd (Module_load state_dict s).

(** [super().load_state_dict(state_dict, strict=strict)] *)
Definition Module_load_state_dict (state_dict : Dict.t Tensor) (strict : bool) : M unit :=
  flat_own <- getself state_dict_of ;;
  (fun w => let (r, s') := Module_load state_dict (self w) in
            (r, mkWorld s' (generator w))) ;;;
  lift (raise_if (load_error flat_own state_dict strict)).

(** One turn of the loop [for key, value in state_dict.items()] over the
    pair [(teacher_state_dict, teacher_obs_normalizer_state_dict)] *)
Definition remap_item (dicts : Dict.t Tensor * Dict.t Tensor) (item : string * Tensor)
  : Dict.t Tensor * Dict.t Tensor :=
  let (key, value) := item in
  let (teacher_state_dict, teacher_obs_normalizer_state_dict) := dicts in
  (if Str.contains "actor." key
   then Dict.set teacher_state_dict (Str.replace "actor." EmptyString key) value
   else teacher_state_dict,
   if Str.contains "actor_obs_normalizer." key
   then Dict.set teacher_obs_normalizer_state_dict
                 (Str.replace "actor_obs_normalizer." EmptyString key) value
   else teacher_obs_normalizer_state_dict).

Definition remap (state_dict : Dict.t Tensor) : Dict.t Tensor * Dict.t Tensor :=
  fold_left remap_item state_dict ([], []).

(** [any(marker in key for key in state_dict.keys())] *)
Definition any_key_contains (marker : string) (state_dict : Dict.t Tensor) : bool :=
  existsb (Str.contains marker) (Dict.keys state_dict).

Definition no_parameters_msg : string :=
  "state_dict does not contain student or teacher parameters".

Definition load_state_dict (state_dict : Dict.t Tensor) (strict : bool) : M bool :=
  if any_key_contains "actor" state_dict then
    let (teacher_state_dict, teacher_obs_normalizer_state_dict) := remap state_dict in
    teacher_ <- getself teacher ;;
    (let (r, teacher') := MLP_load_state_dict teacher_ teacher_state_dict strict in
     setself (set_teacher teacher') ;;; lift r) ;;;
    normalizer <- getself teacher_obs_normalizer ;;
    (let (r, normalizer') :=
       Normalizer_load_state_dict normalizer teacher_obs_normalizer_state_dict strict in
     setself (set_teacher_obs_normalizer normalizer') ;;; lift r) ;;;
    setself (set_loaded_teacher true) ;;;
    teacher_eval ;;;
    teacher_obs_normalizer_eval ;;;
    ret false
  else if any_key_contains "student" state_dict then
    Module_load_state_dict state_dict strict ;;;
    setself (set_loaded_teacher true) ;;;
    teacher_eval ;;;
    teacher_obs_normalizer_eval ;;;
    ret true
  else raise (ValueError no_parameters_msg).

(** *** Sequences of calls on one instance *)

Inductive Call : Type :=
| CallReset
| CallUpdateDistribution (obs : Tensor)
| CallAct (obs : Dict.t Tensor)
| CallActInference (obs : Dict.t Tensor)
| CallEvaluate (obs : Dict.t Tensor)
| CallGetHiddenStates
| CallDetachHiddenStates
| CallForward
| CallActionMean
| CallActionStd
| CallTrain (mode : bool)
| CallUpdateNormalization (obs : Dict.t Tensor)
| CallLoadStateDict (state_dict : Dict.t Tensor) (strict : bool).

(** The world after a call, returned or raised *)
Definition exec (c : Call) (w : World) : World :=
  match c with
  | CallReset => snd (reset w)
  | CallUpdateDistribution obs => snd (update_distribution obs w)
  | CallAct obs => snd (act obs w)
  | CallActInference obs => snd (act_inference obs w)
  | CallEvaluate obs => snd (evaluate obs w)
  | CallGetHiddenStates => snd (get_hidden_states w)
  | CallDetachHiddenStates => snd (detach_hidden_states w)
  | CallForward => snd (forward w)
  | CallActionMean => snd (action_mean w)
  | CallActionStd => snd (action_std w)
  | CallTrain mode => snd (train mode w)
  | CallUpdateNormalization obs => snd (update_normalization obs w)
  | CallLoadStateDict state_dict strict => snd (load_state_dict state_dict strict w)
  end.

Definition run (calls : list Call) (w : World) : World :=
  fold_left (fun w' c => exec c w') calls w.

(** An instance that [__init__] returned, after any calls of its methods *)
Inductive Constructed : World -> Prop :=
| Constructed_init obs groups num_actions sn tn sh th activation init_noise_std ty kwargs g s g' :
    __init__ obs groups num_actions sn tn sh th activation init_noise_std ty kwargs g
    = (Ok s, g') ->
    Constructed (mkWorld s g')
| Constructed_call c w :
    Constructed w ->
    Constructed (exec c w).

End Methods.

End StudentTeacher.

(** ** A small instance of the collaborators, for the examples

    A one-layer approximator that returns its bias on every row, a running
    normalizer that keeps the last batch as its mean, and a sampler that
    returns the mean; the generator counts the draws. *)

Module Demo.

Definition zeros (sh : list nat) : Tensor := mkTensor sh (repeat 0%R (numel sh)).

Definition init (num_in num_out : nat) (hidden : list nat) (activation : string) (g : nat)
  : Dict.t Tensor * nat :=
  ([("0.weight", zeros [num_out; num_in]); ("0.bias", zeros [num_out])], S g).

Definition forward (m : MLP) (x : Tensor) : Result Tensor :=
  match Dict.get (mlp_state m) "0.bias" with
  | Some b => Ok (mkTensor (lead_dims x ++ [last_dim b])
                           (tile (numel (lead_dims x)) (data b)))
  | None => Err (KeyError "0.bias")
  end.

Definition normalizer_init (n : nat) : Dict.t Tensor :=
  [("mean", zeros [1; n]); ("variance", mkTensor [1; n] (repeat 1%R n));
   ("count", zeros [])].

Definition normalizer_forward (buffers : Dict.t Tensor) (x : Tensor) : Result Tensor :=
  Ok x.

Definition normalizer_update (buffers : Dict.t Tensor) (training : bool) (x : Tensor)
  : Result unit * Dict.t Tensor :=
  if training then (Ok tt, Dict.set buffers "mean" x) else (Ok tt, buffers).

Definition sample (d : Normal) (g : nat) : Result Tensor * nat := (Ok (mean d), S g).

Definition collab : Collaborators :=
  {| Generator := nat;
     MLP_init := init;
     MLP_forward := forward;
     EmpiricalNormalization_init := normalizer_init;
     EmpiricalNormalization_forward := normalizer_forward;
     EmpiricalNormalization_update := normalizer_update;
     Normal_sample := sample |}.

(** Observations of two groups, for a batch of two *)
Definition obs : Dict.t Tensor :=
  [("proprio", mkTensor [2; 3] [1; 2; 3; 4; 5; 6]%R);
   ("privileged", mkTensor [2; 1] [7; 8]%R)].

Definition groups : Dict.t (list string) :=
  [("policy", ["proprio"]); ("teacher", ["proprio"; "privileged"])].

(** [StudentTeacher(obs, groups, 2, student_obs_normalization=True,
    noise_std_type=ty)] on generator [0] *)
Definition construct (ty : string) : Result StudentTeacher.Self * nat :=
  StudentTeacher.__init__ (collab := collab)
    obs groups 2 true false [256; 256; 256] [256; 256; 256] "elu" (1 / 2)%R ty [] 0.

Definition world (ty : string) : StudentTeacher.World (collab := collab) :=
  match construct ty with
  | (Ok s, g) => StudentTeacher.mkWorld (collab := collab) s g
  | (Err _, g) =>
      StudentTeacher.mkWorld (collab := collab)
        (StudentTeacher.mkSelf true false [] (mkMLP [] true) false
           (mkNormalizer Identity true) (mkMLP [] false) false
           (mkNormalizer Identity true) ty None None None) g
  end.

Definition ones2 (sh : list nat) : Tensor := mkTensor sh (repeat 1%R (numel sh)).

(** A checkpoint of a prior policy training: actor, critic, noise *)
Definition policy_checkpoint : Dict.t Tensor :=
  [("std", ones2 [2]);
   ("actor.0.weight", ones2 [2; 4]); ("actor.0.bias", ones2 [2]);
   ("critic.0.weight", ones2 [1; 4]); ("critic.0.bias", ones2 [1])].

(** The same without the bias of the actor *)
Definition partial_policy_checkpoint : Dict.t Tensor :=
  [("actor.0.weight", ones2 [2; 4])].

(** A checkpoint of a prior distillation, with every name of the module *)
Definition distillation_checkpoint : Dict.t Tensor :=
  [("std", ones2 [2]);
   ("student.0.weight", ones2 [2; 3]); ("student.0.bias", ones2 [2]);
   ("student_obs_normalizer.mean", ones2 [1; 3]);
   ("student_obs_normalizer.variance", ones2 [1; 3]);
   ("student_obs_normalizer.count", ones2 []);
   ("teacher.0.weight", ones2 [2; 4]); ("teacher.0.bias", ones2 [2])].


(** A mapping with neither marker *)
Definition critic_checkpoint : Dict.t Tensor :=
  [("critic.0.weight", ones2 [1; 4]); ("critic.0.bias", ones2 [1])].

(** Observations for a batch of five, and observations without a batch axis *)
Definition obs5 : Dict.t Tensor :=
  [("proprio", zeros [5; 3]); ("privileged", zeros [5; 1])].

Definition obs_1d : Dict.t Tensor :=
  [("proprio", mkTensor [3] [1; 2; 3]%R); ("privileged", mkTensor [1] [7]%R)].

Definition obs_no_privileged : Dict.t Tensor :=
  [("proprio", zeros [5; 3])].

Definition rollout : list (StudentTeacher.Call) :=
  [StudentTeacher.CallAct obs; StudentTeacher.CallUpdateNormalization obs;
   StudentTeacher.CallAct obs5; StudentTeacher.CallUpdateNormalization obs_1d].

(** A probe mapping whose privileged group has no batch axis *)
Definition obs_bad_rank : Dict.t Tensor :=
  [("proprio", zeros [2; 3]); ("privileged", mkTensor [2] [7; 8]%R)].

(** The actor entries of [policy_checkpoint] alone *)
Definition actor_only_checkpoint : Dict.t Tensor :=
  [("actor.0.weight", ones2 [2; 4]); ("actor.0.bias", ones2 [2])].

(** A mapping whose only key holds the marker without the dot *)
Definition actor_std_checkpoint : Dict.t Tensor :=
  [("actor_std", ones2 [2])].

(** The same instance with a running normalizer for the teacher as well *)
Definition world_both (ty : string) : StudentTeacher.World (collab := collab) :=
  match StudentTeacher.__init__ (collab := collab)
          obs groups 2 true true [256; 256; 256] [256; 256; 256] "elu" (1 / 2)%R ty [] 0
  with
  | (Ok s, g) => StudentTeacher.mkWorld (collab := collab) s g
  | (Err _, g) => world ty
  end.

(** A checkpoint of a prior policy training written with a one-element
    vector for the count of its normalizer *)
Definition legacy_policy_checkpoint : Dict.t Tensor :=
  [("actor.0.weight", ones2 [2; 4]); ("actor.0.bias", ones2 [2]);
   ("actor_obs_normalizer.mean", ones2 [1; 4]);
   ("actor_obs_normalizer.variance", ones2 [1; 4]);
   ("actor_obs_normalizer.count", mkTensor [1] [7%R])].

(** [distillation_checkpoint] with a one-element vector for the count, and
    with an empty vector for it *)
Definition legacy_distillation_checkpoint : Dict.t Tensor :=
  [("std", ones2 [2]);
   ("student.0.weight", ones2 [2; 3]); ("student.0.bias", ones2 [2]);
   ("student_obs_normalizer.mean", ones2 [1; 3]);
   ("student_obs_normalizer.variance", ones2 [1; 3]);
   ("student_obs_normalizer.count", mkTensor [1] [7%R]);
   ("teacher.0.weight", ones2 [2; 4]); ("teacher.0.bias", ones2 [2])].

Definition empty_count_checkpoint : Dict.t Tensor :=
  [("std", ones2 [2]);
   ("student.0.weight", ones2 [2; 3]); ("student.0.bias", ones2 [2]);
   ("student_obs_normalizer.mean", ones2 [1; 3]);
   ("student_obs_normalizer.variance", ones2 [1; 3]);
   ("student_obs_normalizer.count", mkTensor [0] []);
   ("teacher.0.weight", ones2 [2; 4]); ("teacher.0.bias", ones2 [2])].

Definition calls_without_load : list (StudentTeacher.Call) :=
  [StudentTeacher.CallTrain true; StudentTeacher.CallAct obs;
   StudentTeacher.CallUpdateNormalization obs5; StudentTeacher.CallTrain false;
   StudentTeacher.CallEvaluate obs].

Definition calls_without_act : list (StudentTeacher.Call) :=
  [StudentTeacher.CallTrain false;
   StudentTeacher.CallLoadStateDict policy_checkpoint true;
   StudentTeacher.CallUpdateNormalization obs; StudentTeacher.CallEvaluate obs5;
   StudentTeacher.CallActInference obs].

End Demo.

(** * Vocabulary of the statements *)

Import StudentTeacher.

Section Vocabulary.

Context {collab : Collaborators}.

(** The computation [m] leaves the observation [f] of the world unchanged,
    whether it returns or raises. *)
Definition Keeps {A X} (f : World -> X) (m : M A) : Prop :=
  forall w, f (snd (m w)) = f w.

Definition noise_mode (w : World) : string := noise_std_type (self w).

(** Every attribute but [distribution] and [student_obs_normalizer] *)
Definition rollout_frame (w : World) :=
  let s := self w in
  (training s, loaded_teacher s, obs_groups s, student s,
   student_obs_normalization s, teacher s, teacher_obs_normalization s,
   teacher_obs_normalizer s, (noise_std_type s, std s, log_std s)).

Definition is_rollout_call (c : Call) : bool :=
  match c with
  | CallAct _ | CallUpdateNormalization _ => true
  | _ => false
  end.

(** The value of the last item whose key satisfies [p] *)
Definition last_value (p : string -> bool) (sd : Dict.t Tensor) (init : option Tensor)
  : option Tensor :=
  fold_left (fun acc item => if p (fst item) then Some (snd item) else acc) sd init.

(** The keys that the loop sends to the teacher name [k] *)
Definition renamed_to (old k key : string) : bool :=
  Str.contains old key && (Str.replace old EmptyString key =? k).

(** The first group of the list that the mapping lacks *)
Definition first_missing (obs : Dict.t Tensor) (groups : list string) : option string :=
  find (fun g => negb (Dict.mem obs g)) groups.

(** The runtime mapping gives every group of the list the batch size [b]
    and the width that the construction-time mapping [obs0] gave it. *)
Definition same_widths (obs0 obs : Dict.t Tensor) (b : nat) (groups : list string) : bool :=
  forallb (fun g => match Dict.get obs0 g, Dict.get obs g with
                    | Some t0, Some t => shape_eqb (shape t) [b; last_dim t0]
                    | _, _ => false
                    end) groups.

(** [torch.cat] of the tensors that the mapping holds for the role *)
Definition routed (groups : Dict.t (list string)) (role : string) (obs : Dict.t Tensor)
  : Result Tensor :=
  match getitem groups role with
  | Ok names =>
      match collect_obs obs names with
      | Ok obs_list => cat obs_list
      | Err e => Err e
      end
  | Err e => Err e
  end.

(** The feature width that [__init__] reads for a group *)
Definition group_width (obs0 : Dict.t Tensor) (g : string) : nat :=
  match Dict.get obs0 g with
  | Some t => last_dim t
  | None => 0
  end.

(** The group is absent from the mapping or not two-dimensional. *)
Definition not_2d (obs0 : Dict.t Tensor) (g : string) : bool :=
  match Dict.get obs0 g with
  | Some t => negb (ndim t =? 2)%nat
  | None => true
  end.

(** The tail of both loading branches: the flag, then the two [eval()] *)
Definition loaded_and_eval (s : Self) : Self :=
  let s1 := set_loaded_teacher true s in
  let s2 := set_teacher (MLP_train false (teacher s1)) s1 in
  set_teacher_obs_normalizer (Normalizer_train false (teacher_obs_normalizer s2)) s2.

(** ** Vocabulary of the further properties *)

(** The exception that the loop of [__init__] raises at the group [g]: the
    mapping lacks it, or holds it with another rank than two. *)
Definition group_error (obs0 : Dict.t Tensor) (g : string) : Exception :=
  if Dict.mem obs0 g then AssertionError only_1D_msg else KeyError g.

Definition is_distribution_call (c : Call) : bool :=
  match c with
  | CallAct _ | CallUpdateDistribution _ => true
  | _ => false
  end.

Definition is_load_call (c : Call) : bool :=
  match c with
  | CallLoadStateDict _ _ => true
  | _ => false
  end.

(** The student mean of a mapping: route, normalize, apply the student *)
Definition student_mean (s : Self) (obs : Dict.t Tensor) : Result Tensor :=
  match routed (obs_groups s) "policy" obs with
  | Ok x =>
      match Normalizer_forward (student_obs_normalizer s) x with
      | Ok y => MLP_forward (student s) y
      | Err e => Err e
      end
  | Err e => Err e
  end.

(** The teacher output of a mapping: route, normalize, apply the teacher *)
Definition teacher_output (s : Self) (obs : Dict.t Tensor) : Result Tensor :=
  match routed (obs_groups s) "teacher" obs with
  | Ok x =>
      match Normalizer_forward (teacher_obs_normalizer s) x with
      | Ok y => MLP_forward (teacher s) y
      | Err e => Err e
      end
  | Err e => Err e
  end.

(** The standard deviation that [update_distribution] builds for a mean *)
Definition noise_std (s : Self) (mean_ : Tensor) : Result Tensor :=
  if noise_std_type s =? "scalar" then
    match getattr "std" (std s) with
    | Ok p => expand_as p mean_
    | Err e => Err e
    end
  else if noise_std_type s =? "log" then
    match getattr "log_std" (log_std s) with
    | Ok p => expand_as (exp p) mean_
    | Err e => Err e
    end
  else Err (ValueError (unknown_std_msg (noise_std_type s))).

(** The distribution that [update_distribution] stores for a student input *)
Definition distribution_for (s : Self) (x : Tensor) : Result Normal :=
  match MLP_forward (student s) x with
  | Ok mean_ =>
      match noise_std s mean_ with
      | Ok std_ => Ok (mkNormal mean_ std_)
      | Err e => Err e
      end
  | Err e => Err e
  end.

(** The distribution that [act] stores for a mapping *)
Definition next_distribution (s : Self) (obs : Dict.t Tensor) : Result Normal :=
  match routed (obs_groups s) "policy" obs with
  | Ok x =>
      match Normalizer_forward (student_obs_normalizer s) x with
      | Ok y => distribution_for s y
      | Err e => Err e
      end
  | Err e => Err e
  end.

Definition is_empirical (n : Normalizer) : bool :=
  match norm_kind n with
  | Identity => false
  | EmpiricalNormalization _ => true
  end.

Definition names_and_shapes (d : Dict.t Tensor) : list (string * list nat) :=
  map (fun e => (fst e, shape (snd e))) d.

(** What is fixed when the instance is built: the groups, the flags, the
    noise mode, the kind of both slots, and the names and shapes of the
    parameters of both approximators, of the teacher normalizer and of the
    noise. *)
Definition architecture (s : Self) :=
  (obs_groups s, student_obs_normalization s, teacher_obs_normalization s,
   noise_std_type s,
   (is_empirical (student_obs_normalizer s), is_empirical (teacher_obs_normalizer s)),
   (names_and_shapes (mlp_state (student s)), names_and_shapes (mlp_state (teacher s)),
    names_and_shapes (norm_state (teacher_obs_normalizer s))),
   (option_map shape (std s), option_map shape (log_std s))).

(** What [evaluate] reads *)
Definition teacher_view (s : Self) :=
  (obs_groups s, teacher s, norm_kind (teacher_obs_normalizer s)).

(** The keys that the renaming loop of the prior-policy branch uses *)
Definition is_actor_key (key : string) : bool :=
  Str.contains "actor." key || Str.contains "actor_obs_normalizer." key.

(** The data has one entry per index of the shape. *)
Definition well_shaped (t : Tensor) : bool :=
  (length (data t) =? numel (shape t))%nat.

(** Row [i] of a tensor, read as rows of its last dimension *)
Definition row (i : nat) (t : Tensor) : list R :=
  firstn (last_dim t) (skipn (i * last_dim t) (data t)).

(** The writes that the methods make to the object *)
Inductive Write : Type :=
| WDistribution (d : Normal)
| WUpdate (x : Tensor)
| WTrain (mode : bool)
| WTeacherLoad (state_dict : Dict.t Tensor) (strict : bool)
| WTeacherNormalizerLoad (state_dict : Dict.t Tensor) (strict : bool)
| WLoadedEval
| WModuleLoaded (state_dict : Dict.t Tensor).

(** The object after [train(mode)] *)
Definition trained (mode : bool) (s : Self) : Self :=
  let s1 := Module_train mode s in
  let s2 := set_teacher (MLP_train false (teacher s1)) s1 in
  set_teacher_obs_normalizer (Normalizer_train false (teacher_obs_normalizer s2)) s2.

Definition apply_write (wr : Write) (s : Self) : Self :=
  match wr with
  | WDistribution d => set_distribution (Some d) s
  | WUpdate x =>
      set_student_obs_normalizer
        (snd (Normalizer_update (student_obs_normalizer s) x)) s
  | WTrain mode => trained mode s
  | WTeacherLoad state_dict strict =>
      set_teacher (snd (MLP_load_state_dict (teacher s) state_dict strict)) s
  | WTeacherNormalizerLoad state_dict strict =>
      set_teacher_obs_normalizer
        (snd (Normalizer_load_state_dict (teacher_obs_normalizer s) state_dict strict)) s
  | WLoadedEval => loaded_and_eval s
  | WModuleLoaded state_dict => Module_loaded state_dict s
  end.

Definition apply_writes (ws : list Write) (s : Self) : Self :=
  fold_left (fun s' wr => apply_write wr s') ws s.

(** The writes that a call can make *)
Definition may_write (c : Call) (wr : Write) : bool :=
  match c, wr with
  | CallAct _, WDistribution _
  | CallUpdateDistribution _, WDistribution _
  | CallUpdateNormalization _, WUpdate _
  | CallTrain _, WTrain _
  | CallLoadStateDict _ _, WTeacherLoad _ _
  | CallLoadStateDict _ _, WTeacherNormalizerLoad _ _
  | CallLoadStateDict _ _, WLoadedEval
  | CallLoadStateDict _ _, WModuleLoaded _ => true
  | _, _ => false
  end.

(** The arguments on which [torch.exp] is the real exponential up to
    rounding: those whose exponential is a normal number of single
    precision, the type of the parameters that [__init__] creates.  Below
    them the result of [torch.exp] reaches [0.0], above them [inf]. *)
Definition exp_is_normal (x : R) : Prop := (-87 <= x <= 88)%R.

(** After a load: every own entry that the mapping names holds its input
    (for a zero-dimensional entry, the first element of a one-dimensional
    input), and every other entry its old value, which [strict] excludes. *)
Definition restored (own own' state_dict : Dict.t Tensor) (strict : bool) : Prop :=
  forall k old, Dict.get own k = Some old ->
    match Dict.get state_dict k with
    | Some input =>
        exists v, input_param old input = Ok v /\ shape v = shape old
                  /\ Dict.get own' k = Some v
    | None => strict = false /\ Dict.get own' k = Some old
    end.

(** The exception [e'] is [e], up to the order in which the error of a load
    lists the unexpected keys. *)
Definition same_report (e' e : Exception) : Prop :=
  match e', e with
  | LoadStateDictError missing' unexpected' mismatched',
    LoadStateDictError missing unexpected mismatched =>
      missing' = missing /\ Permutation unexpected' unexpected
      /\ mismatched' = mismatched
  | _, _ => e' = e
  end.

(** No key occurs twice, as in every Python dictionary. *)
Fixpoint unique (keys : list string) : bool :=
  match keys with
  | [] => true
  | k :: rest => negb (existsb (String.eqb k) rest) && unique rest
  end.

(** The mapping holds every group of the list as a two-dimensional tensor
    of [b] rows with as many entries as its shape says. *)
Definition batch_of (obs : Dict.t Tensor) (b : nat) (names : list string) : bool :=
  forallb (fun g => match Dict.get obs g with
                    | Some t => shape_eqb (shape t) [b; last_dim t] && well_shaped t
                    | None => false
                    end) names.

End Vocabulary.

(** * Properties of the embedding *)

(** ** The definitions on small inputs *)

Example replace_actor_prefix :
  Str.replace "actor." EmptyString "actor.0.weight" = "0.weight".
Proof. reflexivity. Qed.

Example replace_every_occurrence :
  Str.replace "actor." EmptyString "my_actor.actor.2.bias" = "my_2.bias".
Proof. reflexivity. Qed.

Example contains_markers :
  Str.contains "actor" "actor_obs_normalizer._mean" = true
  /\ Str.contains "actor." "actor_obs_normalizer._mean" = false
  /\ Str.contains "student" "critic.0.weight" = false.
Proof. repeat split. Qed.

Example dict_set_overwrites :
  Dict.set [("a", 1); ("b", 2)] "a" 3 = [("a", 3); ("b", 2)]
  /\ Dict.set [("a", 1); ("b", 2)] "c" 3 = [("a", 1); ("b", 2); ("c", 3)].
Proof. repeat split. Qed.

Example cat_two_groups :
  cat [mkTensor [2; 3] [1; 2; 3; 4; 5; 6]%R; mkTensor [2; 1] [7; 8]%R]
  = Ok (mkTensor [2; 4] [1; 2; 3; 7; 4; 5; 6; 8]%R).
Proof. reflexivity. Qed.

Example cat_no_group : is_ok (cat []) = false.
Proof. reflexivity. Qed.

Example cat_batch_mismatch :
  is_ok (cat [mkTensor [2; 1] [1; 2]%R; mkTensor [3; 1] [3; 4; 5]%R]) = false.
Proof. reflexivity. Qed.

Example expand_as_rows :
  expand_as (mkTensor [2] [1; 2]%R) (mkTensor [3; 2] [0; 0; 0; 0; 0; 0]%R)
  = Ok (mkTensor [3; 2] [1; 2; 1; 2; 1; 2]%R).
Proof. reflexivity. Qed.

Example remap_policy_checkpoint :
  StudentTeacher.remap Demo.policy_checkpoint
  = ([("0.weight", Demo.ones2 [2; 4]); ("0.bias", Demo.ones2 [2])], []).
Proof. reflexivity. Qed.

Example remap_normalizer_key :
  StudentTeacher.remap [("actor_obs_normalizer._mean", Demo.zeros [1; 4])]
  = ([], [("_mean", Demo.zeros [1; 4])]).
Proof. reflexivity. Qed.

Example construct_unknown_noise :
  fst (Demo.construct "gaussian")
  = Err (ValueError
           "Unknown standard deviation type: gaussian. Should be 'scalar' or 'log'").
Proof. reflexivity. Qed.

Example construct_flags :
  match fst (Demo.construct "scalar") with
  | Ok s =>
      (StudentTeacher.loaded_teacher s, mlp_training (StudentTeacher.student s),
       mlp_training (StudentTeacher.teacher s),
       norm_training (StudentTeacher.teacher_obs_normalizer s))
      = (false, true, false, true)
  | Err _ => False
  end.
Proof. reflexivity. Qed.

Example both_markers_take_the_actor_branch :
  fst (StudentTeacher.load_state_dict
         [("student.0.weight", Demo.ones2 [2; 3]); ("actor.0.weight", Demo.ones2 [2; 4])]
         false (Demo.world "scalar"))
  = Ok false.
Proof. reflexivity. Qed.

(** A one-element vector is accepted for a zero-dimensional buffer, and
    its element is stored. *)
Example load_scalar_from_vector :
  fst (StudentTeacher.load_state_dict Demo.legacy_distillation_checkpoint true
         (Demo.world "scalar"))
  = Ok true
  /\ Dict.get
       (norm_state
          (StudentTeacher.student_obs_normalizer
             (StudentTeacher.self
                (snd (StudentTeacher.load_state_dict Demo.legacy_distillation_checkpoint
                        true (Demo.world "scalar"))))))
       "count"
     = Some (mkTensor [] [7%R])
  /\ fst (StudentTeacher.load_state_dict Demo.legacy_policy_checkpoint true
            (Demo.world_both "scalar"))
     = Ok false
  /\ norm_state
       (StudentTeacher.teacher_obs_normalizer
          (StudentTeacher.self
             (snd (StudentTeacher.load_state_dict Demo.legacy_policy_checkpoint
                     true (Demo.world_both "scalar")))))
     = [("mean", Demo.ones2 [1; 4]); ("variance", Demo.ones2 [1; 4]);
        ("count", mkTensor [] [7%R])].
Proof. repeat split. Qed.

(** An empty vector for a zero-dimensional buffer raises [IndexError] where
    the visit meets it: the entries before it are copied, the entries after
    it are not, and [loaded_teacher] stays false. *)
Example load_scalar_from_empty_vector :
  let w' := snd (StudentTeacher.load_state_dict Demo.empty_count_checkpoint true
                   (Demo.world "scalar")) in
  fst (StudentTeacher.load_state_dict Demo.empty_count_checkpoint true
         (Demo.world "scalar"))
  = Err IndexError
  /\ mlp_state (StudentTeacher.student (StudentTeacher.self w'))
     = [("0.weight", Demo.ones2 [2; 3]); ("0.bias", Demo.ones2 [2])]
  /\ mlp_state (StudentTeacher.teacher (StudentTeacher.self w'))
     = [("0.weight", Demo.zeros [2; 4]); ("0.bias", Demo.zeros [2])]
  /\ StudentTeacher.loaded_teacher (StudentTeacher.self w') = false.
Proof. repeat split. Qed.

Example act_on_demo :
  fst (StudentTeacher.act Demo.obs (Demo.world "scalar"))
  = Ok (mkTensor [2; 2] [0; 0; 0; 0]%R).
Proof. reflexivity. Qed.

(** ** Strings and dictionaries *)

Lemma prefix_app (a s : string) : String.prefix a (a ++ s) = true.
Proof.
  induction a as [|c a IH]; simpl.
  - destruct s; reflexivity.
  - destruct (Ascii.ascii_dec c c) as [_|n]; [exact IH | congruence].
Qed.

Lemma prefix_split (a s : string) :
  String.prefix a s = true -> exists post, s = a ++ post.
Proof.
  revert s; induction a as [|c a IH]; intros s H.
  - exists s; reflexivity.
  - destruct s as [|c' s]; simpl in H; [discriminate|].
    destruct (Ascii.ascii_dec c c') as [->|]; [|discriminate].
    destruct (IH s H) as [post ->]. exists post; reflexivity.
Qed.

(** [Str.contains] decides the presence of a substring. *)
Lemma contains_spec (sub s : string) :
  Str.contains sub s = true <-> exists pre post, s = pre ++ sub ++ post.
Proof.
  split.
  - induction s as [|c s IH]; intros H; cbn [Str.contains] in H.
    + destruct (String.prefix sub EmptyString) eqn:E; [|discriminate].
      destruct (prefix_split _ _ E) as [post Hpost]. exists EmptyString. exists post. exact Hpost.
    + destruct (String.prefix sub (String c s)) eqn:E.
      * destruct (prefix_split _ _ E) as [post Hpost]. exists EmptyString. exists post. exact Hpost.
      * destruct (IH H) as (pre & post & ->). exists (String c pre). exists post. reflexivity.
  - intros (pre & post & ->).
    induction pre as [|c pre IH]; cbn [Str.contains append].
    + destruct (sub ++ post) eqn:E; cbn [Str.contains]; rewrite <- E, prefix_app; reflexivity.
    + destruct (String.prefix sub (String c (pre ++ sub ++ post))); [reflexivity | exact IH].
Qed.

(** The guard [any(marker in key for key in state_dict.keys())] *)
Lemma any_key_contains_spec (marker : string) (state_dict : Dict.t Tensor) :
  any_key_contains marker state_dict = true <->
  exists key pre post,
    In key (Dict.keys state_dict) /\ key = pre ++ marker ++ post.
Proof.
  unfold any_key_contains. rewrite existsb_exists. split.
  - intros (key & Hin & Hc). apply contains_spec in Hc.
    destruct Hc as (pre & post & ->). eauto.
  - intros (key & pre & post & Hin & ->).
    eexists; split; [eassumption | apply contains_spec; eauto].
Qed.

(** ** Frame rules of the monad *)

Section Frame.

Context {collab : Collaborators}.

Lemma Keeps_ret {A X} (f : World -> X) (a : A) : Keeps f (ret a).
Proof. intro w; reflexivity. Qed.

Lemma Keeps_raise {A X} (f : World -> X) e : Keeps f (raise (A := A) e).
Proof. intro w; reflexivity. Qed.

Lemma Keeps_lift {A X} (f : World -> X) (r : Result A) : Keeps f (lift r).
Proof. intro w; reflexivity. Qed.

Lemma Keeps_getself {A X} (f : World -> X) (p : Self -> A) : Keeps f (getself p).
Proof. intro w; reflexivity. Qed.

Lemma Keeps_bind {A B X} (f : World -> X) (m : M A) (k : A -> M B) :
  Keeps f m -> (forall a, Keeps f (k a)) -> Keeps f (bind m k).
Proof.
  intros Hm Hk w. unfold bind. specialize (Hm w).
  destruct (m w) as [[a|e] w']; simpl in *.
  - rewrite Hk. exact Hm.
  - exact Hm.
Qed.

Lemma Keeps_setself {X} (f : World -> X) (u : Self -> Self) :
  (forall s g, f (mkWorld (u s) g) = f (mkWorld s g)) -> Keeps f (setself u).
Proof. intros H [s g]. simpl. apply H. Qed.

Lemma Keeps_property {A X} (f : World -> X) (name : string) (fget : M A) :
  Keeps f fget -> Keeps f (property name fget).
Proof.
  intros H w. unfold property. specialize (H w).
  destruct (fget w) as [[a|e] w']; [exact H|]. destruct e; exact H.
Qed.

(** The three properties read the stored distribution and write nothing. *)
Lemma action_mean_eq (w : World) :
  action_mean w
  = (match distribution (self w) with
     | Some d => Ok (mean d)
     | None => Err (AttributeError "action_mean")
     end, w).
Proof.
  unfold action_mean, property, bind, getself, gets, lift, ret. cbn.
  destruct (distribution (self w)); reflexivity.
Qed.

Lemma action_std_eq (w : World) :
  action_std w
  = (match distribution (self w) with
     | Some d => Ok (stddev d)
     | None => Err (AttributeError "action_std")
     end, w).
Proof.
  unfold action_std, property, bind, getself, gets, lift, ret. cbn.
  destruct (distribution (self w)); reflexivity.
Qed.

Lemma entropy_eq (w : World) :
  entropy w
  = (match distribution (self w) with
     | Some d => Ok (sum_last (Normal_entropy d))
     | None => Err (AttributeError "entropy")
     end, w).
Proof.
  unfold entropy, property, bind, getself, gets, lift, ret. cbn.
  destruct (distribution (self w)); reflexivity.
Qed.

End Frame.

Ltac keeps_step :=
  first
    [ apply Keeps_ret | apply Keeps_raise | apply Keeps_lift | apply Keeps_getself
    | apply Keeps_property
    | apply Keeps_bind; [ | intro ]
    | apply Keeps_setself; intros; reflexivity
    | match goal with
      | |- Keeps _ (if ?b then _ else _) => destruct b
      | |- Keeps _ (let (_, _) := ?p in _) => destruct p
      end ].

Ltac keeps := repeat keeps_step.

(** ** Every method keeps the noise mode *)

Section NoiseMode.

Context {collab : Collaborators}.

Lemma Keeps_sample {X} (f : World -> X) (d : Normal) :
  (forall s g g', f (mkWorld s g') = f (mkWorld s g)) ->
  Keeps f (fun w => let (x, g') := Normal_sample d (generator w) in
                    (x, mkWorld (self w) g')).
Proof.
  intros H [s g]. simpl. destruct (Normal_sample d g) as [x g']. simpl. apply H.
Qed.

Lemma get_student_obs_pure (obs : Dict.t Tensor) (w : World) :
  snd (get_student_obs obs w) = w.
Proof.
  unfold get_student_obs, bind, getself, gets, lift. simpl.
  destruct (getitem (obs_groups (self w)) "policy"); [|reflexivity].
  destruct (collect_obs obs a); reflexivity.
Qed.

Lemma get_teacher_obs_pure (obs : Dict.t Tensor) (w : World) :
  snd (get_teacher_obs obs w) = w.
Proof.
  unfold get_teacher_obs, bind, getself, gets, lift. simpl.
  destruct (getitem (obs_groups (self w)) "teacher"); [|reflexivity].
  destruct (collect_obs obs a); reflexivity.
Qed.

Lemma Keeps_get_student_obs {X} (f : World -> X) obs : Keeps f (get_student_obs obs).
Proof. intro w. rewrite get_student_obs_pure. reflexivity. Qed.

Lemma Keeps_get_teacher_obs {X} (f : World -> X) obs : Keeps f (get_teacher_obs obs).
Proof. intro w. rewrite get_teacher_obs_pure. reflexivity. Qed.

Lemma update_distribution_noise_mode obs : Keeps noise_mode (update_distribution obs).
Proof. unfold update_distribution. keeps. Qed.

Lemma act_noise_mode obs : Keeps noise_mode (act obs).
Proof.
  unfold act. apply Keeps_bind; [apply Keeps_get_student_obs | intro].
  keeps; try apply update_distribution_noise_mode.
  apply Keeps_sample. reflexivity.
Qed.

(** The visit of [super().load_state_dict] writes parameters and buffers,
    and nothing else. *)
Lemma Module_loaded_frame (sd : Dict.t Tensor) (s : Self) :
  let s' := Module_loaded sd s in
  (training s', loaded_teacher s', obs_groups s', student_obs_normalization s',
   teacher_obs_normalization s', noise_std_type s', distribution s')
  = (training s, loaded_teacher s, obs_groups s, student_obs_normalization s,
     teacher_obs_normalization s, noise_std_type s, distribution s)
  /\ (mlp_training (student s'), mlp_training (teacher s'),
      norm_training (student_obs_normalizer s'),
      norm_training (teacher_obs_normalizer s'))
     = (mlp_training (student s), mlp_training (teacher s),
        norm_training (student_obs_normalizer s),
        norm_training (teacher_obs_normalizer s)).
Proof.
  assert (T : forall n st, norm_training (Normalizer_with_state n st) = norm_training n)
    by (intros [[|b] tr] st; reflexivity).
  unfold Module_loaded, Module_load, bind, load_std, load_log_std, load_student,
    load_student_obs_normalizer, load_teacher, load_teacher_obs_normalizer.
  repeat match goal with
         | |- context [raise_if ?a] => destruct (raise_if a); cbn
         end;
    rewrite ?T; split; reflexivity.
Qed.

Lemma Module_loaded_distribution (sd : Dict.t Tensor) (s : Self) :
  distribution (Module_loaded sd s) = distribution s.
Proof.
  pose proof (proj1 (Module_loaded_frame sd s)) as F. cbv zeta in F. congruence.
Qed.

Lemma Module_loaded_flag (sd : Dict.t Tensor) (s : Self) :
  loaded_teacher (Module_loaded sd s) = loaded_teacher s.
Proof.
  pose proof (proj1 (Module_loaded_frame sd s)) as F. cbv zeta in F. congruence.
Qed.

Lemma Keeps_Module_load {X} (f : World -> X) (sd : Dict.t Tensor) :
  (forall s g, f (mkWorld (Module_loaded sd s) g) = f (mkWorld s g)) ->
  Keeps f (fun w => let (r, s') := Module_load sd (self w) in
                    (r, mkWorld s' (generator w))).
Proof.
  intros H [s g]. cbn [self generator]. specialize (H s g). unfold Module_loaded in H.
  destruct (Module_load sd s) as [r s']. exact H.
Qed.

Lemma load_state_dict_noise_mode sd strict : Keeps noise_mode (load_state_dict sd strict).
Proof.
  assert (K : Keeps noise_mode
                (fun w => let (r, s') := Module_load sd (self w) in
                          (r, mkWorld s' (generator w)))).
  { apply Keeps_Module_load. intros s g. unfold noise_mode. cbn [self].
    pose proof (Module_loaded_frame sd s) as [F _]. cbv zeta in F. congruence. }
  unfold load_state_dict, Module_load_state_dict, teacher_eval,
    teacher_obs_normalizer_eval.
  destruct (any_key_contains "actor" sd); [destruct (remap sd) | ];
    repeat first [ exact K | keeps_step ].
Qed.

Lemma act_inference_noise_mode obs : Keeps noise_mode (act_inference obs).
Proof.
  unfold act_inference. apply Keeps_bind; [apply Keeps_get_student_obs | intro]. keeps.
Qed.

Lemma evaluate_noise_mode obs : Keeps noise_mode (evaluate obs).
Proof.
  unfold evaluate. apply Keeps_bind; [apply Keeps_get_teacher_obs | intro]. keeps.
Qed.

Lemma update_normalization_noise_mode obs : Keeps noise_mode (update_normalization obs).
Proof.
  unfold update_normalization. apply Keeps_bind; [keeps | intros []]; [|keeps].
  apply Keeps_bind; [apply Keeps_get_student_obs | intro]. keeps.
Qed.

Lemma exec_noise_mode (c : Call) (w : World) : noise_mode (exec c w) = noise_mode w.
Proof.
  destruct c; cbn [exec].
  - reflexivity.
  - apply update_distribution_noise_mode.
  - apply act_noise_mode.
  - apply act_inference_noise_mode.
  - apply evaluate_noise_mode.
  - reflexivity.
  - reflexivity.
  - reflexivity.
  - rewrite action_mean_eq. reflexivity.
  - rewrite action_std_eq. reflexivity.
  - reflexivity.
  - apply update_normalization_noise_mode.
  - apply load_state_dict_noise_mode.
Qed.

Lemma __init___noise_mode obs groups num_actions sn tn sh th activation c ty kwargs g s g' :
  __init__ obs groups num_actions sn tn sh th activation c ty kwargs g = (Ok s, g') ->
  noise_std_type s = ty /\ (ty = "scalar" \/ ty = "log").
Proof.
  unfold __init__, bind, lift, ret, raise.
  destruct (getitem groups "policy"); [|discriminate].
  destruct (count_obs obs a 0); [|discriminate].
  destruct (getitem groups "teacher"); [|discriminate].
  destruct (count_obs obs a1 0); [|discriminate].
  destruct (MLP_init a0 num_actions sh activation g) as [p1 g1].
  destruct (MLP_init a2 num_actions th activation g1) as [p2 g2].
  destruct (String.eqb_spec ty "scalar") as [->|_].
  - intros H; inversion H; subst; simpl; auto.
  - destruct (String.eqb_spec ty "log") as [->|_]; [|discriminate].
    intros H; inversion H; subst; simpl; auto.
Qed.

Lemma Constructed_noise_mode (w : World) :
  Constructed w -> noise_mode w = "scalar" \/ noise_mode w = "log".
Proof.
  induction 1 as [obs groups n sn tn sh th a c ty kw g s g' H | c w _ IH].
  - apply __init___noise_mode in H. destruct H as [<- H]. exact H.
  - rewrite exec_noise_mode. exact IH.
Qed.

End NoiseMode.

(** ** Rollout calls: what [act] and [update_normalization] may write *)

Section Rollout.

Context {collab : Collaborators}.

Lemma update_distribution_Keeps {X} (f : World -> X) obs :
  (forall s d g, f (mkWorld (set_distribution d s) g) = f (mkWorld s g)) ->
  Keeps f (update_distribution obs).
Proof.
  intros H. unfold update_distribution.
  repeat first [ keeps_step | apply Keeps_setself; intros; apply H ].
Qed.

Lemma act_Keeps {X} (f : World -> X) obs :
  (forall s d g, f (mkWorld (set_distribution d s) g) = f (mkWorld s g)) ->
  (forall s g g', f (mkWorld s g') = f (mkWorld s g)) ->
  Keeps f (act obs).
Proof.
  intros Hd Hg. unfold act.
  apply Keeps_bind; [apply Keeps_get_student_obs | intro].
  repeat first [ apply update_distribution_Keeps; exact Hd
               | apply Keeps_sample; exact Hg
               | keeps_step ].
Qed.

Lemma update_normalization_Keeps {X} (f : World -> X) obs :
  (forall s n g, f (mkWorld (set_student_obs_normalizer n s) g) = f (mkWorld s g)) ->
  Keeps f (update_normalization obs).
Proof.
  intros H. unfold update_normalization.
  apply Keeps_bind; [keeps | intros []]; [|keeps].
  apply Keeps_bind; [apply Keeps_get_student_obs | intro].
  repeat first [ keeps_step | apply Keeps_setself; intros; apply H ].
Qed.

(** With student normalization off, [update_normalization] writes nothing. *)
Lemma update_normalization_disabled obs (w : World) :
  student_obs_normalization (self w) = false ->
  update_normalization obs w = (Ok tt, w).
Proof.
  intros H. unfold update_normalization, bind, getself, gets. simpl.
  rewrite H. reflexivity.
Qed.

(** [update] writes the buffers of the slot, never its kind or its flag. *)
Lemma Normalizer_update_training (n : Normalizer) (x : Tensor) :
  norm_training (snd (Normalizer_update n x)) = norm_training n.
Proof.
  unfold Normalizer_update. destruct (norm_kind n); [reflexivity|].
  destruct (EmpiricalNormalization_update buffers (norm_training n) x); reflexivity.
Qed.

Lemma update_normalization_training obs :
  Keeps (fun w => norm_training (student_obs_normalizer (self w)))
        (update_normalization obs).
Proof.
  intro w. unfold update_normalization, bind, getself, gets. simpl.
  destruct (student_obs_normalization (self w)); [|reflexivity].
  pose proof (get_student_obs_pure obs w) as Hp.
  destruct (get_student_obs obs w) as [[x|e] w1]; simpl in Hp; subst w1; [|reflexivity].
  pose proof (Normalizer_update_training (student_obs_normalizer (self w)) x) as Ht.
  destruct (Normalizer_update (student_obs_normalizer (self w)) x) as [r n'].
  simpl in Ht. unfold setself, modify, lift. simpl. destruct r; simpl; exact Ht.
Qed.

Lemma exec_rollout_frame (c : Call) (w : World) :
  is_rollout_call c = true ->
  rollout_frame (exec c w) = rollout_frame w
  /\ norm_training (student_obs_normalizer (self (exec c w)))
     = norm_training (student_obs_normalizer (self w))
  /\ (student_obs_normalization (self w) = false ->
      student_obs_normalizer (self (exec c w)) = student_obs_normalizer (self w)).
Proof.
  destruct c; try discriminate; intros _; simpl.
  - split; [|split].
    + apply act_Keeps; reflexivity.
    + apply (act_Keeps (fun w => norm_training (student_obs_normalizer (self w))));
        reflexivity.
    + intros _. apply (act_Keeps (fun w => student_obs_normalizer (self w)));
        reflexivity.
  - split; [|split].
    + apply update_normalization_Keeps; reflexivity.
    + apply update_normalization_training.
    + intros H. rewrite update_normalization_disabled by exact H. reflexivity.
Qed.

Lemma run_rollout_frame (calls : list Call) (w : World) :
  forallb is_rollout_call calls = true ->
  rollout_frame (run calls w) = rollout_frame w
  /\ norm_training (student_obs_normalizer (self (run calls w)))
     = norm_training (student_obs_normalizer (self w))
  /\ (student_obs_normalization (self w) = false ->
      student_obs_normalizer (self (run calls w)) = student_obs_normalizer (self w)).
Proof.
  revert w. induction calls as [|c calls IH]; intros w H; simpl in *.
  - auto.
  - apply andb_prop in H. destruct H as [Hc Hcalls].
    destruct (exec_rollout_frame c w Hc) as (F1 & F2 & F3).
    destruct (IH (exec c w) Hcalls) as (G1 & G2 & G3).
    fold (run calls (exec c w)).
    split; [congruence | split; [congruence|]].
    intros Hoff. rewrite G3, F3; auto.
    assert (E : student_obs_normalization (self (exec c w))
                = student_obs_normalization (self w)).
    { unfold rollout_frame in F1. simpl in F1. congruence. }
    congruence.
Qed.

End Rollout.

(** ** Dictionaries and [torch.nn.Module.load_state_dict] *)

Lemma Dict_get_set {V} (d : Dict.t V) (k k' : string) (v : V) :
  Dict.get (Dict.set d k v) k' = if k =? k' then Some v else Dict.get d k'.
Proof.
  induction d as [|[k0 v0] d IH]; simpl.
  - reflexivity.
  - destruct (String.eqb_spec k0 k) as [->|Hne]; simpl.
    + destruct (k =? k'); reflexivity.
    + rewrite IH. destruct (String.eqb_spec k0 k') as [->|]; [|reflexivity].
      destruct (String.eqb_spec k k'); [congruence | reflexivity].
Qed.

Lemma Dict_get_In {V} (d : Dict.t V) (k : string) :
  In k (Dict.keys d) -> exists v, Dict.get d k = Some v.
Proof.
  induction d as [|[k0 v0] d IH]; simpl; [tauto|].
  intros [->|H].
  - rewrite String.eqb_refl. eauto.
  - destruct (k0 =? k); eauto.
Qed.

Lemma shape_eqb_eq (s1 s2 : list nat) : shape_eqb s1 s2 = true <-> s1 = s2.
Proof.
  unfold shape_eqb. destruct (list_eq_dec Nat.eq_dec s1 s2); split; congruence.
Qed.

Lemma shape_eqb_refl (sh : list nat) : shape_eqb sh sh = true.
Proof. apply shape_eqb_eq. reflexivity. Qed.

(** The conversion of an input reads the shape of the entry, not its
    value, and leaves an input of that shape as it is. *)
Lemma input_param_shape (p1 p2 input : Tensor) :
  shape p1 = shape p2 -> input_param p1 input = input_param p2 input.
Proof. intros H. unfold input_param, legacy_scalar, ndim. rewrite H. reflexivity. Qed.

Lemma input_param_same_shape (p input : Tensor) :
  shape input = shape p -> input_param p input = Ok input.
Proof.
  intros H. unfold input_param, legacy_scalar, ndim. rewrite H.
  destruct (shape p) as [|n [|m sh]]; reflexivity.
Qed.

Lemma load_entry_fst (prefix : string) (sd : Dict.t Tensor) (entry : string * Tensor) :
  fst (load_entry prefix sd entry) = fst entry.
Proof.
  unfold load_entry. destruct (Dict.get sd (prefix ++ fst entry)); [|reflexivity].
  destruct (input_param _ _); [|reflexivity].
  destruct (shape_eqb _ _); reflexivity.
Qed.

Lemma load_entry_shape (prefix : string) (sd : Dict.t Tensor) (entry : string * Tensor) :
  shape (snd (load_entry prefix sd entry)) = shape (snd entry).
Proof.
  unfold load_entry. destruct (Dict.get sd (prefix ++ fst entry)); [|reflexivity].
  destruct (input_param _ _); [|reflexivity].
  destruct (shape_eqb _ _) eqn:E; [|reflexivity].
  apply shape_eqb_eq. exact E.
Qed.

(** An entry that raises is left as it is. *)
Lemma load_entry_abort (prefix : string) (sd : Dict.t Tensor) (entry : string * Tensor)
      (e : Exception) :
  entry_abort prefix sd entry = Some e -> load_entry prefix sd entry = entry.
Proof.
  unfold entry_abort, load_entry.
  destruct (Dict.get sd (prefix ++ fst entry)); [|discriminate].
  destruct (input_param _ _); [discriminate | reflexivity].
Qed.

(** The only error of the visit is the [IndexError]. *)
Lemma entry_abort_IndexError (prefix : string) (sd : Dict.t Tensor)
      (entry : string * Tensor) (e : Exception) :
  entry_abort prefix sd entry = Some e -> e = IndexError.
Proof.
  unfold entry_abort, input_param, first_element.
  destruct (Dict.get sd (prefix ++ fst entry)) as [input|]; [|discriminate].
  destruct (legacy_scalar (snd entry) input); [|discriminate].
  destruct (shape input) as [|[|n] [|m sh]]; try discriminate.
  intros H. inversion H. reflexivity.
Qed.

Lemma load_abort_IndexError (prefix : string) (own sd : Dict.t Tensor) (e : Exception) :
  load_abort prefix own sd = Some e -> e = IndexError.
Proof.
  induction own as [|entry own IH]; simpl; [discriminate|].
  destruct (entry_abort prefix sd entry) as [e'|] eqn:E; [|exact IH].
  intros H. inversion H; subst. apply (entry_abort_IndexError _ _ _ _ E).
Qed.

(** Loading writes values only: names and shapes stay. *)
Lemma names_and_shapes_load (prefix : string) (own sd : Dict.t Tensor) :
  names_and_shapes (load_from_state_dict prefix own sd) = names_and_shapes own.
Proof.
  unfold names_and_shapes. induction own as [|entry own IH]; simpl; [reflexivity|].
  destruct (entry_abort prefix sd entry); [reflexivity|].
  simpl. rewrite load_entry_fst, load_entry_shape, IH. reflexivity.
Qed.

Lemma keys_names_and_shapes (d : Dict.t Tensor) :
  Dict.keys d = map fst (names_and_shapes d).
Proof. unfold Dict.keys, names_and_shapes. rewrite map_map. reflexivity. Qed.

Lemma load_from_state_dict_keys prefix own sd :
  Dict.keys (load_from_state_dict prefix own sd) = Dict.keys own.
Proof. rewrite !keys_names_and_shapes, names_and_shapes_load. reflexivity. Qed.

(** The visit of two lists of entries, one after the other *)
Lemma load_from_app (prefix : string) (l1 l2 sd : Dict.t Tensor) :
  load_from_state_dict prefix (l1 ++ l2)%list sd
  = (load_from_state_dict prefix l1 sd
     ++ match load_abort prefix l1 sd with
        | Some _ => l2
        | None => load_from_state_dict prefix l2 sd
        end)%list.
Proof.
  induction l1 as [|entry l1 IH]; simpl; [reflexivity|].
  destruct (entry_abort prefix sd entry); [reflexivity|].
  simpl. rewrite IH. reflexivity.
Qed.

Lemma load_abort_app (prefix : string) (l1 l2 sd : Dict.t Tensor) :
  load_abort prefix (l1 ++ l2)%list sd
  = match load_abort prefix l1 sd with
    | Some e => Some e
    | None => load_abort prefix l2 sd
    end.
Proof.
  induction l1 as [|entry l1 IH]; simpl; [reflexivity|].
  destruct (entry_abort prefix sd entry); [reflexivity | exact IH].
Qed.

(** A child's entries under its prefix are the entries of the flat view. *)
Lemma prefixed_entry (prefix : string) (sd : Dict.t Tensor) (entry : string * Tensor) :
  entry_abort EmptyString sd (prefix ++ fst entry, snd entry)
  = entry_abort prefix sd entry
  /\ load_entry EmptyString sd (prefix ++ fst entry, snd entry)
     = (prefix ++ fst (load_entry prefix sd entry), snd (load_entry prefix sd entry)).
Proof.
  unfold entry_abort, load_entry. cbn [fst snd append].
  destruct (Dict.get sd (prefix ++ fst entry)); [|split; reflexivity].
  destruct (input_param _ _); [|split; reflexivity].
  destruct (shape_eqb _ _); split; reflexivity.
Qed.

Lemma prefixed_load prefix own sd :
  prefixed prefix (load_from_state_dict prefix own sd)
  = load_from_state_dict EmptyString (prefixed prefix own) sd.
Proof.
  unfold prefixed. induction own as [|entry own IH]; simpl; [reflexivity|].
  destruct (prefixed_entry prefix sd entry) as [A L]. rewrite A, L.
  destruct (entry_abort prefix sd entry); [reflexivity|].
  simpl. rewrite IH. reflexivity.
Qed.

Lemma prefixed_abort prefix own sd :
  load_abort EmptyString (prefixed prefix own) sd = load_abort prefix own sd.
Proof.
  unfold prefixed. induction own as [|entry own IH]; simpl; [reflexivity|].
  rewrite (proj1 (prefixed_entry prefix sd entry)).
  destruct (entry_abort prefix sd entry); [reflexivity | exact IH].
Qed.

(** The verdicts of a load depend on the names and shapes of the module
    only. *)
Lemma load_abort_architecture (prefix : string) (own1 own2 sd : Dict.t Tensor) :
  names_and_shapes own1 = names_and_shapes own2 ->
  load_abort prefix own1 sd = load_abort prefix own2 sd.
Proof.
  unfold names_and_shapes. revert own2.
  induction own1 as [|[k1 v1] own1 IH]; intros [|[k2 v2] own2] H; try discriminate;
    [reflexivity|].
  simpl in H. inversion H as [[H1 H2 H3]]. subst k2. simpl.
  unfold entry_abort. cbn [fst snd].
  destruct (Dict.get sd (prefix ++ k1)) as [input|]; [|apply IH; exact H3].
  rewrite (input_param_shape v1 v2) by exact H2.
  destruct (input_param v2 input); [apply IH; exact H3 | reflexivity].
Qed.

Lemma Dict_mem_keys {V} (d : Dict.t V) (k : string) :
  Dict.mem d k = existsb (fun k' => k' =? k) (Dict.keys d).
Proof.
  unfold Dict.mem. induction d as [|[k0 v0] d IH]; simpl; [reflexivity|].
  destruct (k0 =? k); [reflexivity | exact IH].
Qed.

Lemma mismatched_names_and_shapes (own sd : Dict.t Tensor) :
  mismatched_keys own sd
  = map fst
      (filter (fun ns => match Dict.get sd (fst ns) with
                         | Some input =>
                             match input_param (mkTensor (snd ns) []) input with
                             | Ok input' => negb (shape_eqb (shape input') (snd ns))
                             | Err _ => false
                             end
                         | None => false
                         end) (names_and_shapes own)).
Proof.
  unfold mismatched_keys, names_and_shapes.
  induction own as [|[k v] own IH]; simpl; [reflexivity|].
  destruct (Dict.get sd k) as [input|]; [|exact IH].
  rewrite (input_param_shape (mkTensor (shape v) []) v) by reflexivity.
  destruct (input_param v input) as [input'|]; [|exact IH].
  destruct (negb (shape_eqb (shape input') (shape v))); simpl; [f_equal|]; exact IH.
Qed.

Lemma load_error_architecture (own1 own2 sd : Dict.t Tensor) (strict : bool) :
  names_and_shapes own1 = names_and_shapes own2 ->
  load_error own1 sd strict = load_error own2 sd strict.
Proof.
  intros H. unfold load_error.
  assert (K : Dict.keys own1 = Dict.keys own2)
    by (rewrite !keys_names_and_shapes, H; reflexivity).
  assert (M : missing_keys own1 sd = missing_keys own2 sd)
    by (unfold missing_keys; rewrite K; reflexivity).
  assert (U : unexpected_keys own1 sd = unexpected_keys own2 sd).
  { unfold unexpected_keys. apply filter_ext. intros k.
    rewrite !Dict_mem_keys, K. reflexivity. }
  assert (X : mismatched_keys own1 sd = mismatched_keys own2 sd)
    by (rewrite !mismatched_names_and_shapes, H; reflexivity).
  rewrite M, U, X. reflexivity.
Qed.

Lemma load_outcome_architecture (own1 own2 sd : Dict.t Tensor) (strict : bool) :
  names_and_shapes own1 = names_and_shapes own2 ->
  load_outcome own1 sd strict = load_outcome own2 sd strict.
Proof.
  intros H. unfold load_outcome.
  rewrite (load_abort_architecture EmptyString own1 own2 sd H),
          (load_error_architecture own1 own2 sd strict H).
  reflexivity.
Qed.

Lemma load_abort_loaded (prefix prefix' : string) (own sd' sd : Dict.t Tensor) :
  load_abort prefix (load_from_state_dict prefix' own sd') sd = load_abort prefix own sd.
Proof. apply load_abort_architecture. apply names_and_shapes_load. Qed.

Lemma load_outcome_loaded (prefix : string) (own sd' sd : Dict.t Tensor) (strict : bool) :
  load_outcome (load_from_state_dict prefix own sd') sd strict = load_outcome own sd strict.
Proof. apply load_outcome_architecture. apply names_and_shapes_load. Qed.

(** Visiting the entries again copies the same values. *)
Lemma load_entry_idem (prefix : string) (sd : Dict.t Tensor) (e : string * Tensor) :
  load_entry prefix sd (load_entry prefix sd e) = load_entry prefix sd e.
Proof.
  unfold load_entry at 2 3.
  destruct (Dict.get sd (prefix ++ fst e)) as [input|] eqn:G.
  - destruct (input_param (snd e) input) as [input'|err] eqn:I.
    + destruct (shape_eqb (shape input') (shape (snd e))) eqn:S.
      * unfold load_entry. cbn [fst snd]. rewrite G.
        apply shape_eqb_eq in S.
        rewrite (input_param_shape input' (snd e) input S), I, shape_eqb_refl.
        reflexivity.
      * unfold load_entry. rewrite G, I, S. reflexivity.
    + unfold load_entry. rewrite G, I. reflexivity.
  - unfold load_entry. rewrite G. reflexivity.
Qed.

Lemma entry_abort_loaded (prefix : string) (sd : Dict.t Tensor) (e : string * Tensor) :
  entry_abort prefix sd (load_entry prefix sd e) = entry_abort prefix sd e.
Proof.
  unfold entry_abort. rewrite load_entry_fst.
  destruct (Dict.get sd (prefix ++ fst e)) as [input|]; [|reflexivity].
  rewrite (input_param_shape (snd (load_entry prefix sd e)) (snd e) input)
    by apply load_entry_shape.
  reflexivity.
Qed.

Lemma load_from_idem (prefix : string) (own sd : Dict.t Tensor) :
  load_from_state_dict prefix (load_from_state_dict prefix own sd) sd
  = load_from_state_dict prefix own sd.
Proof.
  induction own as [|entry own IH]; simpl; [reflexivity|].
  destruct (entry_abort prefix sd entry) as [e|] eqn:A; simpl.
  - rewrite A. reflexivity.
  - rewrite entry_abort_loaded, A, load_entry_idem, IH. reflexivity.
Qed.

Lemma load_from_empty (prefix : string) (own : Dict.t Tensor) :
  load_from_state_dict prefix own [] = own.
Proof.
  induction own as [|[k v] own IH]; simpl; [reflexivity|].
  rewrite IH. reflexivity.
Qed.

Lemma load_abort_empty (prefix : string) (own : Dict.t Tensor) :
  load_abort prefix own [] = None.
Proof. induction own as [|[k v] own IH]; simpl; [reflexivity | exact IH]. Qed.

Lemma mismatched_keys_cons (k0 : string) (v0 : Tensor) (own sd : Dict.t Tensor) :
  mismatched_keys ((k0, v0) :: own) sd = [] ->
  mismatched_keys own sd = []
  /\ forall input input',
       Dict.get sd k0 = Some input -> input_param v0 input = Ok input' ->
       shape input' = shape v0.
Proof.
  unfold mismatched_keys. cbn [filter fst snd].
  destruct (Dict.get sd k0) as [input|];
    [|intros H; split; [exact H | intros ? ? ?; discriminate]].
  destruct (input_param v0 input) as [input'|] eqn:I.
  - destruct (shape_eqb (shape input') (shape v0)) eqn:S; cbn; [|discriminate].
    intros H. split; [exact H|]. intros i i' Hi Hi'.
    inversion Hi; subst i. rewrite I in Hi'. inversion Hi'; subst i'.
    apply shape_eqb_eq. exact S.
  - intros H. split; [exact H|]. intros i i' Hi Hi'.
    inversion Hi; subst i. rewrite I in Hi'. discriminate.
Qed.

Lemma missing_keys_cons (k0 : string) (v0 : Tensor) (own sd : Dict.t Tensor) :
  missing_keys ((k0, v0) :: own) sd = [] ->
  missing_keys own sd = [] /\ Dict.get sd k0 <> None.
Proof.
  unfold missing_keys, Dict.mem. cbn [Dict.keys map filter fst].
  destruct (Dict.get sd k0); cbn; [|discriminate].
  intros H. split; [exact H | discriminate].
Qed.

(** After a visit that was not cut short and met no other shape, every own
    entry that the mapping names holds its input, and every other entry its
    old value. *)
Lemma load_restores (own sd : Dict.t Tensor) (strict : bool) :
  load_abort EmptyString own sd = None ->
  mismatched_keys own sd = [] ->
  (strict = true -> missing_keys own sd = []) ->
  restored own (load_from_state_dict EmptyString own sd) sd strict.
Proof.
  unfold restored.
  induction own as [|[k0 v0] own IH]; intros Hab Hmis Hmiss k old Hget;
    [discriminate|].
  cbn [load_abort load_from_state_dict] in *.
  destruct (entry_abort EmptyString sd (k0, v0)) as [e|] eqn:A; [discriminate|].
  apply mismatched_keys_cons in Hmis. destruct Hmis as [Hmis Hhead].
  cbn [Dict.get] in Hget.
  destruct (String.eqb_spec k0 k) as [->|Hne].
  - inversion Hget; subst v0. clear Hget.
    unfold entry_abort in A. unfold load_entry. cbn [fst snd append] in *.
    destruct (Dict.get sd k) as [input|] eqn:E.
    + destruct (input_param old input) as [input'|err] eqn:I; [|discriminate].
      pose proof (Hhead input input' eq_refl I) as S.
      exists input'. rewrite S, shape_eqb_refl. cbn. rewrite String.eqb_refl. auto.
    + cbn. rewrite String.eqb_refl. split; [|reflexivity].
      destruct strict; [|reflexivity].
      destruct (missing_keys_cons _ _ _ _ (Hmiss eq_refl)) as [_ N]. congruence.
  - assert (F : Dict.get (load_entry EmptyString sd (k0, v0)
                          :: load_from_state_dict EmptyString own sd) k
                = Dict.get (load_from_state_dict EmptyString own sd) k).
    { pose proof (load_entry_fst EmptyString sd (k0, v0)) as Ff.
      destruct (load_entry EmptyString sd (k0, v0)) as [k' v']. simpl in Ff. subst k'.
      simpl. destruct (String.eqb_spec k0 k); [contradiction | reflexivity]. }
    rewrite F. apply IH; try assumption.
    intros Hs. apply (missing_keys_cons _ _ _ _ (Hmiss Hs)).
Qed.

Lemma load_error_None (own sd : Dict.t Tensor) (strict : bool) :
  load_error own sd strict = None ->
  mismatched_keys own sd = []
  /\ (strict = true -> missing_keys own sd = [] /\ unexpected_keys own sd = []).
Proof.
  unfold load_error. destruct strict.
  - destruct (missing_keys own sd); [|discriminate].
    destruct (unexpected_keys own sd); [|discriminate].
    destruct (mismatched_keys own sd); [auto|discriminate].
  - destruct (mismatched_keys own sd); [|discriminate].
    intros _. split; [reflexivity | discriminate].
Qed.

Lemma load_outcome_None (own sd : Dict.t Tensor) (strict : bool) :
  load_outcome own sd strict = None ->
  load_abort EmptyString own sd = None /\ load_error own sd strict = None.
Proof.
  unfold load_outcome. destruct (load_abort EmptyString own sd); [discriminate | auto].
Qed.

Lemma filter_nil_iff {A} (f : A -> bool) (l : list A) :
  filter f l = [] <-> forall x, In x l -> f x = false.
Proof.
  induction l as [|a l IH]; simpl.
  - split; [intros _ x [] | reflexivity].
  - destruct (f a) eqn:E.
    + split; [discriminate|]. intros H. rewrite (H a) in E by (left; reflexivity).
      discriminate.
    + rewrite IH. split.
      * intros H x [<-|Hx]; [exact E | apply H; exact Hx].
      * intros H x Hx. apply H. right. exact Hx.
Qed.

(** When [torch] accepts a load: every input that the mapping holds for an
    own entry has, after the conversion, the shape of the entry; and under
    [strict] the mapping and the module have the same names. *)
Lemma load_accepted_iff (own sd : Dict.t Tensor) (strict : bool) :
  load_outcome own sd strict = None
  <-> (forall k v input,
         In (k, v) own -> Dict.get sd k = Some input ->
         exists input', input_param v input = Ok input' /\ shape input' = shape v)
      /\ (strict = true ->
          (forall k, In k (Dict.keys own) -> Dict.mem sd k = true)
          /\ (forall k, In k (Dict.keys sd) -> Dict.mem own k = true)).
Proof.
  assert (V : load_abort EmptyString own sd = None /\ mismatched_keys own sd = []
              <-> forall k v input,
                    In (k, v) own -> Dict.get sd k = Some input ->
                    exists input', input_param v input = Ok input'
                                   /\ shape input' = shape v).
  { unfold mismatched_keys. induction own as [|[k0 v0] own IH]; simpl.
    - split; [intros _ k v input [] | auto].
    - unfold entry_abort. cbn [fst snd append].
      destruct (Dict.get sd k0) as [input0|] eqn:G.
      + destruct (input_param v0 input0) as [input0'|err] eqn:I.
        * destruct (shape_eqb (shape input0') (shape v0)) eqn:S; cbn.
          -- rewrite IH. split.
             ++ intros H k v input [E|Hin] Hg.
                ** inversion E; subst. rewrite G in Hg. inversion Hg; subst.
                   exists input0'. apply shape_eqb_eq in S. auto.
                ** apply (H k v input Hin Hg).
             ++ intros H k v input Hin Hg. apply (H k v input); [right|]; assumption.
          -- split; [intros [_ H]; discriminate|].
             intros H. destruct (H k0 v0 input0 (or_introl eq_refl) G) as (x & Hx & Sx).
             rewrite I in Hx. inversion Hx; subst x.
             apply shape_eqb_eq in Sx. congruence.
        * split; [intros [H _]; discriminate|].
          intros H. destruct (H k0 v0 input0 (or_introl eq_refl) G) as (x & Hx & _).
          congruence.
      + rewrite IH. split.
        * intros H k v input [E|Hin] Hg.
          -- inversion E; subst. congruence.
          -- apply (H k v input Hin Hg).
        * intros H k v input Hin Hg. apply (H k v input); [right|]; assumption. }
  assert (N : forall (d : Dict.t Tensor) (l : list string),
            filter (fun k => negb (Dict.mem d k)) l = []
            <-> forall k, In k l -> Dict.mem d k = true).
  { intros d l. rewrite filter_nil_iff. split; intros H k Hk; specialize (H k Hk);
      destruct (Dict.mem d k); simpl in *; congruence. }
  rewrite <- V. unfold load_outcome, load_error, missing_keys, unexpected_keys.
  rewrite <- !N.
  destruct (load_abort EmptyString own sd) as [e|].
  { split; [discriminate | intros [[H _] _]; discriminate]. }
  destruct strict.
  - destruct (filter (fun k => negb (Dict.mem sd k)) (Dict.keys own)).
    + destruct (filter (fun k => negb (Dict.mem own k)) (Dict.keys sd)).
      * destruct (mismatched_keys own sd).
        -- tauto.
        -- split; [discriminate | intros [[_ H] _]; discriminate].
      * split; [discriminate | intros [_ H]; destruct (H eq_refl); discriminate].
    + split; [discriminate | intros [_ H]; destruct (H eq_refl); discriminate].
  - destruct (mismatched_keys own sd).
    + split; [intros _; split; [auto | discriminate] | reflexivity].
    + split; [discriminate | intros [[_ H] _]; discriminate].
Qed.

(** An accepted load restores the module from the mapping. *)
Lemma load_accepted_restores (own sd : Dict.t Tensor) (strict : bool) :
  load_outcome own sd strict = None ->
  restored own (load_from_state_dict EmptyString own sd) sd strict.
Proof.
  intros H. apply load_outcome_None in H. destruct H as [A E].
  apply load_error_None in E. destruct E as [X S].
  apply load_restores; [exact A | exact X | intros Hs; apply (S Hs)].
Qed.


(** ** The renaming loop of the prior-policy branch *)

Lemma replace_from_absent (old new s : string) :
  Str.contains old s = false -> Str.replace_from old new 0 s = s.
Proof.
  induction s as [|c s IH]; intros H; [reflexivity|].
  cbn [Str.contains] in H. cbn [Str.replace_from].
  destruct (String.prefix old (String c s)); [discriminate|].
  rewrite IH by exact H. reflexivity.
Qed.

Lemma replace_from_skip (old new x s : string) :
  Str.replace_from old new (String.length x) (x ++ s) = Str.replace_from old new 0 s.
Proof.
  induction x as [|c x IH]; [reflexivity|]. simpl. exact IH.
Qed.

(** Stripping a leading [old] when no other occurrence follows *)
Lemma replace_prefix (c0 : Ascii.ascii) (old' new rest : string) :
  Str.contains (String c0 old') rest = false ->
  Str.replace (String c0 old') new (String c0 old' ++ rest) = new ++ rest.
Proof.
  intros H. unfold Str.replace.
  change (String c0 old' ++ rest) with (String c0 (old' ++ rest)).
  cbn [Str.replace_from].
  change (String c0 (old' ++ rest)) with (String c0 old' ++ rest).
  rewrite prefix_app.
  replace (String.length (String c0 old') - 1) with (String.length old')
    by (simpl; lia).
  rewrite replace_from_skip, replace_from_absent by exact H. reflexivity.
Qed.

Lemma remap_get_from (sd : Dict.t Tensor) (acc : Dict.t Tensor * Dict.t Tensor) (k : string) :
  Dict.get (fst (fold_left remap_item sd acc)) k
  = last_value (renamed_to "actor." k) sd (Dict.get (fst acc) k)
  /\ Dict.get (snd (fold_left remap_item sd acc)) k
     = last_value (renamed_to "actor_obs_normalizer." k) sd (Dict.get (snd acc) k).
Proof.
  revert acc. induction sd as [|[key value] sd IH]; intros [t n]; [split; reflexivity|].
  cbn [fold_left last_value]. fold (last_value (renamed_to "actor." k) sd).
  fold (last_value (renamed_to "actor_obs_normalizer." k) sd).
  destruct (IH (remap_item (t, n) (key, value))) as [IH1 IH2].
  rewrite IH1, IH2. unfold remap_item, renamed_to. cbn [fst snd].
  split.
  - destruct (Str.contains "actor." key); [|reflexivity].
    rewrite Dict_get_set. reflexivity.
  - destruct (Str.contains "actor_obs_normalizer." key); [|reflexivity].
    rewrite Dict_get_set. reflexivity.
Qed.

(** What the two renamed dictionaries hold under a name *)
Lemma remap_get (sd : Dict.t Tensor) (k : string) :
  Dict.get (fst (remap sd)) k = last_value (renamed_to "actor." k) sd None
  /\ Dict.get (snd (remap sd)) k
     = last_value (renamed_to "actor_obs_normalizer." k) sd None.
Proof. exact (remap_get_from sd ([], []) k). Qed.

Lemma last_value_none (p : string -> bool) (sd : Dict.t Tensor) (init : option Tensor) :
  (forall key, In key (Dict.keys sd) -> p key = false) ->
  last_value p sd init = init.
Proof.
  revert init. induction sd as [|[key value] sd IH]; intros init H; [reflexivity|].
  cbn [last_value fold_left fst]. rewrite (H key) by (left; reflexivity).
  apply IH. intros k Hk. apply H. right. exact Hk.
Qed.

Lemma last_value_unique (p : string -> bool) (sd : Dict.t Tensor) (k0 : string)
      (v : Tensor) (init : option Tensor) :
  NoDup (Dict.keys sd) -> In (k0, v) sd -> p k0 = true ->
  (forall key, In key (Dict.keys sd) -> p key = true -> key = k0) ->
  last_value p sd init = Some v.
Proof.
  revert init. induction sd as [|[key value] sd IH]; intros init Hnd Hin Hp Huniq;
    [destruct Hin|].
  cbn [last_value fold_left fst snd]. fold (last_value p sd).
  simpl in Hnd. inversion Hnd as [|? ? Hnotin Hnd']; subst.
  destruct Hin as [E|Hin].
  - inversion E; subst. rewrite Hp. apply last_value_none.
    intros k Hk. destruct (p k) eqn:Pk; [|reflexivity].
    exfalso. apply Hnotin. rewrite <- (Huniq k); [exact Hk | right; exact Hk | exact Pk].
  - apply IH; try assumption.
    intros k Hk. apply Huniq. right. exact Hk.
Qed.

(** On a checkpoint whose keys with the marker [old] all begin with it and
    hold it once, the renamed dictionary has, under [rest], the value that
    the checkpoint has under [old + rest]. *)
Lemma last_value_prefix (c0 : Ascii.ascii) (old' rest : string) (sd : Dict.t Tensor)
      (v : Tensor) :
  let old := String c0 old' in
  NoDup (Dict.keys sd) ->
  (forall key, In key (Dict.keys sd) -> Str.contains old key = true ->
     exists r, key = old ++ r /\ Str.contains old r = false) ->
  Str.contains old rest = false ->
  In (old ++ rest, v) sd ->
  last_value (renamed_to old rest) sd None = Some v.
Proof.
  intros old Hnd Hshape Hrest Hin.
  assert (Hc : Str.contains old (old ++ rest) = true).
  { apply contains_spec. exists EmptyString. exists rest. reflexivity. }
  apply last_value_unique with (k0 := (old ++ rest)%string); try assumption.
  - unfold renamed_to. rewrite Hc. unfold old.
    rewrite replace_prefix by exact Hrest. simpl. apply String.eqb_refl.
  - intros key Hk Hp. unfold renamed_to in Hp.
    apply andb_prop in Hp. destruct Hp as [Hck Heq].
    destruct (Hshape key Hk Hck) as (r & -> & Hr).
    unfold old in Heq. rewrite replace_prefix in Heq by exact Hr.
    simpl in Heq. apply String.eqb_eq in Heq. subst r. reflexivity.
Qed.

(** ** Routing: the two loops and the concatenation *)

Lemma collect_obs_missing (obs : Dict.t Tensor) (groups : list string) (g : string) :
  first_missing obs groups = Some g ->
  collect_obs obs groups = Err (KeyError g).
Proof.
  unfold first_missing, Dict.mem.
  induction groups as [|g0 groups IH]; simpl; [discriminate|].
  unfold getitem. destruct (Dict.get obs g0) eqn:E; simpl.
  - intros H. rewrite (IH H). reflexivity.
  - intros H. inversion H; subst. reflexivity.
Qed.

Lemma collect_obs_present (obs : Dict.t Tensor) (groups : list string) :
  first_missing obs groups = None ->
  exists ts, collect_obs obs groups = Ok ts
             /\ map Some ts = map (Dict.get obs) groups.
Proof.
  unfold first_missing, Dict.mem.
  induction groups as [|g0 groups IH]; simpl.
  - exists []. auto.
  - unfold getitem. destruct (Dict.get obs g0) eqn:E; simpl; [|discriminate].
    intros H. destruct (IH H) as (ts & -> & Hts).
    exists (t :: ts). simpl. rewrite Hts. auto.
Qed.

(** What the loop of [__init__] has checked and summed when it ends *)
Lemma count_obs_Ok (obs : Dict.t Tensor) (groups : list string) (num n : nat) :
  count_obs obs groups num = Ok n ->
  exists ts, map Some ts = map (Dict.get obs) groups
             /\ Forall (fun t => ndim t = 2) ts
             /\ n = num + list_sum (map last_dim ts).
Proof.
  revert num. induction groups as [|g0 groups IH]; simpl; intros num H.
  - inversion H; subst. exists []. simpl. auto.
  - unfold getitem in H. destruct (Dict.get obs g0) as [t|] eqn:E; [|discriminate].
    destruct (Nat.eqb_spec (ndim t) 2) as [Hd|]; [|discriminate].
    destruct (IH _ H) as (ts & Hts & Hall & ->).
    exists (t :: ts). simpl. rewrite Hts. repeat split; [constructor; assumption | lia].
Qed.

(** The first group that is absent or not two-dimensional stops [__init__]. *)
Lemma count_obs_Err (obs : Dict.t Tensor) (groups : list string) (num : nat) :
  existsb (fun g => match Dict.get obs g with
                    | Some t => negb (ndim t =? 2)%nat
                    | None => true
                    end) groups = true ->
  exists e, count_obs obs groups num = Err e.
Proof.
  revert num. induction groups as [|g0 groups IH]; simpl; intros num H; [discriminate|].
  unfold getitem. destruct (Dict.get obs g0) as [t|]; [|eauto].
  destruct (ndim t =? 2)%nat; simpl in H; [apply IH; exact H | eauto].
Qed.

(** Two-dimensional pieces of one batch size concatenate to that batch size
    and the sum of the widths. *)
Lemma cat_2d (b : nat) (ts : list Tensor) :
  ts <> [] ->
  Forall (fun t => shape t = [b; last_dim t]) ts ->
  exists out, cat ts = Ok out /\ shape out = [b; list_sum (map last_dim ts)].
Proof.
  intros Hne Hall.
  assert (Hf : filter (fun t => negb (legacy_empty t)) ts = ts).
  { clear -Hall. induction Hall as [|t ts Ht _ IH]; simpl; [reflexivity|].
    unfold legacy_empty at 1. rewrite Ht.
    destruct (shape_eqb [b; last_dim t] [0]) eqn:E;
      [apply shape_eqb_eq in E; discriminate|].
    simpl. rewrite IH. reflexivity. }
  assert (H0 : existsb (fun t => (ndim t =? 0)%nat) ts = false).
  { clear -Hall. induction Hall as [|t ts Ht _ IH]; simpl; [reflexivity|].
    unfold ndim at 1. rewrite Ht. simpl. exact IH. }
  assert (Hl : forallb (fun t => shape_eqb (lead_dims t) [b]) ts = true).
  { clear -Hall. induction Hall as [|t ts Ht _ IH]; simpl; [reflexivity|].
    unfold lead_dims at 1. rewrite Ht. simpl.
    rewrite (proj2 (shape_eqb_eq [b] [b]) eq_refl). exact IH. }
  destruct ts as [|t0 ts0]; [congruence|].
  assert (Hl0 : lead_dims t0 = [b]).
  { inversion Hall as [|? ? Ht _]; subst. unfold lead_dims. rewrite Ht. reflexivity. }
  unfold cat. rewrite Hf, H0, Hl0, Hl.
  eexists. split; reflexivity.
Qed.

Lemma route_width (obs0 obs : Dict.t Tensor) (b n : nat) (groups : list string) :
  count_obs obs0 groups 0 = Ok n ->
  same_widths obs0 obs b groups = true ->
  exists ts, collect_obs obs groups = Ok ts
             /\ length ts = length groups
             /\ Forall (fun t => shape t = [b; last_dim t]) ts
             /\ list_sum (map last_dim ts) = n.
Proof.
  intros Hc. apply count_obs_Ok in Hc. destruct Hc as (ts0 & Hts0 & _ & ->).
  simpl. revert ts0 Hts0. unfold same_widths.
  induction groups as [|g groups IH]; simpl; intros ts0 Hts0 H.
  - destruct ts0; [|discriminate]. exists []. simpl. auto.
  - destruct ts0 as [|t0 ts0]; [discriminate|]. simpl in Hts0.
    inversion Hts0 as [[E1 E2]]. rewrite <- E1 in H.
    unfold getitem. destruct (Dict.get obs g) as [t|]; [|discriminate].
    apply andb_prop in H. destruct H as [Hs H]. apply shape_eqb_eq in Hs.
    destruct (IH ts0 E2 H) as (ts & -> & Hlen & Hall & Hsum).
    exists (t :: ts). simpl.
    assert (Hl : last_dim t = last_dim t0) by (unfold last_dim at 1; rewrite Hs; reflexivity).
    repeat split.
    + congruence.
    + constructor; [rewrite Hl; exact Hs | exact Hall].
    + rewrite Hl, Hsum. reflexivity.
Qed.

(** ** The two noise parameterizations *)

(** [expand_as] raises nothing but the [RuntimeError] of [torch]. *)
Lemma expand_as_error (p other : Tensor) (e : Exception) :
  expand_as p other = Err e -> exists msg, e = RuntimeError msg.
Proof.
  unfold expand_as.
  destruct (shape p) as [|a [|a' sh]]; destruct (shape other);
    try (intros H; inversion H; eauto; fail).
  destruct (a =? last_dim other)%nat; [discriminate|].
  destruct (a =? 1)%nat; [discriminate|].
  intros H; inversion H; eauto.
Qed.

Lemma exp_log (p : Tensor) :
  Forall (fun x => (0 < x)%R) (data p) -> exp (log p) = p.
Proof.
  destruct p as [sh d]. unfold exp, log. simpl. intros H. f_equal.
  induction H as [|x d Hx _ IH]; simpl; [reflexivity|].
  rewrite exp_ln by exact Hx. rewrite IH. reflexivity.
Qed.

(** ** The routing methods as functions of the group lists *)

Section Routing.

Context {collab : Collaborators}.

Lemma get_student_obs_eq (obs : Dict.t Tensor) (w : World) :
  get_student_obs obs w = (routed (obs_groups (self w)) "policy" obs, w).
Proof.
  unfold get_student_obs, routed, bind, getself, gets, lift. simpl.
  destruct (getitem (obs_groups (self w)) "policy"); [|reflexivity].
  destruct (collect_obs obs a); reflexivity.
Qed.

Lemma get_teacher_obs_eq (obs : Dict.t Tensor) (w : World) :
  get_teacher_obs obs w = (routed (obs_groups (self w)) "teacher" obs, w).
Proof.
  unfold get_teacher_obs, routed, bind, getself, gets, lift. simpl.
  destruct (getitem (obs_groups (self w)) "teacher"); [|reflexivity].
  destruct (collect_obs obs a); reflexivity.
Qed.

Lemma act_inference_eq (obs : Dict.t Tensor) (w : World) :
  act_inference obs w
  = (match routed (obs_groups (self w)) "policy" obs with
     | Ok x =>
         match Normalizer_forward (student_obs_normalizer (self w)) x with
         | Ok y => MLP_forward (student (self w)) y
         | Err e => Err e
         end
     | Err e => Err e
     end, w).
Proof.
  unfold act_inference, bind. rewrite get_student_obs_eq.
  destruct (routed (obs_groups (self w)) "policy" obs); [|reflexivity].
  unfold getself, gets, lift. simpl.
  destruct (Normalizer_forward (student_obs_normalizer (self w)) a); reflexivity.
Qed.

Lemma evaluate_eq (obs : Dict.t Tensor) (w : World) :
  evaluate obs w
  = (match routed (obs_groups (self w)) "teacher" obs with
     | Ok x =>
         match Normalizer_forward (teacher_obs_normalizer (self w)) x with
         | Ok y => MLP_forward (teacher (self w)) y
         | Err e => Err e
         end
     | Err e => Err e
     end, w).
Proof.
  unfold evaluate, bind. rewrite get_teacher_obs_eq.
  destruct (routed (obs_groups (self w)) "teacher" obs); [|reflexivity].
  unfold getself, gets, lift. simpl.
  destruct (Normalizer_forward (teacher_obs_normalizer (self w)) a); reflexivity.
Qed.

End Routing.

(** ** Width and failure of a routed role *)

Lemma count_obs_sum (obs0 : Dict.t Tensor) (names : list string) (n : nat) :
  count_obs obs0 names 0 = Ok n ->
  n = list_sum (map (group_width obs0) names).
Proof.
  intros H. apply count_obs_Ok in H. destruct H as (ts & Hts & _ & ->). simpl.
  revert ts Hts. induction names as [|g names IH]; intros [|t ts] Hts;
    try discriminate; [reflexivity|].
  simpl in *. inversion Hts as [[E1 E2]].
  unfold group_width at 1. rewrite <- E1. rewrite (IH ts E2). reflexivity.
Qed.

Lemma routed_width (groups : Dict.t (list string)) (role : string)
      (names : list string) (obs0 obs : Dict.t Tensor) (b n : nat) :
  Dict.get groups role = Some names ->
  count_obs obs0 names 0 = Ok n ->
  same_widths obs0 obs b names = true ->
  (names <> [] -> exists out, routed groups role obs = Ok out /\ shape out = [b; n])
  /\ (forall out, routed groups role obs = Ok out -> shape out = [b; n]).
Proof.
  intros Hg Hc Hs. unfold routed, getitem. rewrite Hg.
  destruct (route_width obs0 obs b n names Hc Hs) as (ts & -> & Hlen & Hall & Hsum).
  destruct names as [|g names].
  - destruct ts; [|discriminate]. split; [congruence|]. simpl. discriminate.
  - assert (Hne : ts <> []) by (destruct ts; [discriminate | congruence]).
    destruct (cat_2d b ts Hne Hall) as (out & Hout & Hshape).
    rewrite Hsum in Hshape. rewrite Hout. split.
    + intros _. eauto.
    + intros out' E. inversion E; subst. exact Hshape.
Qed.

Lemma routed_missing (groups : Dict.t (list string)) (role : string)
      (names : list string) (obs : Dict.t Tensor) (g : string) :
  Dict.get groups role = Some names ->
  first_missing obs names = Some g ->
  routed groups role obs = Err (KeyError g).
Proof.
  intros Hg Hm. unfold routed, getitem. rewrite Hg.
  rewrite (collect_obs_missing obs names g Hm). reflexivity.
Qed.

Lemma routed_present (groups : Dict.t (list string)) (role : string)
      (names : list string) (obs : Dict.t Tensor) :
  Dict.get groups role = Some names ->
  first_missing obs names = None ->
  exists ts, map Some ts = map (Dict.get obs) names /\ routed groups role obs = cat ts.
Proof.
  intros Hg Hm. unfold routed, getitem. rewrite Hg.
  destruct (collect_obs_present obs names Hm) as (ts & -> & Hts). eauto.
Qed.

(** A group that is absent or not two-dimensional is rejected by [__init__]. *)
Lemma __init___rejects {collab : Collaborators}
      obs0 groups policy teacher_groups num_actions sn tn sh th activation c ty kwargs g :
  Dict.get groups "policy" = Some policy ->
  Dict.get groups "teacher" = Some teacher_groups ->
  existsb (not_2d obs0) (policy ++ teacher_groups) = true ->
  exists e,
    __init__ obs0 groups num_actions sn tn sh th activation c ty kwargs g = (Err e, g).
Proof.
  intros Hp Ht Hbad. unfold __init__, bind, lift, getitem. rewrite Hp.
  rewrite existsb_app in Hbad.
  destruct (existsb (not_2d obs0) policy) eqn:E.
  - destruct (count_obs_Err obs0 policy 0 E) as [e ->]. eauto.
  - simpl in Hbad. destruct (count_obs obs0 policy 0); [|eauto].
    rewrite Ht. destruct (count_obs_Err obs0 teacher_groups 0 Hbad) as [e ->]. eauto.
Qed.

(** ** The flat view of the module under [load_state_dict] *)

Lemma norm_state_with_state (n : Normalizer) (prefix : string) (sd : Dict.t Tensor) :
  norm_state (Normalizer_with_state n (load_from_state_dict prefix (norm_state n) sd))
  = load_from_state_dict prefix (norm_state n) sd.
Proof. destruct n as [[|buffers] tr]; reflexivity. Qed.

(** A parameter of the module itself as a list of one entry or none *)
Lemma load_parameter_flat (name : string) (sd : Dict.t Tensor) (p : option Tensor) :
  load_from_state_dict EmptyString
    (match p return list (string * Tensor) with
     | Some v => [(name, v)]
     | None => []
     end) sd
  = match load_parameter name sd p return list (string * Tensor) with
    | Some v => [(name, v)]
    | None => []
    end
  /\ load_abort EmptyString
       (match p return list (string * Tensor) with
        | Some v => [(name, v)]
        | None => []
        end) sd
     = parameter_abort name sd p.
Proof.
  destruct p as [v|]; [|split; reflexivity]. cbn.
  pose proof (load_entry_fst EmptyString sd (name, v)) as F.
  destruct (entry_abort EmptyString sd (name, v)) as [e|] eqn:A.
  - rewrite (load_entry_abort _ _ _ _ A). split; reflexivity.
  - destruct (load_entry EmptyString sd (name, v)) as [k v']. simpl in F. subst k.
    split; reflexivity.
Qed.

(** [super().load_state_dict] visits [self.state_dict()] entry by entry. *)
Lemma Module_load_flat (sd : Dict.t Tensor) (s : Self) :
  state_dict_of (Module_loaded sd s)
  = load_from_state_dict EmptyString (state_dict_of s) sd
  /\ fst (Module_load sd s) = raise_if (load_abort EmptyString (state_dict_of s) sd).
Proof.
  unfold state_dict_of at 2 3, own_parameters.
  rewrite <- !app_assoc, !load_from_app, !load_abort_app, <- !prefixed_load,
    !prefixed_abort.
  destruct (load_parameter_flat "std" sd (std s)) as [L1 A1].
  destruct (load_parameter_flat "log_std" sd (log_std s)) as [L2 A2].
  rewrite L1, L2, A1, A2. clear L1 L2 A1 A2.
  unfold Module_loaded, Module_load, bind, load_std, load_log_std, load_student,
    load_student_obs_normalizer, load_teacher, load_teacher_obs_normalizer.
  destruct (parameter_abort "std" sd (std s)) as [e|].
  { cbn. unfold state_dict_of, own_parameters. cbn.
    rewrite <- !app_assoc. split; reflexivity. }
  cbn [raise_if fst snd log_std set_std].
  destruct (parameter_abort "log_std" sd (log_std s)) as [e|].
  { cbn. unfold state_dict_of, own_parameters. cbn.
    rewrite <- !app_assoc. split; reflexivity. }
  cbn [raise_if fst snd student set_std set_log_std].
  destruct (load_abort "student." (mlp_state (student s)) sd) as [e|].
  { cbn. unfold state_dict_of, own_parameters. cbn.
    rewrite <- !app_assoc. split; reflexivity. }
  cbn [raise_if fst snd student_obs_normalizer set_std set_log_std set_student].
  destruct (load_abort "student_obs_normalizer."
              (norm_state (student_obs_normalizer s)) sd) as [e|].
  { cbn. unfold state_dict_of, own_parameters. cbn.
    rewrite <- !app_assoc, norm_state_with_state. split; reflexivity. }
  cbn [raise_if fst snd teacher set_std set_log_std set_student
       set_student_obs_normalizer].
  destruct (load_abort "teacher." (mlp_state (teacher s)) sd) as [e|].
  { cbn. unfold state_dict_of, own_parameters. cbn.
    rewrite <- !app_assoc, norm_state_with_state. split; reflexivity. }
  cbn [raise_if fst snd teacher_obs_normalizer set_std set_log_std set_student
       set_student_obs_normalizer set_teacher].
  unfold state_dict_of, own_parameters. cbn.
  rewrite <- !app_assoc, !norm_state_with_state.
  destruct (load_abort "teacher_obs_normalizer."
              (norm_state (teacher_obs_normalizer s)) sd); split; reflexivity.
Qed.

Lemma state_dict_of_loaded (sd : Dict.t Tensor) (s : Self) :
  state_dict_of (Module_loaded sd s)
  = load_from_state_dict EmptyString (state_dict_of s) sd.
Proof. apply Module_load_flat. Qed.

Lemma load_state_dict_distillation_eq {collab : Collaborators}
      (sd : Dict.t Tensor) (strict : bool) (w : World) :
  any_key_contains "actor" sd = false ->
  any_key_contains "student" sd = true ->
  load_state_dict sd strict w
  = match load_outcome (state_dict_of (self w)) sd strict with
    | Some e => (Err e, mkWorld (Module_loaded sd (self w)) (generator w))
    | None => (Ok true, mkWorld (loaded_and_eval (Module_loaded sd (self w))) (generator w))
    end.
Proof.
  intros Ha Hs. unfold load_state_dict. rewrite Ha, Hs.
  unfold Module_load_state_dict, teacher_eval, teacher_obs_normalizer_eval,
    bind, getself, gets, setself, modify, lift, ret, load_outcome.
  cbn [fst snd self generator].
  pose proof (proj2 (Module_load_flat sd (self w))) as A. unfold Module_loaded.
  destruct (Module_load sd (self w)) as [r s']. cbn [fst snd] in *. subst r.
  destruct (load_abort EmptyString (state_dict_of (self w)) sd); [reflexivity|].
  cbn. destruct (load_error (state_dict_of (self w)) sd strict); reflexivity.
Qed.

Lemma load_state_dict_policy_eq {collab : Collaborators}
      (sd : Dict.t Tensor) (strict : bool) (w : World) :
  any_key_contains "actor" sd = true ->
  load_state_dict sd strict w
  = let s1 := apply_write (WTeacherLoad (fst (remap sd)) strict) (self w) in
    match load_outcome (mlp_state (teacher (self w))) (fst (remap sd)) strict with
    | Some e => (Err e, mkWorld s1 (generator w))
    | None =>
        let s2 := apply_write (WTeacherNormalizerLoad (snd (remap sd)) strict) s1 in
        match load_outcome (norm_state (teacher_obs_normalizer (self w)))
                           (snd (remap sd)) strict with
        | Some e => (Err e, mkWorld s2 (generator w))
        | None => (Ok false, mkWorld (loaded_and_eval s2) (generator w))
        end
    end.
Proof.
  intros Ha. unfold load_state_dict. rewrite Ha.
  destruct (remap sd) as [tsd nsd]. cbn [fst snd apply_write].
  unfold MLP_load_state_dict, Normalizer_load_state_dict, teacher_eval,
    teacher_obs_normalizer_eval, bind, getself, gets, setself, modify, lift, ret.
  cbn [fst snd self generator].
  destruct (load_outcome (mlp_state (teacher (self w))) tsd strict); [reflexivity|].
  cbn.
  destruct (load_outcome (norm_state (teacher_obs_normalizer (self w))) nsd strict);
    reflexivity.
Qed.


(** What [__init__] assigns in the two noise modes: from the same arguments
    and generator, the same student, [std = c * ones] in ["scalar"] mode and
    [log_std = log (c * ones)] in ["log"] mode. *)
Lemma __init___noise_parameter {collab : Collaborators}
      obs groups num_actions sn tn sh th activation c kwargs g s1 g1 s2 g2 :
  __init__ obs groups num_actions sn tn sh th activation c "scalar" kwargs g = (Ok s1, g1) ->
  __init__ obs groups num_actions sn tn sh th activation c "log" kwargs g = (Ok s2, g2) ->
  noise_std_type s1 = "scalar"
  /\ std s1 = Some (scale_by c (ones num_actions))
  /\ noise_std_type s2 = "log"
  /\ log_std s2 = Some (log (scale_by c (ones num_actions)))
  /\ student s2 = student s1.
Proof.
  unfold __init__, bind, lift, ret, raise.
  destruct (getitem groups "policy"); [|discriminate].
  destruct (count_obs obs a 0); [|discriminate].
  destruct (getitem groups "teacher"); [|discriminate].
  destruct (count_obs obs a1 0); [|discriminate].
  destruct (MLP_init a0 num_actions sh activation g) as [p1 g1'].
  destruct (MLP_init a2 num_actions th activation g1') as [p2 g2'].
  simpl. intros H1 H2. inversion H1; inversion H2; subst. simpl. auto.
Qed.

Lemma scaled_ones_positive (c : R) (n : nat) :
  (0 < c)%R -> Forall (fun x => (0 < x)%R) (data (scale_by c (ones n))).
Proof.
  intros Hc. unfold scale_by, ones. simpl.
  induction n as [|n IH]; simpl; constructor; [lra | exact IH].
Qed.

(** * The claims *)

(** C9 rests on the invariants of an instance and is proved with them, in
    the section on inference. *)

Section Claims.

Context {collab : Collaborators}.

(** C3.  A mapping in which no key contains ["actor"] and no key contains
    ["student"] makes [load_state_dict] raise the [ValueError] that names
    the missing parameters, and the object (every parameter, every
    normalizer statistic, [loaded_teacher]) and the generator are exactly
    what they were before the call. *)
Theorem load_state_dict_unrecognized
        (state_dict : Dict.t Tensor) (strict : bool) (w : World) :
  any_key_contains "actor" state_dict = false ->
  any_key_contains "student" state_dict = false ->
  load_state_dict state_dict strict w = (Err (ValueError no_parameters_msg), w).
Proof.
  intros Ha Hs. unfold load_state_dict. rewrite Ha, Hs. reflexivity.
Qed.

(** C7.  After [train(mode)], for either [mode] and after any earlier
    sequence of toggles, the teacher approximator and the teacher normalizer
    are in evaluation mode; the module itself and the student sub-tree (the
    student approximator and the student normalizer) carry [mode]; the call
    returns and writes nothing but these flags. *)
Theorem train_keeps_teacher_in_eval (history : list bool) (mode : bool) (w : World) :
  let w0 := fold_left (fun w' m => snd (train m w')) history w in
  let s0 := self w0 in
  let s' := self (snd (train mode w0)) in
  fst (train mode w0) = Ok tt
  /\ mlp_training (teacher s') = false
  /\ norm_training (teacher_obs_normalizer s') = false
  /\ mlp_training (student s') = mode
  /\ norm_training (student_obs_normalizer s') = mode
  /\ training s' = mode
  /\ mlp_state (teacher s') = mlp_state (teacher s0)
  /\ norm_kind (teacher_obs_normalizer s') = norm_kind (teacher_obs_normalizer s0)
  /\ mlp_state (student s') = mlp_state (student s0)
  /\ norm_kind (student_obs_normalizer s') = norm_kind (student_obs_normalizer s0)
  /\ (loaded_teacher s', obs_groups s', student_obs_normalization s',
      teacher_obs_normalization s', noise_std_type s', std s', log_std s',
      distribution s')
     = (loaded_teacher s0, obs_groups s0, student_obs_normalization s0,
        teacher_obs_normalization s0, noise_std_type s0, std s0, log_std s0,
        distribution s0)
  /\ generator (snd (train mode w0)) = generator w0.
Proof.
  intros w0 s0 s'. subst s' s0. generalize w0 as v. clear w0. intros v.
  repeat split.
Qed.

(** C8.  After any finite sequence of [act] and [update_normalization]
    calls, returned or raised, the teacher approximator (parameters and
    flag) and the teacher normalizer (statistics and flag) are what they
    were before it.  Of the attributes, the sequence writes at most
    [distribution] and the buffers of [student_obs_normalizer], and not the
    latter when student normalization is off; [act] never writes the student
    normalizer, [update_normalization] never the distribution or the
    generator. *)
Theorem rollout_teacher_isolation (calls : list Call) (w : World) :
  forallb is_rollout_call calls = true ->
  let s := self w in
  let s' := self (run calls w) in
  teacher s' = teacher s
  /\ teacher_obs_normalizer s' = teacher_obs_normalizer s
  /\ rollout_frame (run calls w) = rollout_frame w
  /\ norm_training (student_obs_normalizer s') = norm_training (student_obs_normalizer s)
  /\ (student_obs_normalization s = false ->
      student_obs_normalizer s' = student_obs_normalizer s)
  /\ (forall obs w0,
        student_obs_normalizer (self (snd (act obs w0)))
        = student_obs_normalizer (self w0))
  /\ (forall obs w0,
        distribution (self (snd (update_normalization obs w0))) = distribution (self w0)
        /\ generator (snd (update_normalization obs w0)) = generator w0).
Proof.
  intros H s s'. subst s s'.
  destruct (run_rollout_frame calls w H) as (F & T & N).
  assert (F' := F). unfold rollout_frame in F'. simpl in F'.
  split; [congruence|]. split; [congruence|]. split; [exact F|].
  split; [exact T|]. split; [exact N|]. split.
  - intros obs w0.
    apply (act_Keeps (fun w => student_obs_normalizer (self w))); reflexivity.
  - intros obs w0. split.
    + apply (update_normalization_Keeps (fun w => distribution (self w))); reflexivity.
    + apply (update_normalization_Keeps (fun w => generator w)); reflexivity.
Qed.

(** C10.  On an instance that [__init__] returned, after any calls of its
    methods, [noise_std_type] is ["scalar"] or ["log"], so the branch of
    [update_distribution] that raises the unknown-type [ValueError] is never
    taken: whenever the student approximator returns a mean, the call does
    not raise a [ValueError]. *)
Theorem unknown_noise_branch_unreachable (w : World) :
  Constructed w ->
  (noise_std_type (self w) = "scalar" \/ noise_std_type (self w) = "log")
  /\ forall obs mean_,
       MLP_forward (student (self w)) obs = Ok mean_ ->
       forall msg, fst (update_distribution obs w) <> Err (ValueError msg).
Proof.
  intros H. pose proof (Constructed_noise_mode w H) as Hty. unfold noise_mode in Hty.
  split; [exact Hty|]. intros obs mean_ Hm msg.
  unfold update_distribution, bind, getself, gets, lift, raise, setself, modify.
  simpl. rewrite Hm. simpl.
  destruct Hty as [-> | ->]; simpl.
  - destruct (std (self w)); simpl; [|discriminate].
    destruct (expand_as t mean_) as [x|e] eqn:E; simpl; [discriminate|].
    apply expand_as_error in E. destruct E as [m ->]. discriminate.
  - destruct (log_std (self w)); simpl; [|discriminate].
    destruct (expand_as (exp t) mean_) as [x|e] eqn:E; simpl; [discriminate|].
    apply expand_as_error in E. destruct E as [m ->]. discriminate.
Qed.

(** C6.  For every vector [p] of positive standard deviations and every
    input of the student approximator, an instance in ["log"] mode whose
    [log_std] is [log p] and an instance in ["scalar"] mode whose [std] is
    [p], with the same student, report the same [action_std] after
    [update_distribution] (over the reals): the expansion of [p] to the
    shape of the student mean. *)
Theorem noise_parameterization_equivalence
        (s_scalar s_log : Self) (p obs : Tensor) (g : Generator) :
  Forall (fun x => (0 < x)%R) (data p) ->
  noise_std_type s_scalar = "scalar" -> std s_scalar = Some p ->
  noise_std_type s_log = "log" -> log_std s_log = Some (log p) ->
  student s_log = student s_scalar ->
  fst ((update_distribution obs ;;; action_std) (mkWorld s_log g))
  = fst ((update_distribution obs ;;; action_std) (mkWorld s_scalar g))
  /\ fst ((update_distribution obs ;;; action_std) (mkWorld s_scalar g))
     = match MLP_forward (student s_scalar) obs with
       | Ok mean_ => expand_as p mean_
       | Err e => Err e
       end.
Proof.
  intros Hpos Hts Hs Htl Hl Hst.
  unfold update_distribution, action_std, bind, getself, gets, lift, raise,
    setself, modify, ret.
  simpl. rewrite Hst, Hts, Htl.
  destruct (MLP_forward (student s_scalar) obs) as [mean_|e]; simpl; [|auto].
  rewrite Hs, Hl. simpl. rewrite (exp_log p Hpos).
  destruct (expand_as p mean_); simpl; auto.
Qed.


(** C5.  Let [ns] and [nt] be the widths that [__init__] computes from the
    construction-time mapping [obs0] for the two roles (both loops passed,
    so every group is two-dimensional): each is the sum of the feature
    widths of the role's groups.  On every runtime mapping that gives those
    groups a common batch size [b] and their construction-time widths, each
    router returns, when its list names at least one group, a tensor of
    shape [(b, ns)], respectively [(b, nt)], and returns nothing of another
    shape; [b] is arbitrary. *)
Theorem router_width (w : World) (obs0 obs : Dict.t Tensor) (b ns nt : nat)
        (policy teacher_groups : list string) :
  Dict.get (obs_groups (self w)) "policy" = Some policy ->
  Dict.get (obs_groups (self w)) "teacher" = Some teacher_groups ->
  count_obs obs0 policy 0 = Ok ns ->
  count_obs obs0 teacher_groups 0 = Ok nt ->
  same_widths obs0 obs b policy = true ->
  same_widths obs0 obs b teacher_groups = true ->
  ns = list_sum (map (group_width obs0) policy)
  /\ nt = list_sum (map (group_width obs0) teacher_groups)
  /\ (policy <> [] ->
      exists out, get_student_obs obs w = (Ok out, w) /\ shape out = [b; ns])
  /\ (forall out, fst (get_student_obs obs w) = Ok out -> shape out = [b; ns])
  /\ (teacher_groups <> [] ->
      exists out, get_teacher_obs obs w = (Ok out, w) /\ shape out = [b; nt])
  /\ (forall out, fst (get_teacher_obs obs w) = Ok out -> shape out = [b; nt]).
Proof.
  intros Hp Ht Hns Hnt Hsp Hst.
  destruct (routed_width _ _ _ _ _ _ _ Hp Hns Hsp) as [P1 P2].
  destruct (routed_width _ _ _ _ _ _ _ Ht Hnt Hst) as [T1 T2].
  rewrite get_student_obs_eq, get_teacher_obs_eq. simpl.
  split; [apply count_obs_sum; exact Hns|].
  split; [apply count_obs_sum; exact Hnt|].
  split; [|split; [exact P2|split; [|exact T2]]].
  - intros Hne. destruct (P1 Hne) as (out & -> & Hs). eauto.
  - intros Hne. destruct (T1 Hne) as (out & -> & Hs). eauto.
Qed.

(** C4, as the code has it.  A group of the role's list that the supplied
    mapping lacks makes the routing call raise [KeyError] for the first such
    group, at that call, with no result and no write: in [get_student_obs],
    [act], [act_inference], [update_normalization] (when student
    normalization is on), [get_teacher_obs] and [evaluate].  The rank of the
    groups is asserted by [__init__] on the construction-time mapping, which
    raises for a group that is absent or not two-dimensional; a routing call
    has no such check, and with every group present it is [torch.cat] of the
    supplied tensors. *)
Theorem routing_missing_group_raises (w : World) (obs : Dict.t Tensor)
        (policy teacher_groups : list string) :
  Dict.get (obs_groups (self w)) "policy" = Some policy ->
  Dict.get (obs_groups (self w)) "teacher" = Some teacher_groups ->
  (forall g, first_missing obs policy = Some g ->
     get_student_obs obs w = (Err (KeyError g), w)
     /\ act obs w = (Err (KeyError g), w)
     /\ act_inference obs w = (Err (KeyError g), w)
     /\ (student_obs_normalization (self w) = true ->
         update_normalization obs w = (Err (KeyError g), w)))
  /\ (forall g, first_missing obs teacher_groups = Some g ->
        get_teacher_obs obs w = (Err (KeyError g), w)
        /\ evaluate obs w = (Err (KeyError g), w))
  /\ (first_missing obs policy = None ->
      exists ts, map Some ts = map (Dict.get obs) policy
                 /\ get_student_obs obs w = (cat ts, w))
  /\ (first_missing obs teacher_groups = None ->
      exists ts, map Some ts = map (Dict.get obs) teacher_groups
                 /\ get_teacher_obs obs w = (cat ts, w))
  /\ (forall obs0 num_actions sn tn sh th activation c ty kwargs g,
        existsb (not_2d obs0) (policy ++ teacher_groups) = true ->
        exists e,
          __init__ obs0 (obs_groups (self w)) num_actions sn tn sh th activation c ty
                   kwargs g = (Err e, g)).
Proof.
  intros Hp Ht. split; [|split; [|split; [|split]]].
  - intros g Hm. pose proof (routed_missing _ _ _ _ _ Hp Hm) as R.
    assert (G : get_student_obs obs w = (Err (KeyError g), w))
      by (rewrite get_student_obs_eq, R; reflexivity).
    split; [exact G|]. split; [|split].
    + unfold act, bind. rewrite G. reflexivity.
    + rewrite act_inference_eq, R. reflexivity.
    + intros Hon. unfold update_normalization, bind, getself, gets. simpl.
      rewrite Hon, G. reflexivity.
  - intros g Hm. pose proof (routed_missing _ _ _ _ _ Ht Hm) as R.
    split.
    + rewrite get_teacher_obs_eq, R. reflexivity.
    + rewrite evaluate_eq, R. reflexivity.
  - intros Hm. destruct (routed_present _ _ _ _ Hp Hm) as (ts & Hts & R).
    exists ts. rewrite get_student_obs_eq, R. auto.
  - intros Hm. destruct (routed_present _ _ _ _ Ht Hm) as (ts & Hts & R).
    exists ts. rewrite get_teacher_obs_eq, R. auto.
  - intros. apply __init___rejects with (policy := policy) (teacher_groups := teacher_groups);
      assumption.
Qed.

(** C1, as the code has it.  When some key contains ["actor"], whether or
    not a key contains ["student"], [load_state_dict] takes the prior-policy
    branch.  It loads the teacher approximator from the mapping that sends
    every key containing ["actor."], with that text removed, to its value
    (on a checkpoint whose such keys begin with ["actor."] and hold it once:
    the key without the prefix), then the teacher normalizer likewise for
    ["actor_obs_normalizer."]; the student approximator, the student
    normalizer, the noise parameter and every other attribute keep their
    values.  If [torch] accepts both loads under [strict]
    ([load_accepted_iff]), [loaded_teacher] is true, teacher approximator
    and teacher normalizer are in evaluation mode, the call returns [False],
    and every teacher entry that its renamed mapping names holds the input
    (for a zero-dimensional entry the first element of a one-dimensional
    input), which under [strict] is every entry.  If a load is rejected, its
    error is raised (whatever the order in which it lists the unexpected
    keys), [loaded_teacher] and the evaluation flags are not written, and a
    rejected teacher load leaves the normalizer alone. *)
Theorem load_state_dict_prior_policy
        (state_dict : Dict.t Tensor) (strict : bool) (w : World) :
  any_key_contains "actor" state_dict = true ->
  let s := self w in
  let teacher_sd := fst (remap state_dict) in
  let normalizer_sd := snd (remap state_dict) in
  let r := fst (load_state_dict state_dict strict w) in
  let s' := self (snd (load_state_dict state_dict strict w)) in
  (student s', student_obs_normalizer s', std s', log_std s', distribution s',
   training s', obs_groups s', student_obs_normalization s',
   teacher_obs_normalization s', noise_std_type s')
  = (student s, student_obs_normalizer s, std s, log_std s, distribution s,
     training s, obs_groups s, student_obs_normalization s,
     teacher_obs_normalization s, noise_std_type s)
  /\ generator (snd (load_state_dict state_dict strict w)) = generator w
  /\ mlp_state (teacher s')
     = load_from_state_dict EmptyString (mlp_state (teacher s)) teacher_sd
  /\ (forall k, Dict.get teacher_sd k
                = last_value (renamed_to "actor." k) state_dict None)
  /\ (forall k, Dict.get normalizer_sd k
                = last_value (renamed_to "actor_obs_normalizer." k) state_dict None)
  /\ (forall rest v,
        NoDup (Dict.keys state_dict) ->
        (forall key, In key (Dict.keys state_dict) ->
           Str.contains "actor." key = true ->
           exists r', key = "actor." ++ r' /\ Str.contains "actor." r' = false) ->
        Str.contains "actor." rest = false ->
        In ("actor." ++ rest, v) state_dict ->
        Dict.get teacher_sd rest = Some v)
  /\ match load_outcome (mlp_state (teacher s)) teacher_sd strict,
           load_outcome (norm_state (teacher_obs_normalizer s)) normalizer_sd strict with
     | None, None =>
         r = Ok false
         /\ loaded_teacher s' = true
         /\ mlp_training (teacher s') = false
         /\ norm_training (teacher_obs_normalizer s') = false
         /\ norm_state (teacher_obs_normalizer s')
            = load_from_state_dict EmptyString
                (norm_state (teacher_obs_normalizer s)) normalizer_sd
         /\ restored (mlp_state (teacher s)) (mlp_state (teacher s')) teacher_sd strict
         /\ restored (norm_state (teacher_obs_normalizer s))
                     (norm_state (teacher_obs_normalizer s')) normalizer_sd strict
     | Some e, _ =>
         (exists e', r = Err e' /\ same_report e' e)
         /\ loaded_teacher s' = loaded_teacher s
         /\ mlp_training (teacher s') = mlp_training (teacher s)
         /\ teacher_obs_normalizer s' = teacher_obs_normalizer s
     | None, Some e =>
         (exists e', r = Err e' /\ same_report e' e)
         /\ loaded_teacher s' = loaded_teacher s
         /\ mlp_training (teacher s') = mlp_training (teacher s)
         /\ norm_training (teacher_obs_normalizer s')
            = norm_training (teacher_obs_normalizer s)
         /\ norm_state (teacher_obs_normalizer s')
            = load_from_state_dict EmptyString
                (norm_state (teacher_obs_normalizer s)) normalizer_sd
     end.
Proof.
  intros Ha s teacher_sd normalizer_sd r s'. subst r s'.
  rewrite (load_state_dict_policy_eq state_dict strict w Ha). cbv zeta.
  subst teacher_sd normalizer_sd. fold s.
  assert (G := remap_get state_dict).
  destruct (remap state_dict) as [tsd nsd] eqn:R. cbn [fst snd] in *.
  assert (T : forall n st, norm_training (Normalizer_with_state n st) = norm_training n)
    by (intros [[|b] tr] st; reflexivity).
  assert (SR : forall e, exists e', Err (A := bool) e = Err e' /\ same_report e' e).
  { intros e. exists e. split; [reflexivity|]. destruct e; cbn; auto. }
  split; [|split; [|split; [|split; [|split; [|split]]]]].
  - destruct (load_outcome (mlp_state (teacher s)) tsd strict); [reflexivity|].
    destruct (load_outcome (norm_state (teacher_obs_normalizer s)) nsd strict);
      reflexivity.
  - destruct (load_outcome (mlp_state (teacher s)) tsd strict); [reflexivity|].
    destruct (load_outcome (norm_state (teacher_obs_normalizer s)) nsd strict);
      reflexivity.
  - destruct (load_outcome (mlp_state (teacher s)) tsd strict); [reflexivity|].
    destruct (load_outcome (norm_state (teacher_obs_normalizer s)) nsd strict);
      reflexivity.
  - intros k. apply G.
  - intros k. apply G.
  - intros rest v Hnd Hshape Hrest Hin. rewrite (proj1 (G rest)).
    apply (last_value_prefix "a"%char "ctor." rest state_dict v); assumption.
  - destruct (load_outcome (mlp_state (teacher s)) tsd strict) as [e|] eqn:E1.
    + cbn. repeat split. apply SR.
    + destruct (load_outcome (norm_state (teacher_obs_normalizer s)) nsd strict)
        as [e|] eqn:E2; cbn.
      * repeat split; [apply SR | apply T | apply norm_state_with_state].
      * repeat split.
        -- apply norm_state_with_state.
        -- intros k old Hk. apply (load_accepted_restores _ _ _ E1 k old Hk).
        -- change (norm_state (Normalizer_train false ?n)) with (norm_state n).
           rewrite norm_state_with_state.
           intros k old Hk. apply (load_accepted_restores _ _ _ E2 k old Hk).
Qed.


End Claims.

(** * The claims on the example instance *)

Lemma load_state_dict_unrecognized_witness :
  any_key_contains "actor" Demo.critic_checkpoint = false
  /\ any_key_contains "student" Demo.critic_checkpoint = false
  /\ load_state_dict Demo.critic_checkpoint true (Demo.world "scalar")
     = (Err (ValueError no_parameters_msg), Demo.world "scalar").
Proof.
  split; [reflexivity|]. split; [reflexivity|].
  apply load_state_dict_unrecognized; reflexivity.
Defined.

Lemma rollout_teacher_isolation_witness :
  forallb is_rollout_call Demo.rollout = true
  /\ teacher (self (run Demo.rollout (Demo.world "scalar")))
     = teacher (self (Demo.world "scalar"))
  /\ teacher_obs_normalizer (self (run Demo.rollout (Demo.world "scalar")))
     = teacher_obs_normalizer (self (Demo.world "scalar")).
Proof.
  split; [reflexivity|].
  pose proof (rollout_teacher_isolation Demo.rollout (Demo.world "scalar") eq_refl) as H.
  split; [exact (proj1 H) | exact (proj1 (proj2 H))].
Defined.

Lemma unknown_noise_branch_unreachable_witness :
  Constructed (exec (CallTrain true) (Demo.world "log"))
  /\ (noise_std_type (self (exec (CallTrain true) (Demo.world "log"))) = "scalar"
      \/ noise_std_type (self (exec (CallTrain true) (Demo.world "log"))) = "log").
Proof.
  assert (C : Constructed (exec (CallTrain true) (Demo.world "log"))).
  { apply Constructed_call.
    apply (Constructed_init (collab := Demo.collab) Demo.obs Demo.groups 2 true false
             [256; 256; 256] [256; 256; 256] "elu" (1 / 2)%R "log" [] 0).
    reflexivity. }
  split; [exact C|].
  exact (proj1 (unknown_noise_branch_unreachable _ C)).
Defined.

Lemma noise_parameterization_equivalence_witness :
  Forall (fun x => (0 < x)%R) (data (scale_by (1 / 2) (ones 2)))
  /\ fst ((update_distribution (Demo.zeros [5; 3]) ;;; action_std) (Demo.world "log"))
     = fst ((update_distribution (Demo.zeros [5; 3]) ;;; action_std)
              (Demo.world "scalar")).
Proof.
  assert (P : Forall (fun x => (0 < x)%R) (data (scale_by (1 / 2) (ones 2))))
    by (simpl; repeat constructor; lra).
  split; [exact P|].
  exact (proj1 (noise_parameterization_equivalence (collab := Demo.collab)
                  (self (Demo.world "scalar")) (self (Demo.world "log"))
                  (scale_by (1 / 2) (ones 2)) (Demo.zeros [5; 3]) 2
                  P eq_refl eq_refl eq_refl eq_refl eq_refl)).
Defined.

Lemma router_width_witness :
  count_obs Demo.obs ["proprio"] 0 = Ok 3
  /\ count_obs Demo.obs ["proprio"; "privileged"] 0 = Ok 4
  /\ same_widths Demo.obs Demo.obs5 5 ["proprio"; "privileged"] = true
  /\ (exists out, get_student_obs Demo.obs5 (Demo.world "scalar")
                  = (Ok out, Demo.world "scalar") /\ shape out = [5; 3])
  /\ (exists out, get_teacher_obs Demo.obs5 (Demo.world "scalar")
                  = (Ok out, Demo.world "scalar") /\ shape out = [5; 4]).
Proof.
  split; [reflexivity|]. split; [reflexivity|]. split; [reflexivity|].
  pose proof (router_width (Demo.world "scalar") Demo.obs Demo.obs5 5 3 4
                ["proprio"] ["proprio"; "privileged"]
                eq_refl eq_refl eq_refl eq_refl eq_refl eq_refl) as H.
  destruct H as (_ & _ & S & _ & T & _).
  split; [apply S; discriminate | apply T; discriminate].
Defined.

Lemma routing_missing_group_raises_witness :
  first_missing Demo.obs_no_privileged ["proprio"; "privileged"] = Some "privileged"
  /\ evaluate Demo.obs_no_privileged (Demo.world "scalar")
     = (Err (KeyError "privileged"), Demo.world "scalar").
Proof.
  split; [reflexivity|].
  pose proof (routing_missing_group_raises (Demo.world "scalar") Demo.obs_no_privileged
                ["proprio"] ["proprio"; "privileged"] eq_refl eq_refl) as H.
  destruct H as (_ & T & _).
  exact (proj2 (T "privileged" eq_refl)).
Defined.

(** C4 as stated fails: the policy group is one-dimensional and the router
    returns it. *)
Lemma routing_accepts_1D :
  Dict.get Demo.obs_1d "proprio" = Some (mkTensor [3] [1; 2; 3]%R)
  /\ ndim (mkTensor [3] [1; 2; 3]%R) = 1
  /\ get_student_obs Demo.obs_1d (Demo.world "scalar")
     = (Ok (mkTensor [3] [1; 2; 3]%R), Demo.world "scalar")
  /\ get_teacher_obs Demo.obs_1d (Demo.world "scalar")
     = (Ok (mkTensor [4] [1; 2; 3; 7]%R), Demo.world "scalar").
Proof. repeat split. Qed.

Lemma load_state_dict_prior_policy_witness :
  any_key_contains "actor" Demo.policy_checkpoint = true
  /\ fst (load_state_dict Demo.policy_checkpoint true (Demo.world "scalar")) = Ok false
  /\ loaded_teacher
       (self (snd (load_state_dict Demo.policy_checkpoint true (Demo.world "scalar"))))
     = true.
Proof.
  split; [reflexivity|].
  pose proof (load_state_dict_prior_policy Demo.policy_checkpoint true
                (Demo.world "scalar") eq_refl) as H.
  destruct H as (_ & _ & _ & _ & _ & _ & H).
  split; [exact (proj1 H) | exact (proj1 (proj2 H))].
Defined.

(** C1 as stated fails: a key contains ["actor"], the strict load of the
    teacher misses its bias, the call raises and [loaded_teacher] stays
    false. *)
Lemma load_state_dict_prior_policy_rejected :
  any_key_contains "actor" Demo.partial_policy_checkpoint = true
  /\ fst (load_state_dict Demo.partial_policy_checkpoint true (Demo.world "scalar"))
     = Err (LoadStateDictError ["0.bias"] [] [])
  /\ loaded_teacher
       (self (snd (load_state_dict Demo.partial_policy_checkpoint true
                     (Demo.world "scalar"))))
     = false.
Proof. repeat split. Qed.



(** * Further properties of the methods *)

(** ** Construction *)

Lemma find_app_first {A} (f : A -> bool) (l1 l2 : list A) :
  find f (l1 ++ l2)
  = match find f l1 with
    | Some x => Some x
    | None => find f l2
    end.
Proof.
  induction l1 as [|a l1 IH]; simpl; [reflexivity|].
  destruct (f a); [reflexivity | exact IH].
Qed.

Lemma find_none_existsb {A} (f : A -> bool) (l : list A) :
  find f l = None <-> existsb f l = false.
Proof.
  induction l as [|a l IH]; simpl; [tauto|].
  destruct (f a); simpl; [split; discriminate | exact IH].
Qed.

(** The loop of [__init__]: it stops at the first group that is absent or
    not two-dimensional, and otherwise adds up the widths. *)
Lemma count_obs_eq (obs0 : Dict.t Tensor) (names : list string) (num : nat) :
  count_obs obs0 names num
  = match find (not_2d obs0) names with
    | Some b => Err (group_error obs0 b)
    | None => Ok (num + list_sum (map (group_width obs0) names))
    end.
Proof.
  revert num. induction names as [|g names IH]; intros num; simpl.
  - f_equal. lia.
  - unfold getitem, not_2d at 1, group_error, group_width at 1, Dict.mem.
    destruct (Dict.get obs0 g) as [t|] eqn:E; simpl.
    + destruct (ndim t =? 2)%nat; simpl.
      * rewrite IH. destruct (find (not_2d obs0) names); [reflexivity|].
        f_equal. lia.
      * rewrite E. reflexivity.
    + rewrite E. reflexivity.
Qed.

Section Construction.

Context {collab : Collaborators}.

(** X1.  [__init__] returns only for a group dictionary with both roles, a
    probe mapping that holds every group of both roles as a two-dimensional
    tensor, and the noise mode ["scalar"] or ["log"].  What it returns is
    built for the widths of the groups: the student approximator for the sum
    of the widths of the policy groups (the width of the tensor that
    [get_student_obs] routes) and [num_actions] outputs, then the teacher
    approximator for the sum of the widths of the teacher groups, both drawn
    from the generator in this order; a running normalizer, where the flag
    asks for one, for the same width; the noise parameter of the mode with
    [num_actions] entries.  The student is in training mode, the teacher in
    evaluation mode, no teacher is loaded and no distribution is stored. *)
Theorem __init___returns_only_when
        obs groups num_actions sn tn sh th activation c ty kwargs g s g' :
  __init__ obs groups num_actions sn tn sh th activation c ty kwargs g = (Ok s, g') ->
  exists policy teacher_groups,
    Dict.get groups "policy" = Some policy
    /\ Dict.get groups "teacher" = Some teacher_groups
    /\ existsb (not_2d obs) (policy ++ teacher_groups) = false
    /\ (ty = "scalar" \/ ty = "log")
    /\ let ns := list_sum (map (group_width obs) policy) in
       let nt := list_sum (map (group_width obs) teacher_groups) in
       let built_student := MLP_init ns num_actions sh activation g in
       let built_teacher := MLP_init nt num_actions th activation (snd built_student) in
       student s = mkMLP (fst built_student) true
       /\ teacher s = mkMLP (fst built_teacher) false
       /\ g' = snd built_teacher
       /\ student_obs_normalizer s = new_normalizer sn ns
       /\ teacher_obs_normalizer s = new_normalizer tn nt
       /\ (std s, log_std s)
          = (if ty =? "scalar"
             then (Some (scale_by c (ones num_actions)), None)
             else (None, Some (log (scale_by c (ones num_actions)))))
       /\ (obs_groups s, student_obs_normalization s, teacher_obs_normalization s,
           noise_std_type s)
          = (groups, sn, tn, ty)
       /\ (training s, loaded_teacher s, distribution s) = (true, false, None).
Proof.
  unfold __init__, bind, lift, ret, raise, getitem.
  destruct (Dict.get groups "policy") as [policy|]; [|discriminate].
  rewrite count_obs_eq.
  destruct (find (not_2d obs) policy) as [b|] eqn:Fp; [discriminate|].
  destruct (Dict.get groups "teacher") as [tg|]; [|discriminate].
  rewrite count_obs_eq.
  destruct (find (not_2d obs) tg) as [b|] eqn:Ft; [discriminate|].
  cbn [Nat.add].
  destruct (MLP_init (list_sum (map (group_width obs) policy)) num_actions sh
              activation g) as [p1 g1] eqn:B1.
  destruct (MLP_init (list_sum (map (group_width obs) tg)) num_actions th
              activation g1) as [p2 g2] eqn:B2.
  assert (Hgood : existsb (not_2d obs) (policy ++ tg) = false).
  { rewrite existsb_app. apply find_none_existsb in Fp, Ft. rewrite Fp, Ft. reflexivity. }
  intros H. exists policy, tg.
  split; [reflexivity|]. split; [reflexivity|]. split; [exact Hgood|].
  cbv zeta. rewrite B1. cbn [fst snd]. rewrite B2. cbn [fst snd].
  destruct (String.eqb_spec ty "scalar") as [->|Hs].
  - inversion H; subst. cbn. repeat split. left. reflexivity.
  - destruct (String.eqb_spec ty "log") as [->|Hl]; [|discriminate].
    inversion H; subst. cbn. repeat split. right. reflexivity.
Qed.

(** X2.  When a group of either role is absent from the probe mapping or
    not two-dimensional, [__init__] raises for the first such group, policy
    groups before teacher groups: [KeyError] if the mapping lacks it, the
    [AssertionError] otherwise.  It raises before any approximator is
    built (the generator is untouched) and whatever the noise mode is. *)
Theorem __init___group_error
        obs groups num_actions sn tn sh th activation c ty kwargs g
        policy teacher_groups b :
  Dict.get groups "policy" = Some policy ->
  Dict.get groups "teacher" = Some teacher_groups ->
  find (not_2d obs) (policy ++ teacher_groups) = Some b ->
  __init__ obs groups num_actions sn tn sh th activation c ty kwargs g
  = (Err (group_error obs b), g).
Proof.
  intros Hp Ht Hb. unfold __init__, bind, lift, getitem. rewrite Hp.
  rewrite count_obs_eq. rewrite find_app_first in Hb.
  destruct (find (not_2d obs) policy) as [b'|].
  - inversion Hb; subst. reflexivity.
  - rewrite Ht. rewrite count_obs_eq, Hb. reflexivity.
Qed.

(** X3.  An unknown noise mode is detected last: with valid groups,
    [__init__] raises the [ValueError] naming the mode only after both
    approximators have been built, the student one first (the generator
    has served both initializations). *)
Theorem __init___unknown_noise_last
        obs groups num_actions sn tn sh th activation c ty kwargs g
        policy teacher_groups :
  Dict.get groups "policy" = Some policy ->
  Dict.get groups "teacher" = Some teacher_groups ->
  existsb (not_2d obs) (policy ++ teacher_groups) = false ->
  ty <> "scalar" -> ty <> "log" ->
  __init__ obs groups num_actions sn tn sh th activation c ty kwargs g
  = (Err (ValueError (unknown_std_msg ty)),
     snd (MLP_init (list_sum (map (group_width obs) teacher_groups)) num_actions th
            activation
            (snd (MLP_init (list_sum (map (group_width obs) policy)) num_actions sh
                    activation g)))).
Proof.
  intros Hp Ht Hb Hs Hl. unfold __init__, bind, lift, ret, raise, getitem.
  rewrite existsb_app in Hb. apply orb_false_elim in Hb. destruct Hb as [Bp Bt].
  apply find_none_existsb in Bp, Bt.
  rewrite Hp, count_obs_eq, Bp, Ht, count_obs_eq, Bt. simpl.
  destruct (MLP_init (list_sum (map (group_width obs) policy)) num_actions sh activation g)
    as [p1 g1]. simpl.
  destruct (MLP_init (list_sum (map (group_width obs) teacher_groups)) num_actions th
              activation g1) as [p2 g2]. simpl.
  apply String.eqb_neq in Hs, Hl. rewrite Hs, Hl. reflexivity.
Qed.

End Construction.

(** ** What every call writes *)

Section Writes.

Context {collab : Collaborators}.

Lemma update_distribution_self (x : Tensor) (w : World) :
  update_distribution x w
  = match distribution_for (self w) x with
    | Ok d => (Ok tt, mkWorld (set_distribution (Some d) (self w)) (generator w))
    | Err e => (Err e, w)
    end.
Proof.
  unfold update_distribution, distribution_for, noise_std, bind, getself, gets, lift,
    raise, setself, modify.
  simpl. destruct (MLP_forward (student (self w)) x) as [mean_|e]; simpl; [|reflexivity].
  destruct (noise_std_type (self w) =? "scalar"); simpl.
  - destruct (getattr "std" (std (self w))); simpl; [|reflexivity].
    destruct (expand_as a mean_); reflexivity.
  - destruct (noise_std_type (self w) =? "log"); simpl; [|reflexivity].
    destruct (getattr "log_std" (log_std (self w))); simpl; [|reflexivity].
    destruct (expand_as (exp a) mean_); reflexivity.
Qed.

(** [act] stores the distribution of the mapping, then samples. *)
Lemma act_self (obs : Dict.t Tensor) (w : World) :
  act obs w
  = match next_distribution (self w) obs with
    | Ok d =>
        (fst (Normal_sample d (generator w)),
         mkWorld (set_distribution (Some d) (self w))
                 (snd (Normal_sample d (generator w))))
    | Err e => (Err e, w)
    end.
Proof.
  unfold act, next_distribution, bind. rewrite get_student_obs_eq.
  destruct (routed (obs_groups (self w)) "policy" obs) as [x|e]; [|reflexivity].
  unfold getself at 1, gets, lift at 1. cbn [fst snd].
  destruct (Normalizer_forward (student_obs_normalizer (self w)) x) as [y|e];
    [|reflexivity].
  rewrite update_distribution_self.
  destruct (distribution_for (self w) y) as [d|e]; [|reflexivity].
  unfold getself, gets, lift, getattr. cbn.
  destruct (Normal_sample d (generator w)); reflexivity.
Qed.

Lemma update_normalization_self (obs : Dict.t Tensor) (w : World) :
  update_normalization obs w
  = if student_obs_normalization (self w) then
      match routed (obs_groups (self w)) "policy" obs with
      | Ok x =>
          (fst (Normalizer_update (student_obs_normalizer (self w)) x),
           mkWorld (apply_write (WUpdate x) (self w)) (generator w))
      | Err e => (Err e, w)
      end
    else (Ok tt, w).
Proof.
  unfold update_normalization, bind, getself at 1, gets. cbn [fst snd].
  destruct (student_obs_normalization (self w)); [|reflexivity].
  rewrite get_student_obs_eq.
  destruct (routed (obs_groups (self w)) "policy" obs) as [x|e]; [|reflexivity].
  unfold getself, gets. cbn [apply_write].
  destruct (Normalizer_update (student_obs_normalizer (self w)) x) as [r n'].
  unfold setself, modify, lift. cbn. destruct r; reflexivity.
Qed.

Lemma train_self (mode : bool) (w : World) :
  train mode w = (Ok tt, mkWorld (trained mode (self w)) (generator w)).
Proof. reflexivity. Qed.

(** The object after a call is the object before it with some of the
    writes of that call applied. *)
Lemma exec_writes (c : Call) (w : World) :
  exists ws, self (exec c w) = apply_writes ws (self w)
             /\ forallb (may_write c) ws = true.
Proof.
  destruct c; cbn [exec].
  - exists []. auto.
  - rewrite update_distribution_self.
    destruct (distribution_for (self w) obs) as [d|e];
      [exists [WDistribution d] | exists []]; auto.
  - rewrite act_self.
    destruct (next_distribution (self w) obs) as [d|e];
      [exists [WDistribution d] | exists []]; auto.
  - rewrite act_inference_eq. exists []. auto.
  - rewrite evaluate_eq. exists []. auto.
  - exists []. auto.
  - exists []. auto.
  - exists []. auto.
  - rewrite action_mean_eq. exists []. auto.
  - rewrite action_std_eq. exists []. auto.
  - exists [WTrain mode]. auto.
  - rewrite update_normalization_self.
    destruct (student_obs_normalization (self w)); [|exists []; auto].
    destruct (routed (obs_groups (self w)) "policy" obs) as [x|e];
      [exists [WUpdate x] | exists []]; auto.
  - destruct (any_key_contains "actor" state_dict) eqn:Ha.
    + rewrite (load_state_dict_policy_eq _ _ _ Ha). cbv zeta.
      destruct (load_outcome (mlp_state (teacher (self w))) (fst (remap state_dict)) strict).
      * exists [WTeacherLoad (fst (remap state_dict)) strict]. auto.
      * destruct (load_outcome (norm_state (teacher_obs_normalizer (self w)))
                             (snd (remap state_dict)) strict).
        -- exists [WTeacherLoad (fst (remap state_dict)) strict;
                   WTeacherNormalizerLoad (snd (remap state_dict)) strict]. auto.
        -- exists [WTeacherLoad (fst (remap state_dict)) strict;
                   WTeacherNormalizerLoad (snd (remap state_dict)) strict;
                   WLoadedEval]. auto.
    + destruct (any_key_contains "student" state_dict) eqn:Hs.
      * rewrite (load_state_dict_distillation_eq _ _ _ Ha Hs).
        destruct (load_outcome (state_dict_of (self w)) state_dict strict).
        -- exists [WModuleLoaded state_dict]. auto.
        -- exists [WModuleLoaded state_dict; WLoadedEval]. auto.
      * unfold load_state_dict. rewrite Ha, Hs. exists []. auto.
Qed.

(** An observation that no permitted write changes is kept by the calls. *)
Lemma run_keeps {X} (f : Self -> X) (permitted : Call -> bool) :
  (forall c wr s, permitted c = true -> may_write c wr = true ->
                  f (apply_write wr s) = f s) ->
  forall calls w,
    forallb permitted calls = true -> f (self (run calls w)) = f (self w).
Proof.
  intros H calls. induction calls as [|c calls IH]; intros w Hp; [reflexivity|].
  simpl in Hp. apply andb_prop in Hp. destruct Hp as [Hc Hcalls].
  cbn [run fold_left]. fold (run calls (exec c w)). rewrite (IH _ Hcalls).
  destruct (exec_writes c w) as (ws & -> & Hws).
  clear -H Hc Hws. revert Hws. generalize (self w) as s.
  induction ws as [|wr ws IHw]; intros s Hws; [reflexivity|].
  simpl in Hws. apply andb_prop in Hws. destruct Hws as [Hwr Hws].
  unfold apply_writes. cbn [fold_left]. fold (apply_writes ws (apply_write wr s)).
  rewrite (IHw _ Hws). apply (H c); assumption.
Qed.

(** A property that every permitted write preserves holds after the calls. *)
Lemma run_preserves (P : Self -> Prop) (permitted : Call -> bool) :
  (forall c wr s, permitted c = true -> may_write c wr = true ->
                  P s -> P (apply_write wr s)) ->
  forall calls w,
    forallb permitted calls = true -> P (self w) -> P (self (run calls w)).
Proof.
  intros H calls. induction calls as [|c calls IH]; intros w Hp Hw; [exact Hw|].
  simpl in Hp. apply andb_prop in Hp. destruct Hp as [Hc Hcalls].
  cbn [run fold_left]. fold (run calls (exec c w)). apply (IH _ Hcalls).
  destruct (exec_writes c w) as (ws & -> & Hws).
  clear -H Hc Hws Hw. revert Hws Hw. generalize (self w) as s.
  induction ws as [|wr ws IHw]; intros s Hws Hs; [exact Hs|].
  simpl in Hws. apply andb_prop in Hws. destruct Hws as [Hwr Hws].
  unfold apply_writes. cbn [fold_left]. fold (apply_writes ws (apply_write wr s)).
  apply (IHw _ Hws). apply (H c); assumption.
Qed.

End Writes.

(** ** Invariants of an instance over its calls *)

Section Lifecycle.

Context {collab : Collaborators}.

(** The attributes of a fresh instance *)
Lemma __init___state
      obs groups num_actions sn tn sh th activation c ty kwargs g s g' :
  __init__ obs groups num_actions sn tn sh th activation c ty kwargs g = (Ok s, g') ->
  loaded_teacher s = false
  /\ distribution s = None
  /\ mlp_training (teacher s) = false
  /\ obs_groups s = groups
  /\ (student_obs_normalization s, teacher_obs_normalization s) = (sn, tn)
  /\ (is_empirical (student_obs_normalizer s), is_empirical (teacher_obs_normalizer s))
     = (sn, tn)
  /\ noise_std_type s = ty
  /\ (ty = "scalar" ->
      std s = Some (scale_by c (ones num_actions)))
  /\ (ty = "log" ->
      log_std s = Some (log (scale_by c (ones num_actions)))).
Proof.
  unfold __init__, bind, lift, ret, raise.
  destruct (getitem groups "policy"); [|discriminate].
  destruct (count_obs obs a 0); [|discriminate].
  destruct (getitem groups "teacher"); [|discriminate].
  destruct (count_obs obs a1 0); [|discriminate].
  destruct (MLP_init a0 num_actions sh activation g) as [p1 g1].
  destruct (MLP_init a2 num_actions th activation g1) as [p2 g2].
  destruct (String.eqb_spec ty "scalar") as [->|Hs].
  - intros H; inversion H; subst; cbn.
    repeat split; try (destruct sn, tn; reflexivity). discriminate.
  - destruct (String.eqb_spec ty "log") as [->|Hl]; [|discriminate].
    intros H; inversion H; subst; cbn.
    repeat split; try (destruct sn, tn; reflexivity). discriminate.
Qed.

Lemma is_empirical_update (n : Normalizer) (x : Tensor) :
  is_empirical (snd (Normalizer_update n x)) = is_empirical n.
Proof.
  unfold Normalizer_update, is_empirical. destruct (norm_kind n) eqn:E; simpl.
  - rewrite E. reflexivity.
  - destruct (EmpiricalNormalization_update buffers (norm_training n) x). reflexivity.
Qed.

Lemma is_empirical_with_state (n : Normalizer) (st : Dict.t Tensor) :
  is_empirical (Normalizer_with_state n st) = is_empirical n.
Proof. destruct n as [[|b] tr]; reflexivity. Qed.

Lemma load_parameter_shape (name : string) (sd : Dict.t Tensor) (p : option Tensor) :
  option_map shape (load_parameter name sd p) = option_map shape p.
Proof.
  destruct p as [old|]; [|reflexivity]. simpl. f_equal.
  apply (load_entry_shape EmptyString sd (name, old)).
Qed.

Lemma Module_loaded_architecture (sd : Dict.t Tensor) (s : Self) :
  architecture (Module_loaded sd s) = architecture s.
Proof.
  unfold Module_loaded, Module_load, bind, load_std, load_log_std, load_student,
    load_student_obs_normalizer, load_teacher, load_teacher_obs_normalizer.
  repeat match goal with
         | |- context [raise_if ?a] => destruct (raise_if a); cbn [fst snd]
         end;
    unfold architecture; cbn;
    rewrite ?is_empirical_with_state, ?norm_state_with_state, ?names_and_shapes_load,
      ?load_parameter_shape; reflexivity.
Qed.

Lemma apply_write_architecture (wr : Write) (s : Self) :
  architecture (apply_write wr s) = architecture s.
Proof.
  destruct wr; try apply Module_loaded_architecture; unfold architecture; cbn.
  - reflexivity.
  - rewrite is_empirical_update. reflexivity.
  - reflexivity.
  - rewrite names_and_shapes_load. reflexivity.
  - rewrite is_empirical_with_state, norm_state_with_state, names_and_shapes_load.
    reflexivity.
  - reflexivity.
Qed.

Lemma forallb_true {A} (l : list A) : forallb (fun _ => true) l = true.
Proof. induction l; simpl; auto. Qed.

Lemma run_architecture (calls : list Call) (w : World) :
  architecture (self (run calls w)) = architecture (self w).
Proof.
  apply (run_keeps architecture (fun _ => true)).
  - intros c wr s _ _. apply apply_write_architecture.
  - apply forallb_true.
Qed.

(** X4.  No call changes what was fixed at construction: after any
    sequence of calls, the groups, the two normalization flags, the noise
    mode, the kind of either normalization slot, and the names and shapes
    of the parameters of both approximators, of the teacher normalizer and
    of the noise parameter are those of before.  A checkpoint load writes
    values, never names or shapes. *)
Theorem architecture_is_fixed (calls : list Call) (w : World) :
  architecture (self (run calls w)) = architecture (self w).
Proof.
  revert w. induction calls as [|c calls IH]; intros w; [reflexivity|].
  cbn [run fold_left]. fold (run calls (exec c w)). rewrite IH.
  destruct (exec_writes c w) as (ws & -> & _).
  generalize (self w) as s. induction ws as [|wr ws IHw]; intros s; [reflexivity|].
  unfold apply_writes. cbn [fold_left]. fold (apply_writes ws (apply_write wr s)).
  rewrite IHw. apply apply_write_architecture.
Qed.

Lemma apply_write_teacher_eval (wr : Write) (s : Self) :
  mlp_training (teacher s) = false -> mlp_training (teacher (apply_write wr s)) = false.
Proof.
  destruct wr; cbn; auto.
  pose proof (proj2 (Module_loaded_frame state_dict s)) as F. cbv zeta in F.
  inversion F as [[F1 F2 F3 F4]]. congruence.
Qed.

Lemma Constructed_teacher_eval (w : World) :
  Constructed w -> mlp_training (teacher (self w)) = false.
Proof.
  induction 1 as [obs groups n sn tn sh th a c ty kw g s g' H | c w _ IH].
  - apply __init___state in H. apply H.
  - destruct (exec_writes c w) as (ws & -> & _).
    revert IH. generalize (self w) as s.
    induction ws as [|wr ws IHw]; intros s Hs; [exact Hs|].
    apply IHw. apply apply_write_teacher_eval. exact Hs.
Qed.

(** X5.  On an instance that [__init__] returned, after any calls of its
    methods, returned or raised, the teacher approximator is in evaluation
    mode: [__init__] puts it there, and [train] and [load_state_dict] put
    it back. *)
Theorem teacher_always_in_eval (w : World) :
  Constructed w -> mlp_training (teacher (self w)) = false.
Proof.
  induction 1 as [obs groups n sn tn sh th a c ty kw g s g' H | c w _ IH].
  - apply __init___state in H. apply H.
  - destruct (exec_writes c w) as (ws & -> & _).
    revert IH. generalize (self w) as s.
    induction ws as [|wr ws IHw]; intros s Hs; [exact Hs|].
    unfold apply_writes. cbn [fold_left]. fold (apply_writes ws (apply_write wr s)).
    apply IHw. apply apply_write_teacher_eval. exact Hs.
Qed.

Lemma apply_write_teacher_view (c : Call) (wr : Write) (s : Self) :
  is_load_call c = false -> may_write c wr = true ->
  mlp_training (teacher s) = false ->
  teacher_view (apply_write wr s) = teacher_view s.
Proof.
  intros Hc Hw Ht. destruct c; try discriminate; destruct wr; try discriminate;
    unfold teacher_view; cbn; try reflexivity.
  destruct (teacher s) as [st tr]. simpl in *. subst tr. reflexivity.
Qed.

Lemma teacher_output_view (s1 s2 : Self) (obs : Dict.t Tensor) :
  teacher_view s1 = teacher_view s2 -> teacher_output s1 obs = teacher_output s2 obs.
Proof.
  unfold teacher_view, teacher_output, Normalizer_forward.
  intros H. inversion H as [[H1 H2 H3]]. rewrite H1, H2, H3. reflexivity.
Qed.

(** X6.  The teacher is frozen between loads: on an instance that
    [__init__] returned, a sequence of calls without [load_state_dict]
    leaves the teacher approximator and the statistics of the teacher
    normalizer as they were, and [evaluate] returns the same for every
    observation mapping after the sequence as before it. *)
Theorem teacher_frozen_between_loads (calls : list Call) (w : World) :
  Constructed w ->
  forallb (fun c => negb (is_load_call c)) calls = true ->
  teacher (self (run calls w)) = teacher (self w)
  /\ norm_state (teacher_obs_normalizer (self (run calls w)))
     = norm_state (teacher_obs_normalizer (self w))
  /\ forall obs, fst (evaluate obs (run calls w)) = fst (evaluate obs w).
Proof.
  intros HC Hcalls. apply Constructed_teacher_eval in HC.
  assert (V : teacher_view (self (run calls w)) = teacher_view (self w)
              /\ mlp_training (teacher (self (run calls w))) = false).
  { revert w HC. induction calls as [|c calls IH]; intros w HC; [auto|].
    simpl in Hcalls. apply andb_prop in Hcalls. destruct Hcalls as [Hc Hcalls].
    apply negb_true_iff in Hc.
    cbn [run fold_left]. fold (run calls (exec c w)).
    assert (E : teacher_view (self (exec c w)) = teacher_view (self w)
                /\ mlp_training (teacher (self (exec c w))) = false).
    { destruct (exec_writes c w) as (ws & -> & Hws).
      revert Hws HC. generalize (self w) as s.
      induction ws as [|wr ws IHw]; intros s Hws Hs; [auto|].
      simpl in Hws. apply andb_prop in Hws. destruct Hws as [Hwr Hws].
      unfold apply_writes. cbn [fold_left]. fold (apply_writes ws (apply_write wr s)).
      destruct (IHw (apply_write wr s) Hws (apply_write_teacher_eval wr s Hs)) as [E1 E2].
      split; [|exact E2]. rewrite E1. apply (apply_write_teacher_view c); assumption. }
    destruct E as [E1 E2]. destruct (IH Hcalls (exec c w) E2) as [I1 I2].
    split; [congruence | exact I2]. }
  destruct V as [V _]. assert (V' := V). unfold teacher_view in V'.
  inversion V' as [[V1 V2 V3]].
  split; [reflexivity|]. split.
  - unfold norm_state. rewrite V3. reflexivity.
  - intros obs. rewrite !evaluate_eq. cbn [fst].
    apply (teacher_output_view _ _ obs V).
Qed.

Lemma apply_write_loaded_teacher (c : Call) (wr : Write) (s : Self) :
  is_load_call c = false -> may_write c wr = true ->
  loaded_teacher (apply_write wr s) = loaded_teacher s.
Proof.
  intros Hc Hw. destruct c; try discriminate; destruct wr; try discriminate; reflexivity.
Qed.

Lemma apply_write_distribution (c : Call) (wr : Write) (s : Self) :
  is_distribution_call c = false -> may_write c wr = true ->
  distribution (apply_write wr s) = distribution s.
Proof.
  intros Hc Hw. destruct c; try discriminate; destruct wr; try discriminate;
    try reflexivity.
  apply Module_loaded_distribution.
Qed.

(** X7.  A fresh instance has no action distribution, and only [act] and
    [update_distribution] store one: after [__init__] and any sequence of
    other calls, reading [action_mean], [action_std] or [entropy] raises the
    [AttributeError] of [torch.nn.Module.__getattr__], which names the
    property that was read, and leaves the object as it is. *)
Theorem properties_need_a_distribution
        obs groups num_actions sn tn sh th activation c ty kwargs g s g'
        (calls : list Call) :
  __init__ obs groups num_actions sn tn sh th activation c ty kwargs g = (Ok s, g') ->
  forallb (fun c => negb (is_distribution_call c)) calls = true ->
  let w := run calls (mkWorld s g') in
  action_mean w = (Err (AttributeError "action_mean"), w)
  /\ action_std w = (Err (AttributeError "action_std"), w)
  /\ entropy w = (Err (AttributeError "entropy"), w).
Proof.
  intros Hi Hcalls w.
  assert (D : distribution (self w) = None).
  { unfold w.
    rewrite (run_keeps distribution (fun c => negb (is_distribution_call c))).
    - apply __init___state in Hi. apply Hi.
    - intros c0 wr s0 Hc Hw. apply negb_true_iff in Hc.
      apply (apply_write_distribution c0); assumption.
    - exact Hcalls. }
  rewrite action_mean_eq, action_std_eq, entropy_eq, D. auto.
Qed.

End Lifecycle.

(** ** Inference *)

Section Inference.

Context {collab : Collaborators}.



End Inference.

(** ** The action head *)

Lemma expand_as_shape (p other out : Tensor) :
  expand_as p other = Ok out -> shape out = shape other.
Proof.
  unfold expand_as.
  destruct (shape p) as [|a [|a' sh]]; destruct (shape other) eqn:E;
    try discriminate.
  destruct (a =? last_dim other)%nat.
  - intros H; inversion H; subst; simpl; congruence.
  - destruct (a =? 1)%nat; [|discriminate].
    intros H; inversion H; subst; simpl; congruence.
Qed.

(** [expand_as] reads the shape of its target, not its entries. *)
Lemma expand_as_target_shape (p o1 o2 : Tensor) :
  shape o1 = shape o2 ->
  match expand_as p o1, expand_as p o2 with
  | Ok t1, Ok t2 => t1 = t2
  | Err e1, Err e2 => e1 = e2
  | _, _ => False
  end.
Proof.
  intros H. unfold expand_as, last_dim, lead_dims. rewrite H.
  destruct (shape p) as [|a [|a' sh]]; destruct (shape o2); try reflexivity.
  destruct (a =? last (n :: l) 0)%nat; [reflexivity|].
  destruct (a =? 1)%nat; reflexivity.
Qed.

Lemma Forall_tile (P : R -> Prop) (n : nat) (rw : list R) :
  Forall P rw -> Forall P (tile n rw).
Proof.
  intros H. induction n as [|n IH]; simpl; [constructor|].
  apply Forall_app. split; assumption.
Qed.

Section ActionHead.

Context {collab : Collaborators}.

Lemma noise_std_shape (s : Self) (mean_ std_ : Tensor) :
  noise_std s mean_ = Ok std_ -> shape std_ = shape mean_.
Proof.
  unfold noise_std.
  destruct (noise_std_type s =? "scalar").
  - destruct (getattr "std" (std s)); [|discriminate]. apply expand_as_shape.
  - destruct (noise_std_type s =? "log"); [|discriminate].
    destruct (getattr "log_std" (log_std s)); [|discriminate]. apply expand_as_shape.
Qed.

Lemma act_inference_student_mean (obs : Dict.t Tensor) (w : World) :
  act_inference obs w = (student_mean (self w) obs, w).
Proof. rewrite act_inference_eq. reflexivity. Qed.

(** X8.  After [act] has returned, [action_mean] is what [act_inference]
    returns for the same mapping, before the call and after it, and
    [action_std] has the shape of that mean; nothing of the object but the
    stored distribution has changed. *)
Theorem act_then_read (obs : Dict.t Tensor) (w w' : World) (x : Tensor) :
  act obs w = (Ok x, w') ->
  exists mean_ std_,
    act_inference obs w = (Ok mean_, w)
    /\ act_inference obs w' = (Ok mean_, w')
    /\ action_mean w' = (Ok mean_, w')
    /\ action_std w' = (Ok std_, w')
    /\ shape std_ = shape mean_
    /\ self w' = set_distribution (Some (mkNormal mean_ std_)) (self w).
Proof.
  rewrite act_self. unfold next_distribution, distribution_for.
  rewrite !act_inference_student_mean. unfold student_mean.
  destruct (routed (obs_groups (self w)) "policy" obs) as [r|e] eqn:Hr;
    [|discriminate].
  destruct (Normalizer_forward (student_obs_normalizer (self w)) r) as [y|e] eqn:Hy;
    [|discriminate].
  destruct (MLP_forward (student (self w)) y) as [mean_|e] eqn:Hm; [|discriminate].
  destruct (noise_std (self w) mean_) as [std_|e] eqn:Hs; [|discriminate].
  intros H. inversion H as [[H1 H2]]. exists mean_, std_.
  cbn [self set_distribution obs_groups student_obs_normalizer student].
  rewrite Hr, Hy, Hm.
  repeat split. apply (noise_std_shape _ _ _ Hs).
Qed.

(** X9.  What [act] stores depends on the observations and the student
    side only, not on the generator or on the distribution stored before:
    the object after [act] is the same from any generator, and calling
    [act] again with the same mapping leaves the object as the first call
    left it, so that [action_mean] and [action_std] read the same after
    each call. *)
Theorem act_stores_the_same (obs : Dict.t Tensor) (w : World) :
  (forall g, self (snd (act obs (mkWorld (self w) g))) = self (snd (act obs w)))
  /\ self (snd (act obs (snd (act obs w)))) = self (snd (act obs w))
  /\ fst (action_mean (snd (act obs (snd (act obs w)))))
     = fst (action_mean (snd (act obs w)))
  /\ fst (action_std (snd (act obs (snd (act obs w)))))
     = fst (action_std (snd (act obs w))).
Proof.
  assert (A : forall v, self (snd (act obs v))
                        = match next_distribution (self v) obs with
                          | Ok d => set_distribution (Some d) (self v)
                          | Err _ => self v
                          end).
  { intros v. rewrite act_self. destruct (next_distribution (self v) obs); reflexivity. }
  assert (N : forall d s, next_distribution (set_distribution d s) obs
                          = next_distribution s obs) by reflexivity.
  assert (S2 : self (snd (act obs (snd (act obs w)))) = self (snd (act obs w))).
  { rewrite (A (snd (act obs w))), (A w).
    destruct (next_distribution (self w) obs) as [d|e] eqn:E.
    - rewrite N, E. reflexivity.
    - rewrite E. reflexivity. }
  split; [|split; [exact S2|]].
  - intros g. rewrite !A. reflexivity.
  - rewrite !action_mean_eq, !action_std_eq. cbn [fst]. rewrite S2.
    split; reflexivity.
Qed.

(** X10.  The standard deviation is independent of the input: for two
    student inputs whose means have the same shape, [action_std] after
    [update_distribution] is the same (or the same error is raised). *)
Theorem action_std_ignores_the_input (x1 x2 mean1 mean2 : Tensor) (w : World) :
  MLP_forward (student (self w)) x1 = Ok mean1 ->
  MLP_forward (student (self w)) x2 = Ok mean2 ->
  shape mean1 = shape mean2 ->
  fst ((update_distribution x1 ;;; action_std) w)
  = fst ((update_distribution x2 ;;; action_std) w).
Proof.
  intros H1 H2 Hs. unfold bind. rewrite !update_distribution_self.
  unfold distribution_for. rewrite H1, H2.
  assert (E : noise_std (self w) mean1 = noise_std (self w) mean2).
  { unfold noise_std.
    destruct (noise_std_type (self w) =? "scalar").
    - destruct (getattr "std" (std (self w))) as [p|]; [|reflexivity].
      pose proof (expand_as_target_shape p mean1 mean2 Hs) as T.
      destruct (expand_as p mean1), (expand_as p mean2); try contradiction; congruence.
    - destruct (noise_std_type (self w) =? "log"); [|reflexivity].
      destruct (getattr "log_std" (log_std (self w))) as [p|]; [|reflexivity].
      pose proof (expand_as_target_shape (exp p) mean1 mean2 Hs) as T.
      destruct (expand_as (exp p) mean1), (expand_as (exp p) mean2);
        try contradiction; congruence. }
  rewrite E. destruct (noise_std (self w) mean2); reflexivity.
Qed.

(** X11.  In ["log"] mode no entry of [action_std] is negative, whatever
    the value of [log_std]; and every entry is strictly positive when the
    entries of [log_std] are in the range in which [torch.exp] neither
    underflows nor overflows. *)
Theorem log_mode_std_is_positive (x : Tensor) (w w' : World) (q std_ : Tensor) :
  noise_std_type (self w) = "log" ->
  log_std (self w) = Some q ->
  (update_distribution x ;;; action_std) w = (Ok std_, w') ->
  Forall (fun v => (0 <= v)%R) (data std_)
  /\ (Forall exp_is_normal (data q) -> Forall (fun v => (0 < v)%R) (data std_)).
Proof.
  intros Hty Hq. unfold bind. rewrite update_distribution_self.
  unfold distribution_for, noise_std. rewrite Hty, Hq.
  cbn [String.eqb Ascii.eqb Bool.eqb getattr].
  destruct (MLP_forward (student (self w)) x) as [mean_|e]; [|discriminate].
  destruct (expand_as (exp q) mean_) as [t|e] eqn:E; [|discriminate].
  rewrite action_std_eq. cbn.
  intros H. inversion H; subst. clear H.
  assert (T : forall P : R -> Prop, Forall P (data (exp q)) -> Forall P (data std_)).
  { intros P HP. unfold expand_as in E.
    destruct (shape (exp q)) as [|a [|a' sh]]; destruct (shape mean_); try discriminate.
    destruct (a =? last_dim mean_)%nat.
    - inversion E; subst. simpl. apply Forall_tile. exact HP.
    - destruct (a =? 1)%nat; [|discriminate].
      inversion E; subst. simpl. apply Forall_tile. exact HP. }
  split.
  - apply T. unfold exp. simpl. apply Forall_forall. intros v Hv.
    apply in_map_iff in Hv. destruct Hv as (u & <- & _).
    apply Rlt_le. apply exp_pos.
  - intros Hr. apply T. unfold exp. simpl. apply Forall_forall. intros v Hv.
    apply in_map_iff in Hv. destruct Hv as (u & <- & Hu).
    rewrite Forall_forall in Hr. destruct (Hr u Hu) as [L _].
    apply Rlt_le_trans with (r2 := Rtrigo_def.exp (-87)); [apply exp_pos|].
    destruct L as [L|L]; [left; apply exp_increasing; exact L | right; rewrite L; reflexivity].
Qed.

End ActionHead.

(** ** When the action head accepts the student output *)

Section HeadWidth.

Context {collab : Collaborators}.

(** The noise parameter of the mode *)
Lemma noise_std_expand (s : Self) (mean_ p : Tensor) (n : nat) :
  (noise_std_type s = "scalar" /\ std s = Some p
   \/ noise_std_type s = "log" /\ log_std s = Some p) ->
  shape p = [n] ->
  is_ok (noise_std s mean_) = true
  <-> ndim mean_ <> 0 /\ (last_dim mean_ = n \/ n = 1).
Proof.
  intros Hp Hs.
  assert (E : forall q, shape q = [n] ->
                is_ok (expand_as q mean_) = true
                <-> ndim mean_ <> 0 /\ (last_dim mean_ = n \/ n = 1)).
  { intros q Hq. unfold expand_as, ndim. rewrite Hq.
    destruct (shape mean_) as [|d l] eqn:Em; simpl.
    - split; [discriminate | intros [H _]; congruence].
    - destruct (Nat.eqb_spec n (last_dim mean_)) as [->|Hn]; simpl.
      + split; [intros _; split; [discriminate | auto] | reflexivity].
      + destruct (Nat.eqb_spec n 1) as [->|H1]; simpl.
        * split; [intros _; split; [discriminate | auto] | reflexivity].
        * split; [discriminate|]. intros [_ [H|H]]; congruence. }
  unfold noise_std. destruct Hp as [[Ht Hv] | [Ht Hv]]; rewrite Ht, Hv; simpl.
  - apply E. exact Hs.
  - apply E. unfold exp. simpl. exact Hs.
Qed.

(** X12.  On an instance built for [num_actions] actions, after any calls
    (checkpoint loads included), [update_distribution] returns exactly
    when the student approximator returns a tensor of at least one
    dimension whose last dimension is [num_actions] (any last dimension
    when [num_actions] is one); the noise parameter is always there and
    keeps its shape [(num_actions,)]. *)
Theorem update_distribution_returns_iff
        obs groups num_actions sn tn sh th activation c ty kwargs g s g'
        (calls : list Call) (x : Tensor) :
  __init__ obs groups num_actions sn tn sh th activation c ty kwargs g = (Ok s, g') ->
  let w := run calls (mkWorld s g') in
  is_ok (fst (update_distribution x w)) = true
  <-> exists mean_,
        MLP_forward (student (self w)) x = Ok mean_
        /\ ndim mean_ <> 0
        /\ (last_dim mean_ = num_actions \/ num_actions = 1).
Proof.
  intros Hi w.
  pose proof (__init___state _ _ _ _ _ _ _ _ _ _ _ _ _ _ Hi)
    as (_ & _ & _ & _ & _ & _ & Hty & Hsc & Hlg).
  pose proof (__init___noise_mode _ _ _ _ _ _ _ _ _ _ _ _ _ _ Hi) as [_ Hmode].
  pose proof (run_architecture calls (mkWorld s g')) as A. fold w in A.
  unfold architecture in A. cbn [self] in A.
  inversion A as [[A1 A2 A3 A4 A5 A6 A7 A8 A9 A10 A11]]. clear A.
  assert (P : exists p,
             (noise_std_type (self w) = "scalar" /\ std (self w) = Some p
              \/ noise_std_type (self w) = "log" /\ log_std (self w) = Some p)
             /\ shape p = [num_actions]).
  { rewrite A4, Hty. destruct Hmode as [-> | ->].
    - rewrite (Hsc eq_refl) in A10. simpl in A10.
      destruct (std (self w)) as [p|]; [|discriminate].
      inversion A10. exists p. auto.
    - rewrite (Hlg eq_refl) in A11. simpl in A11.
      destruct (log_std (self w)) as [p|]; [|discriminate].
      inversion A11. exists p. auto. }
  destruct P as (p & Hp & Hs).
  rewrite update_distribution_self. unfold distribution_for.
  destruct (MLP_forward (student (self w)) x) as [mean_|e]; cbn.
  - pose proof (noise_std_expand (self w) mean_ p num_actions Hp Hs) as N.
    destruct (noise_std (self w) mean_); cbn in *.
    + split; [intros _ | reflexivity]. exists mean_. split; [reflexivity|].
      apply N. reflexivity.
    + split; [discriminate|]. intros (m & Hm & H). inversion Hm; subst m.
      apply N. exact H.
  - split; [discriminate|]. intros (m & Hm & _). discriminate.
Qed.

End HeadWidth.

(** ** Entropy *)

Lemma map_tile (f : R -> R) (n : nat) (rw : list R) :
  map f (tile n rw) = tile n (map f rw).
Proof.
  induction n as [|n IH]; simpl; [reflexivity|]. rewrite map_app, IH. reflexivity.
Qed.

Lemma row_sums_tile (n a : nat) (rw : list R) :
  length rw = a ->
  row_sums n a (tile n rw) = repeat (fold_right Rplus 0%R rw) n.
Proof.
  intros H. subst a. induction n as [|n IH]; simpl; [reflexivity|].
  rewrite firstn_app, skipn_app, Nat.sub_diag, firstn_all, skipn_all.
  simpl. rewrite app_nil_r, IH. reflexivity.
Qed.

Lemma sum_last_rows (t : Tensor) (lead : list nat) (a : nat) :
  shape t = (lead ++ [a])%list ->
  sum_last t = mkTensor lead (row_sums (numel lead) a (data t)).
Proof.
  intros H. unfold sum_last, lead_dims, last_dim. rewrite H.
  rewrite removelast_last, last_last.
  destruct lead; reflexivity.
Qed.

Lemma expand_as_last_dim (p other : Tensor) (lead : list nat) (a : nat) :
  shape p = [a] -> shape other = (lead ++ [a])%list ->
  expand_as p other = Ok (mkTensor (lead ++ [a]) (tile (numel lead) (data p))).
Proof.
  intros Hp Ho. unfold expand_as, last_dim, lead_dims. rewrite Hp, Ho.
  rewrite removelast_last, last_last, Nat.eqb_refl.
  destruct lead; reflexivity.
Qed.

(** The entropy of one Gaussian in closed form *)
Lemma entropy_of_closed_form (sigma : R) :
  (0 < sigma)%R ->
  entropy_of sigma = (1 / 2 * ln (2 * PI * Rtrigo_def.exp 1 * (sigma * sigma)))%R.
Proof.
  intros H. unfold entropy_of.
  assert (P2 : (0 < 2 * PI)%R) by (pose proof PI_RGT_0; lra).
  assert (PE : (0 < Rtrigo_def.exp 1)%R) by apply exp_pos.
  assert (PS : (0 < sigma * sigma)%R) by (apply Rmult_lt_0_compat; assumption).
  rewrite (ln_mult (2 * PI * Rtrigo_def.exp 1) (sigma * sigma));
    [| apply Rmult_lt_0_compat; assumption | assumption].
  rewrite (ln_mult (2 * PI) (Rtrigo_def.exp 1)) by assumption.
  rewrite (ln_mult sigma sigma) by assumption.
  rewrite ln_exp. lra.
Qed.

Section Entropy.

Context {collab : Collaborators}.

Lemma entropy_after_update (x mean_ p : Tensor) (w : World) (lead : list nat) (a : nat) :
  MLP_forward (student (self w)) x = Ok mean_ ->
  shape mean_ = (lead ++ [a])%list ->
  shape p = [a] -> length (data p) = a ->
  noise_std (self w) mean_ = expand_as p mean_ ->
  fst ((update_distribution x ;;; entropy) w)
  = Ok (mkTensor lead
          (repeat (fold_right Rplus 0%R (map entropy_of (data p))) (numel lead))).
Proof.
  intros Hm Hsh Hp Hl Hn. unfold bind. rewrite update_distribution_self.
  unfold distribution_for. rewrite Hm, Hn, (expand_as_last_dim p mean_ lead a Hp Hsh).
  unfold entropy, bind, getself, gets, lift, ret. cbn.
  rewrite (sum_last_rows _ lead a) by reflexivity. cbn.
  rewrite map_tile, row_sums_tile by (rewrite length_map; exact Hl). reflexivity.
Qed.

(** X13.  In ["scalar"] mode with positive standard deviations, [entropy]
    after [update_distribution] has one entry per batch row, and every
    entry is the closed form [sum_i 1/2 * ln (2 * pi * e * std_i^2)]: it
    depends on the noise parameter only, not on the observations. *)
Theorem entropy_scalar_mode
        (x mean_ p : Tensor) (w : World) (lead : list nat) (a : nat) :
  noise_std_type (self w) = "scalar" -> std (self w) = Some p ->
  shape p = [a] -> length (data p) = a ->
  Forall (fun v => (0 < v)%R) (data p) ->
  MLP_forward (student (self w)) x = Ok mean_ ->
  shape mean_ = (lead ++ [a])%list ->
  fst ((update_distribution x ;;; entropy) w)
  = Ok (mkTensor lead
          (repeat
             (fold_right Rplus 0%R
                (map (fun v => (1 / 2 * ln (2 * PI * Rtrigo_def.exp 1 * (v * v)))%R)
                     (data p)))
             (numel lead))).
Proof.
  intros Hty Hstd Hp Hl Hpos Hm Hsh.
  rewrite (entropy_after_update x mean_ p w lead a Hm Hsh Hp Hl).
  - do 4 f_equal. apply map_ext_in. intros v Hv. apply entropy_of_closed_form.
    rewrite Forall_forall in Hpos. apply Hpos. exact Hv.
  - unfold noise_std. rewrite Hty, Hstd. reflexivity.
Qed.

(** X14.  In ["log"] mode, for [log_std] in the range in which
    [torch.exp] neither underflows nor overflows, [entropy] after
    [update_distribution] has one entry per batch row, and every entry is
    [sum_i (1/2 + 1/2 * ln (2 * pi) + log_std_i)]: affine in the
    parameter and independent of the observations. *)
Theorem entropy_log_mode
        (x mean_ q : Tensor) (w : World) (lead : list nat) (a : nat) :
  noise_std_type (self w) = "log" -> log_std (self w) = Some q ->
  shape q = [a] -> length (data q) = a ->
  Forall exp_is_normal (data q) ->
  MLP_forward (student (self w)) x = Ok mean_ ->
  shape mean_ = (lead ++ [a])%list ->
  fst ((update_distribution x ;;; entropy) w)
  = Ok (mkTensor lead
          (repeat
             (fold_right Rplus 0%R
                (map (fun v => (1 / 2 + 1 / 2 * ln (2 * PI) + v)%R) (data q)))
             (numel lead))).
Proof.
  intros Hty Hlog Hq Hl Hr Hm Hsh.
  rewrite (entropy_after_update x mean_ (exp q) w lead a Hm Hsh).
  - do 4 f_equal. unfold exp. simpl. rewrite map_map.
    apply map_ext. intros v. unfold entropy_of. rewrite ln_exp. reflexivity.
  - unfold exp. simpl. exact Hq.
  - unfold exp. simpl. rewrite length_map. exact Hl.
  - unfold noise_std. rewrite Hty, Hlog. reflexivity.
Qed.

End Entropy.

(** ** Checkpoint loading: outcome, provenance, unused entries *)

Lemma load_outcome_empty (own : Dict.t Tensor) (strict : bool) :
  load_outcome own [] strict
  = if strict then
      match Dict.keys own with
      | [] => None
      | _ :: _ => Some (LoadStateDictError (Dict.keys own) [] [])
      end
    else None.
Proof.
  unfold load_outcome, load_error. rewrite load_abort_empty.
  assert (M : mismatched_keys own [] = []).
  { unfold mismatched_keys. induction own as [|[k v] own IH]; simpl; auto. }
  assert (K : missing_keys own [] = Dict.keys own).
  { unfold missing_keys. induction (Dict.keys own) as [|k l IH]; [reflexivity|].
    cbn [filter]. unfold Dict.mem at 1. cbn. f_equal. exact IH. }
  rewrite M, K. destruct strict; [|reflexivity].
  destruct (Dict.keys own); reflexivity.
Qed.

Lemma remap_filter_from (sd : Dict.t Tensor) (acc : Dict.t Tensor * Dict.t Tensor) :
  fold_left remap_item (filter (fun item => is_actor_key (fst item)) sd) acc
  = fold_left remap_item sd acc.
Proof.
  revert acc. induction sd as [|[key value] sd IH]; intros acc; [reflexivity|].
  cbn [filter fst]. unfold is_actor_key at 1.
  destruct (Str.contains "actor." key) eqn:E1; cbn [orb].
  - cbn [fold_left]. apply IH.
  - destruct (Str.contains "actor_obs_normalizer." key) eqn:E2.
    + cbn [fold_left]. apply IH.
    + cbn [fold_left]. rewrite IH. f_equal.
      destruct acc as [t n]. unfold remap_item. rewrite E1, E2. reflexivity.
Qed.

(** The renaming loop reads the entries with an actor key only. *)
Lemma remap_filter (sd : Dict.t Tensor) :
  remap (filter (fun item => is_actor_key (fst item)) sd) = remap sd.
Proof. apply remap_filter_from. Qed.

Lemma remap_no_actor_key (sd : Dict.t Tensor) :
  forallb (fun key => negb (is_actor_key key)) (Dict.keys sd) = true ->
  remap sd = ([], []).
Proof.
  intros H. rewrite <- remap_filter.
  replace (filter (fun item => is_actor_key (fst item)) sd) with (@nil (string * Tensor));
    [reflexivity|].
  induction sd as [|[key value] sd IH]; [reflexivity|].
  simpl in H. apply andb_prop in H. destruct H as [Hk H].
  apply negb_true_iff in Hk. cbn [filter fst]. rewrite Hk. apply IH. exact H.
Qed.

Section Loading.

Context {collab : Collaborators}.

(** The errors of a load: the [IndexError] of the visit, or the
    [RuntimeError] of [torch] with the keys it names. *)
Lemma load_outcome_error (own sd : Dict.t Tensor) (strict : bool) (e : Exception) :
  load_outcome own sd strict = Some e ->
  e = IndexError \/ exists m u x, e = LoadStateDictError m u x.
Proof.
  unfold load_outcome, load_error.
  destruct (load_abort EmptyString own sd) as [e'|] eqn:A.
  - intros H. inversion H; subst. left. apply (load_abort_IndexError _ _ _ _ A).
  - destruct (if strict then missing_keys own sd else []),
             (if strict then unexpected_keys own sd else []),
             (mismatched_keys own sd); intros H; inversion H; eauto.
Qed.

(** X15.  [load_state_dict] sets [loaded_teacher] exactly when it returns:
    after the call the flag is true if the call returned or the flag was
    true before, and not otherwise.  When it returns, the teacher
    approximator and the teacher normalizer are in evaluation mode and the
    result is [False] if a key contains ["actor"], [True] if not.  It
    raises the [ValueError] exactly when no key contains ["actor"] or
    ["student"]; every other failure is the error of a rejected load: the
    [RuntimeError] of [torch] that names the keys, or the [IndexError] of
    an empty one-dimensional input for a zero-dimensional entry. *)
Theorem load_state_dict_outcome (sd : Dict.t Tensor) (strict : bool) (w : World) :
  let r := fst (load_state_dict sd strict w) in
  let s' := self (snd (load_state_dict sd strict w)) in
  loaded_teacher s' = (is_ok r || loaded_teacher (self w))
  /\ (is_ok r = true ->
      r = Ok (negb (any_key_contains "actor" sd))
      /\ mlp_training (teacher s') = false
      /\ norm_training (teacher_obs_normalizer s') = false)
  /\ (r = Err (ValueError no_parameters_msg)
      <-> any_key_contains "actor" sd = false
          /\ any_key_contains "student" sd = false)
  /\ (is_ok r = false -> r <> Err (ValueError no_parameters_msg) ->
      r = Err IndexError
      \/ exists missing unexpected mismatched,
           r = Err (LoadStateDictError missing unexpected mismatched)).
Proof.
  cbv zeta.
  assert (LE : forall own d st e, load_outcome own d st = Some e ->
                 Err (A := bool) e <> Err (ValueError no_parameters_msg)
                 /\ (Err (A := bool) e = Err IndexError
                     \/ exists m u x, Err (A := bool) e = Err (LoadStateDictError m u x))).
  { intros own d st e H. destruct (load_outcome_error _ _ _ _ H) as [->|(m & u & x & ->)].
    - split; [discriminate | left; reflexivity].
    - split; [discriminate | right; eauto]. }
  destruct (any_key_contains "actor" sd) eqn:Ha.
  - rewrite (load_state_dict_policy_eq sd strict w Ha). cbv zeta.
    destruct (load_outcome (mlp_state (teacher (self w))) (fst (remap sd)) strict)
      as [e|] eqn:E1.
    + destruct (LE _ _ _ _ E1) as [N D]. cbn.
      repeat split; try discriminate; try (intros [? _]; discriminate); auto;
        contradiction.
    + destruct (load_outcome (norm_state (teacher_obs_normalizer (self w)))
                             (snd (remap sd)) strict) as [e|] eqn:E2.
      * destruct (LE _ _ _ _ E2) as [N D]. cbn.
        repeat split; try discriminate; try (intros [? _]; discriminate); auto;
          contradiction.
      * cbn. repeat split; try discriminate; try (intros [? _]; discriminate).
  - destruct (any_key_contains "student" sd) eqn:Hs.
    + rewrite (load_state_dict_distillation_eq sd strict w Ha Hs).
      pose proof (Module_loaded_frame sd (self w)) as [F1 F2]. cbv zeta in F1, F2.
      inversion F1 as [[G1 G2 G3 G4 G5 G6 G7]]. inversion F2 as [[G8 G9 G10 G11]].
      destruct (load_outcome (state_dict_of (self w)) sd strict) as [e|] eqn:E.
      * destruct (LE _ _ _ _ E) as [N D]. cbn.
        repeat split; try discriminate; try (intros [_ ?]; discriminate); auto;
          contradiction.
      * cbn. repeat split; try discriminate; try (intros [_ ?]; discriminate).
    + unfold load_state_dict. rewrite Ha, Hs. cbn.
      repeat split; try discriminate; auto. intros _ H. congruence.
Qed.

Lemma apply_write_flag_stays (wr : Write) (s : Self) :
  loaded_teacher s = true -> loaded_teacher (apply_write wr s) = true.
Proof.
  destruct wr; cbn; auto. intros H. rewrite Module_loaded_flag. exact H.
Qed.

(** X16.  Provenance is written by [load_state_dict] alone and never
    taken back: a sequence of calls without [load_state_dict] leaves
    [loaded_teacher] as it was, and once it is true it stays true through
    any calls, failed loads included. *)
Theorem loaded_teacher_only_by_load (calls : list Call) (w : World) :
  (forallb (fun c => negb (is_load_call c)) calls = true ->
   loaded_teacher (self (run calls w)) = loaded_teacher (self w))
  /\ (loaded_teacher (self w) = true ->
      loaded_teacher (self (run calls w)) = true).
Proof.
  split.
  - apply (run_keeps loaded_teacher (fun c => negb (is_load_call c))).
    intros c wr s Hc Hw. apply negb_true_iff in Hc.
    apply (apply_write_loaded_teacher c); assumption.
  - apply (run_preserves (fun s => loaded_teacher s = true) (fun _ => true)).
    + intros c wr s _ _. apply apply_write_flag_stays.
    + apply forallb_true.
Qed.

(** X17.  In the prior-policy branch only the entries whose key contains
    ["actor."] or ["actor_obs_normalizer."] count: two mappings that both
    hold a key with ["actor"] and agree on those entries, in order, give
    the same result and the same object.  Critic and noise entries of the
    checkpoint play no part. *)
Theorem load_state_dict_reads_actor_entries
        (sd1 sd2 : Dict.t Tensor) (strict : bool) (w : World) :
  any_key_contains "actor" sd1 = true ->
  any_key_contains "actor" sd2 = true ->
  filter (fun item => is_actor_key (fst item)) sd1
  = filter (fun item => is_actor_key (fst item)) sd2 ->
  load_state_dict sd1 strict w = load_state_dict sd2 strict w.
Proof.
  intros H1 H2 Hf.
  rewrite (load_state_dict_policy_eq sd1 strict w H1),
          (load_state_dict_policy_eq sd2 strict w H2).
  rewrite <- (remap_filter sd1), <- (remap_filter sd2), Hf. reflexivity.
Qed.

Lemma set_teacher_same (s : Self) :
  set_teacher (mkMLP (mlp_state (teacher s)) (mlp_training (teacher s))) s = s.
Proof. destruct s as [? ? ? ? ? ? [? ?] ? ? ? ? ? ?]. reflexivity. Qed.

Lemma set_teacher_obs_normalizer_same (s : Self) :
  set_teacher_obs_normalizer
    (Normalizer_with_state (teacher_obs_normalizer s)
       (norm_state (teacher_obs_normalizer s))) s = s.
Proof. destruct s as [? ? ? ? ? ? ? ? [[|b] ?] ? ? ? ?]; reflexivity. Qed.

(** X18.  The branch is chosen by the text ["actor"] alone.  A mapping
    with such a key but no key containing ["actor."] or
    ["actor_obs_normalizer."] (a lone ["actor_std"], say) loads nothing:
    without [strict] the call still returns [False] and sets
    [loaded_teacher], with every teacher parameter as before; with
    [strict] and a teacher that has parameters it raises, reporting every
    teacher parameter missing, and writes nothing. *)
Theorem load_state_dict_without_actor_entries (sd : Dict.t Tensor) (w : World) :
  any_key_contains "actor" sd = true ->
  forallb (fun key => negb (is_actor_key key)) (Dict.keys sd) = true ->
  load_state_dict sd false w
  = (Ok false, mkWorld (loaded_and_eval (self w)) (generator w))
  /\ (Dict.keys (mlp_state (teacher (self w))) <> [] ->
      load_state_dict sd true w
      = (Err (LoadStateDictError (Dict.keys (mlp_state (teacher (self w)))) [] []), w)).
Proof.
  intros Ha Hk.
  rewrite !(load_state_dict_policy_eq sd _ w Ha), (remap_no_actor_key sd Hk).
  cbn [fst snd apply_write MLP_load_state_dict Normalizer_load_state_dict].
  rewrite !load_from_empty, !load_outcome_empty, set_teacher_same.
  rewrite set_teacher_obs_normalizer_same.
  split; [reflexivity|].
  intros Hne. destruct (Dict.keys (mlp_state (teacher (self w)))); [congruence|].
  destruct w; reflexivity.
Qed.

End Loading.

(** ** Checkpoint loading: repetition and round trip *)

Lemma unique_NoDup (keys : list string) : unique keys = true -> NoDup keys.
Proof.
  induction keys as [|k keys IH]; simpl; intros H; constructor.
  - apply andb_prop in H. destruct H as [H _]. apply negb_true_iff in H.
    intros Hin. assert (E : existsb (String.eqb k) keys = true).
    { apply existsb_exists. exists k. split; [exact Hin | apply String.eqb_refl]. }
    congruence.
  - apply IH. apply andb_prop in H. apply H.
Qed.

Lemma Dict_get_NoDup {V} (d : Dict.t V) (k : string) (v : V) :
  NoDup (Dict.keys d) -> In (k, v) d -> Dict.get d k = Some v.
Proof.
  induction d as [|[k0 v0] d IH]; simpl; intros Hnd Hin; [destruct Hin|].
  inversion Hnd as [|? ? Hnot Hnd']; subst.
  destruct Hin as [E|Hin].
  - inversion E; subst. rewrite String.eqb_refl. reflexivity.
  - destruct (String.eqb_spec k0 k) as [->|_].
    + exfalso. apply Hnot. apply (in_map fst) in Hin. exact Hin.
    + apply IH; assumption.
Qed.

Lemma filter_nil {A} (f : A -> bool) (l : list A) :
  (forall x, In x l -> f x = false) -> filter f l = [].
Proof.
  induction l as [|a l IH]; intros H; [reflexivity|]. simpl.
  rewrite (H a) by (left; reflexivity). apply IH. intros x Hx. apply H. right. exact Hx.
Qed.

(** A mapping with the names and shapes of the module, in its order, is
    accepted under [strict] and replaces every entry. *)
Lemma load_same_architecture (own sd : Dict.t Tensor) :
  names_and_shapes own = names_and_shapes sd ->
  NoDup (Dict.keys sd) ->
  load_from_state_dict EmptyString own sd = sd /\ load_outcome own sd true = None.
Proof.
  intros H Hnd.
  assert (G : forall own' sd', names_and_shapes own' = names_and_shapes sd' ->
                incl sd' sd ->
                load_from_state_dict EmptyString own' sd = sd'
                /\ load_abort EmptyString own' sd = None
                /\ mismatched_keys own' sd = []).
  { induction own' as [|[k v] own' IH]; intros [|[k' v'] sd'] E Hincl;
      try discriminate; [repeat split|].
    simpl in E. inversion E as [[E1 E2 E3]]. subst k'.
    assert (Hin : In (k, v') sd) by (apply Hincl; left; reflexivity).
    pose proof (Dict_get_NoDup sd k v' Hnd Hin) as Hg.
    destruct (IH sd' E3) as (I1 & I2 & I3); [intros x Hx; apply Hincl; right; exact Hx|].
    pose proof (input_param_same_shape v v' (eq_sym E2)) as IP.
    cbn [load_from_state_dict load_abort]. unfold entry_abort, mismatched_keys in *.
    cbn [filter fst snd append]. unfold load_entry. cbn [fst snd append].
    rewrite Hg, IP, E2, shape_eqb_refl. cbn. rewrite I1, I3. auto. }
  destruct (G own sd H (incl_refl sd)) as (G1 & G2 & G3). split; [exact G1|].
  assert (K : Dict.keys own = Dict.keys sd)
    by (rewrite !keys_names_and_shapes, H; reflexivity).
  assert (Mem : forall d : Dict.t Tensor, forall k, In k (Dict.keys d) -> Dict.mem d k = true).
  { intros d k Hk. unfold Dict.mem. destruct (Dict_get_In d k Hk) as [v ->]. reflexivity. }
  unfold load_outcome, load_error. rewrite G2, G3.
  replace (missing_keys own sd) with (@nil string).
  2:{ symmetry. apply filter_nil. intros k Hk. rewrite K in Hk.
      rewrite (Mem sd k Hk). reflexivity. }
  replace (unexpected_keys own sd) with (@nil string).
  2:{ symmetry. apply filter_nil. intros k Hk. rewrite <- K in Hk.
      rewrite (Mem own k Hk). reflexivity. }
  reflexivity.
Qed.

Section Reloading.

Context {collab : Collaborators}.

Lemma load_parameter_idem (name : string) (sd : Dict.t Tensor) (p : option Tensor) :
  load_parameter name sd (load_parameter name sd p) = load_parameter name sd p.
Proof.
  destruct p as [old|]; [|reflexivity]. simpl. f_equal.
  pose proof (load_entry_idem EmptyString sd (name, old)) as I.
  pose proof (load_entry_fst EmptyString sd (name, old)) as F.
  destruct (load_entry EmptyString sd (name, old)) as [k v]. simpl in F. subst k.
  simpl. rewrite I. reflexivity.
Qed.

Lemma parameter_abort_loaded (name : string) (sd : Dict.t Tensor) (p : option Tensor) :
  parameter_abort name sd (load_parameter name sd p) = parameter_abort name sd p.
Proof.
  destruct p as [old|]; [|reflexivity]. simpl.
  pose proof (entry_abort_loaded EmptyString sd (name, old)) as I.
  pose proof (load_entry_fst EmptyString sd (name, old)) as F.
  destruct (load_entry EmptyString sd (name, old)) as [k v]. simpl in F. subst k.
  exact I.
Qed.

(** Visiting the module again stops where the first visit stopped, and
    copies the same values. *)
Lemma Module_load_idem (sd : Dict.t Tensor) (s : Self) :
  Module_load sd (Module_loaded sd s) = Module_load sd s.
Proof.
  destruct s as [tr lt og [sst str] son [snk sntr] [tst ttr] ton [tnk tntr] ty sd0 lsd d].
  unfold Module_loaded, Module_load, bind, load_std, load_log_std, load_student,
    load_student_obs_normalizer, load_teacher, load_teacher_obs_normalizer.
  cbn [std log_std student student_obs_normalizer teacher teacher_obs_normalizer
       mlp_state mlp_training set_std set_log_std set_student
       set_student_obs_normalizer set_teacher set_teacher_obs_normalizer fst snd].
  destruct (parameter_abort "std" sd sd0) as [e|] eqn:A1; cbn.
  { rewrite parameter_abort_loaded, A1, load_parameter_idem. reflexivity. }
  destruct (parameter_abort "log_std" sd lsd) as [e|] eqn:A2; cbn.
  { rewrite !parameter_abort_loaded, A1, A2, !load_parameter_idem. reflexivity. }
  destruct (load_abort "student." sst sd) as [e|] eqn:A3; cbn.
  { rewrite !parameter_abort_loaded, A1, A2, !load_parameter_idem. cbn.
    rewrite load_abort_loaded, A3, load_from_idem. reflexivity. }
  assert (N : forall k tr' prefix,
             norm_state (Normalizer_with_state (mkNormalizer k tr')
                           (load_from_state_dict prefix
                              (norm_state (mkNormalizer k tr')) sd))
             = load_from_state_dict prefix (norm_state (mkNormalizer k tr')) sd
             /\ Normalizer_with_state
                  (Normalizer_with_state (mkNormalizer k tr')
                     (load_from_state_dict prefix (norm_state (mkNormalizer k tr')) sd))
                  (load_from_state_dict prefix
                     (load_from_state_dict prefix (norm_state (mkNormalizer k tr')) sd)
                     sd)
                = Normalizer_with_state (mkNormalizer k tr')
                    (load_from_state_dict prefix (norm_state (mkNormalizer k tr')) sd)).
  { intros k tr' prefix. rewrite load_from_idem. destruct k; split; reflexivity. }
  destruct (load_abort "student_obs_normalizer."
              (norm_state (mkNormalizer snk sntr)) sd) as [e|] eqn:A4; cbn.
  { rewrite !parameter_abort_loaded, A1, A2, !load_parameter_idem. cbn.
    rewrite load_abort_loaded, A3, load_from_idem. cbn.
    rewrite (proj1 (N snk sntr _)), load_abort_loaded, A4, (proj2 (N snk sntr _)).
    reflexivity. }
  destruct (load_abort "teacher." tst sd) as [e|] eqn:A5; cbn.
  { rewrite !parameter_abort_loaded, A1, A2, !load_parameter_idem. cbn.
    rewrite load_abort_loaded, A3, load_from_idem. cbn.
    rewrite (proj1 (N snk sntr _)), load_abort_loaded, A4, (proj2 (N snk sntr _)). cbn.
    rewrite load_abort_loaded, A5, load_from_idem. reflexivity. }
  rewrite !parameter_abort_loaded, A1, A2, !load_parameter_idem. cbn.
  rewrite load_abort_loaded, A3, load_from_idem. cbn.
  rewrite (proj1 (N snk sntr _)), load_abort_loaded, A4, (proj2 (N snk sntr _)). cbn.
  rewrite load_abort_loaded, A5, load_from_idem. cbn.
  rewrite (proj1 (N tnk tntr _)), load_abort_loaded, (proj2 (N tnk tntr _)).
  reflexivity.
Qed.

Lemma Module_loaded_idem (sd : Dict.t Tensor) (s : Self) :
  Module_loaded sd (Module_loaded sd s) = Module_loaded sd s.
Proof. unfold Module_loaded at 1 3. rewrite Module_load_idem. reflexivity. Qed.

Lemma Module_loaded_eval (sd : Dict.t Tensor) (s : Self) :
  Module_loaded sd (loaded_and_eval s) = loaded_and_eval (Module_loaded sd s).
Proof.
  destruct s as [? ? ? [? ?] ? [? ?] [? ?] ? [[|b] ?] ? ? ? ?];
    unfold Module_loaded, Module_load, bind, load_std, load_log_std, load_student,
      load_student_obs_normalizer, load_teacher, load_teacher_obs_normalizer;
    cbn;
    repeat match goal with
           | |- context [raise_if ?a] => destruct (raise_if a); cbn
           end;
    reflexivity.
Qed.

Lemma loaded_and_eval_idem (s : Self) : loaded_and_eval (loaded_and_eval s) = loaded_and_eval s.
Proof. reflexivity. Qed.

Lemma teacher_load_idem (tsd : Dict.t Tensor) (strict : bool) (s : Self) :
  apply_write (WTeacherLoad tsd strict) (apply_write (WTeacherLoad tsd strict) s)
  = apply_write (WTeacherLoad tsd strict) s.
Proof.
  destruct s as [? ? ? ? ? ? [st tr] ? ? ? ? ? ?].
  cbn [apply_write MLP_load_state_dict snd teacher set_teacher mlp_state mlp_training].
  rewrite load_from_idem. reflexivity.
Qed.

Lemma normalizer_load_idem (nsd : Dict.t Tensor) (strict : bool) (s : Self) :
  apply_write (WTeacherNormalizerLoad nsd strict)
    (apply_write (WTeacherNormalizerLoad nsd strict) s)
  = apply_write (WTeacherNormalizerLoad nsd strict) s.
Proof.
  destruct s as [? ? ? ? ? ? ? ? [[|b] tr] ? ? ? ?]; [reflexivity|].
  cbn [apply_write Normalizer_load_state_dict snd teacher_obs_normalizer
       set_teacher_obs_normalizer norm_state norm_kind norm_training
       Normalizer_with_state].
  rewrite load_from_idem. reflexivity.
Qed.

Lemma teacher_load_commutes (tsd nsd : Dict.t Tensor) (strict : bool) (s : Self) :
  apply_write (WTeacherLoad tsd strict) (apply_write (WTeacherNormalizerLoad nsd strict) s)
  = apply_write (WTeacherNormalizerLoad nsd strict) (apply_write (WTeacherLoad tsd strict) s)
  /\ apply_write (WTeacherLoad tsd strict) (loaded_and_eval s)
     = loaded_and_eval (apply_write (WTeacherLoad tsd strict) s)
  /\ apply_write (WTeacherNormalizerLoad nsd strict) (loaded_and_eval s)
     = loaded_and_eval (apply_write (WTeacherNormalizerLoad nsd strict) s).
Proof.
  destruct s as [? ? ? ? ? ? [st tr] ? [[|b] ntr] ? ? ? ?]; repeat split.
Qed.

(** X19.  Loading is idempotent: calling [load_state_dict] a second time
    with the same mapping and strictness gives the result of the first call
    (the same value, or the same error) and leaves the object as the first
    call left it. *)
Theorem load_state_dict_idempotent (sd : Dict.t Tensor) (strict : bool) (w : World) :
  load_state_dict sd strict (snd (load_state_dict sd strict w))
  = load_state_dict sd strict w.
Proof.
  destruct (any_key_contains "actor" sd) eqn:Ha.
  - rewrite (load_state_dict_policy_eq sd strict w Ha). cbv zeta.
    set (tsd := fst (remap sd)). set (nsd := snd (remap sd)).
    set (T := apply_write (WTeacherLoad tsd strict)).
    set (N := apply_write (WTeacherNormalizerLoad nsd strict)).
    assert (ET : forall s, load_outcome (mlp_state (teacher (T s))) tsd strict
                           = load_outcome (mlp_state (teacher s)) tsd strict).
    { intros s. unfold T. cbn. apply load_outcome_loaded. }
    assert (EN : forall s, load_outcome (norm_state (teacher_obs_normalizer (N s))) nsd strict
                           = load_outcome (norm_state (teacher_obs_normalizer s)) nsd strict).
    { intros s. unfold N. cbn [apply_write Normalizer_load_state_dict snd
                               teacher_obs_normalizer set_teacher_obs_normalizer].
      rewrite norm_state_with_state. apply load_outcome_loaded. }
    destruct (load_outcome (mlp_state (teacher (self w))) tsd strict) as [e|] eqn:E1.
    + cbn [snd]. rewrite (load_state_dict_policy_eq sd strict _ Ha). cbv zeta.
      fold tsd nsd T N. cbn [self generator]. rewrite ET, E1.
      unfold T. rewrite teacher_load_idem. reflexivity.
    + destruct (load_outcome (norm_state (teacher_obs_normalizer (self w))) nsd strict)
        as [e|] eqn:E2.
      * cbn [snd]. rewrite (load_state_dict_policy_eq sd strict _ Ha). cbv zeta.
        fold tsd nsd T N. cbn [self generator].
        assert (C : T (N (T (self w))) = N (T (self w))).
        { unfold T, N.
          rewrite (proj1 (teacher_load_commutes tsd nsd strict _)), teacher_load_idem.
          reflexivity. }
        assert (X1 : load_outcome (mlp_state (teacher (N (T (self w))))) tsd strict = None).
        { rewrite <- C, ET. unfold N. cbn. rewrite load_outcome_loaded. exact E1. }
        rewrite X1, C.
        assert (X2 : load_outcome (norm_state (teacher_obs_normalizer (N (T (self w)))))
                                nsd strict = Some e).
        { rewrite EN. exact E2. }
        rewrite X2. unfold N. rewrite normalizer_load_idem. reflexivity.
      * cbn [snd]. rewrite (load_state_dict_policy_eq sd strict _ Ha). cbv zeta.
        fold tsd nsd T N. cbn [self generator].
        destruct (teacher_load_commutes tsd nsd strict (N (T (self w)))) as (_ & C2 & _).
        destruct (teacher_load_commutes tsd nsd strict (T (self w))) as (C1 & _ & _).
        assert (C : T (loaded_and_eval (N (T (self w)))) = loaded_and_eval (N (T (self w)))).
        { unfold T, N in *. rewrite C2, C1, teacher_load_idem. reflexivity. }
        assert (X1 : load_outcome (mlp_state (teacher (loaded_and_eval (N (T (self w))))))
                                tsd strict = None).
        { cbn. rewrite load_outcome_loaded. exact E1. }
        rewrite X1, C.
        destruct (teacher_load_commutes tsd nsd strict (N (T (self w)))) as (_ & _ & C3).
        assert (D : N (loaded_and_eval (N (T (self w)))) = loaded_and_eval (N (T (self w)))).
        { unfold N in *. rewrite C3, normalizer_load_idem. reflexivity. }
        assert (X2 : load_outcome
                       (norm_state (teacher_obs_normalizer
                                      (loaded_and_eval (N (T (self w)))))) nsd strict
                     = None).
        { change (norm_state (teacher_obs_normalizer (loaded_and_eval (N (T (self w))))))
            with (norm_state (teacher_obs_normalizer (N (T (self w))))).
          rewrite EN. exact E2. }
        rewrite X2, D. reflexivity.
  - destruct (any_key_contains "student" sd) eqn:Hs.
    + rewrite (load_state_dict_distillation_eq sd strict w Ha Hs).
      destruct (load_outcome (state_dict_of (self w)) sd strict) as [e|] eqn:E.
      * cbn [snd]. rewrite (load_state_dict_distillation_eq sd strict _ Ha Hs).
        cbn [self generator].
        rewrite state_dict_of_loaded, load_outcome_loaded, E, Module_loaded_idem.
        reflexivity.
      * cbn [snd]. rewrite (load_state_dict_distillation_eq sd strict _ Ha Hs).
        cbn [self generator].
        change (state_dict_of (loaded_and_eval (Module_loaded sd (self w))))
          with (state_dict_of (Module_loaded sd (self w))).
        rewrite state_dict_of_loaded, load_outcome_loaded, E.
        rewrite Module_loaded_eval, Module_loaded_idem. reflexivity.
    + unfold load_state_dict. rewrite Ha, Hs. reflexivity.
Qed.

(** X20.  Save and load round trip: a mapping with the names and shapes
    of [state_dict()] of the module, in its order and without a repeated
    key, in which some key contains ["student"] and none ["actor"], is
    accepted under [strict]; the call returns [True], sets
    [loaded_teacher], and [state_dict()] of the module is then that
    mapping.  So the [state_dict()] of one instance restores another of
    the same architecture, and an instance from its own. *)
Theorem state_dict_round_trip (sd : Dict.t Tensor) (w : World) :
  names_and_shapes (state_dict_of (self w)) = names_and_shapes sd ->
  unique (Dict.keys sd) = true ->
  any_key_contains "actor" sd = false ->
  any_key_contains "student" sd = true ->
  fst (load_state_dict sd true w) = Ok true
  /\ state_dict_of (self (snd (load_state_dict sd true w))) = sd
  /\ loaded_teacher (self (snd (load_state_dict sd true w))) = true.
Proof.
  intros Hns Hu Ha Hs. apply unique_NoDup in Hu.
  destruct (load_same_architecture _ _ Hns Hu) as [L E].
  rewrite (load_state_dict_distillation_eq sd true w Ha Hs), E. cbn [fst snd self].
  split; [reflexivity|]. split; [|reflexivity].
  change (state_dict_of (loaded_and_eval (Module_loaded sd (self w))))
    with (state_dict_of (Module_loaded sd (self w))).
  rewrite state_dict_of_loaded. exact L.
Qed.

End Reloading.

(** ** The layout of a routed row *)

Lemma length_concat_firstn (pieces : list (nat * list R)) :
  (forall p, In p pieces -> fst p <= length (snd p)) ->
  length (concat (map (fun p => firstn (fst p) (snd p)) pieces))
  = list_sum (map fst pieces).
Proof.
  induction pieces as [|p pieces IH]; intros H; [reflexivity|].
  simpl. rewrite length_app, length_firstn, IH.
  - rewrite Nat.min_l; [reflexivity | apply H; left; reflexivity].
  - intros q Hq. apply H. right. exact Hq.
Qed.

(** Row [i] of the concatenation is row [i] of every piece in turn. *)
Lemma cat_rows_row (b : nat) (pieces : list (nat * list R)) (i : nat) :
  (forall p, In p pieces -> length (snd p) = b * fst p) ->
  i < b ->
  firstn (list_sum (map fst pieces))
         (skipn (i * list_sum (map fst pieces)) (cat_rows b pieces))
  = concat (map (fun p => firstn (fst p) (skipn (i * fst p) (snd p))) pieces).
Proof.
  revert pieces i. induction b as [|b IH]; intros pieces i Hlen Hi; [lia|].
  set (W := list_sum (map fst pieces)).
  assert (HH : length (concat (map (fun p => firstn (fst p) (snd p)) pieces)) = W).
  { apply length_concat_firstn. intros p Hp. rewrite (Hlen p Hp). lia. }
  cbn [cat_rows]. destruct i as [|i].
  - cbn [Nat.mul skipn]. rewrite firstn_app, HH, Nat.sub_diag.
    rewrite <- HH at 1. rewrite firstn_all. cbn [firstn]. rewrite app_nil_r.
    reflexivity.
  - rewrite skipn_app, HH.
    replace (skipn (S i * W) (concat (map (fun p => firstn (fst p) (snd p)) pieces)))
      with (@nil R) by (symmetry; apply skipn_all2; rewrite HH; simpl; lia).
    replace (S i * W - W) with (i * W) by (simpl; lia).
    cbn [app].
    set (pieces' := map (fun p => (fst p, skipn (fst p) (snd p))) pieces).
    assert (W' : list_sum (map fst pieces') = W).
    { unfold pieces', W. rewrite map_map. reflexivity. }
    rewrite <- W'. rewrite IH.
    + unfold pieces'. rewrite map_map. f_equal. apply map_ext. intros p. cbn [fst snd].
      rewrite skipn_skipn. do 2 f_equal. simpl. lia.
    + intros p' Hp'. unfold pieces' in Hp'. apply in_map_iff in Hp'.
      destruct Hp' as (p & <- & Hp). cbn [fst snd].
      rewrite length_skipn, (Hlen p Hp). simpl. lia.
    + lia.
Qed.

Lemma cat_2d_eq (b : nat) (ts : list Tensor) :
  ts <> [] ->
  Forall (fun t => shape t = [b; last_dim t]) ts ->
  cat ts = Ok (mkTensor [b; list_sum (map last_dim ts)]
                        (cat_rows b (map (fun t => (last_dim t, data t)) ts))).
Proof.
  intros Hne Hall.
  assert (Hf : filter (fun t => negb (legacy_empty t)) ts = ts).
  { clear -Hall. induction Hall as [|t ts Ht _ IH]; simpl; [reflexivity|].
    unfold legacy_empty at 1. rewrite Ht.
    destruct (shape_eqb [b; last_dim t] [0]) eqn:E;
      [apply shape_eqb_eq in E; discriminate|].
    simpl. rewrite IH. reflexivity. }
  assert (H0 : existsb (fun t => (ndim t =? 0)%nat) ts = false).
  { clear -Hall. induction Hall as [|t ts Ht _ IH]; simpl; [reflexivity|].
    unfold ndim at 1. rewrite Ht. simpl. exact IH. }
  assert (Hl : forallb (fun t => shape_eqb (lead_dims t) [b]) ts = true).
  { clear -Hall. induction Hall as [|t ts Ht _ IH]; simpl; [reflexivity|].
    unfold lead_dims at 1. rewrite Ht. simpl.
    rewrite (proj2 (shape_eqb_eq [b] [b]) eq_refl). exact IH. }
  destruct ts as [|t0 ts0]; [congruence|].
  assert (Hl0 : lead_dims t0 = [b]).
  { inversion Hall as [|? ? Ht _]; subst. unfold lead_dims. rewrite Ht. reflexivity. }
  unfold cat. rewrite Hf, H0, Hl0, Hl. cbn [numel fold_right app].
  rewrite Nat.mul_1_r. reflexivity.
Qed.

Lemma collect_batch (obs : Dict.t Tensor) (b : nat) (names : list string) :
  batch_of obs b names = true ->
  exists ts, collect_obs obs names = Ok ts
             /\ map Some ts = map (Dict.get obs) names
             /\ Forall (fun t => shape t = [b; last_dim t]) ts
             /\ Forall (fun t => length (data t) = b * last_dim t) ts.
Proof.
  unfold batch_of. induction names as [|g names IH]; simpl; intros H.
  - exists []. repeat split; constructor.
  - unfold getitem. destruct (Dict.get obs g) as [t|]; [|discriminate].
    apply andb_prop in H. destruct H as [Ht H]. apply andb_prop in Ht.
    destruct Ht as [Hs Hw]. apply shape_eqb_eq in Hs.
    destruct (IH H) as (ts & -> & Hts & F1 & F2).
    exists (t :: ts). simpl. rewrite Hts. repeat split.
    + constructor; assumption.
    + constructor; [|exact F2]. unfold well_shaped in Hw. rewrite Hs in Hw.
      apply Nat.eqb_eq in Hw. rewrite Hw. simpl. lia.
Qed.

Lemma routed_rows (groups : Dict.t (list string)) (role : string)
      (names : list string) (obs : Dict.t Tensor) (b : nat) :
  Dict.get groups role = Some names ->
  names <> [] ->
  batch_of obs b names = true ->
  exists out ts,
    routed groups role obs = Ok out
    /\ map Some ts = map (Dict.get obs) names
    /\ shape out = [b; list_sum (map last_dim ts)]
    /\ forall i, i < b -> row i out = concat (map (row i) ts).
Proof.
  intros Hg Hne Hb. unfold routed, getitem. rewrite Hg.
  destruct (collect_batch obs b names Hb) as (ts & -> & Hts & F1 & F2).
  assert (Hn : ts <> []).
  { destruct ts; [|discriminate]. destruct names; [congruence | discriminate]. }
  rewrite (cat_2d_eq b ts Hn F1). eexists. exists ts.
  split; [reflexivity|]. split; [exact Hts|]. split; [reflexivity|].
  intros i Hi. unfold row at 1. cbn [last_dim shape data last].
  assert (W : list_sum (map last_dim ts)
              = list_sum (map fst (map (fun t => (last_dim t, data t)) ts))).
  { rewrite map_map. reflexivity. }
  rewrite W, cat_rows_row.
  - rewrite map_map. reflexivity.
  - intros p Hp. apply in_map_iff in Hp. destruct Hp as (t & <- & Ht).
    rewrite Forall_forall in F2. apply F2. exact Ht.
  - exact Hi.
Qed.

Section RowLayout.

Context {collab : Collaborators}.

(** X21.  The routers lay the groups out in the configured order: when
    the mapping holds every group of a role as a two-dimensional tensor of
    [b] rows, the router returns a tensor of [b] rows whose row [i] is row
    [i] of the first group, then row [i] of the second, and so on through
    the list.  The order of the list fixes which input columns carry
    which group. *)
Theorem router_row_layout (w : World) (obs : Dict.t Tensor) (b : nat)
        (policy teacher_groups : list string) :
  Dict.get (obs_groups (self w)) "policy" = Some policy ->
  Dict.get (obs_groups (self w)) "teacher" = Some teacher_groups ->
  (policy <> [] -> batch_of obs b policy = true ->
   exists out ts,
     get_student_obs obs w = (Ok out, w)
     /\ map Some ts = map (Dict.get obs) policy
     /\ shape out = [b; list_sum (map last_dim ts)]
     /\ forall i, i < b -> row i out = concat (map (row i) ts))
  /\ (teacher_groups <> [] -> batch_of obs b teacher_groups = true ->
      exists out ts,
        get_teacher_obs obs w = (Ok out, w)
        /\ map Some ts = map (Dict.get obs) teacher_groups
        /\ shape out = [b; list_sum (map last_dim ts)]
        /\ forall i, i < b -> row i out = concat (map (row i) ts)).
Proof.
  intros Hp Ht. split.
  - intros Hne Hb. destruct (routed_rows _ _ _ _ _ Hp Hne Hb) as (out & ts & R & H).
    exists out, ts. rewrite get_student_obs_eq, R. auto.
  - intros Hne Hb. destruct (routed_rows _ _ _ _ _ Ht Hne Hb) as (out & ts & R & H).
    exists out, ts. rewrite get_teacher_obs_eq, R. auto.
Qed.

End RowLayout.

(** ** The student side under a prior-policy load, and the normalizer slot *)

Section StudentSide.

Context {collab : Collaborators}.

(** What the student side of [act] and [act_inference] reads *)
Lemma student_side_policy_load (sd : Dict.t Tensor) (strict : bool) (w : World) :
  any_key_contains "actor" sd = true ->
  let s' := self (snd (load_state_dict sd strict w)) in
  (obs_groups s', student s', student_obs_normalizer s', noise_std_type s',
   std s', log_std s', distribution s')
  = (obs_groups (self w), student (self w), student_obs_normalizer (self w),
     noise_std_type (self w), std (self w), log_std (self w), distribution (self w)).
Proof.
  intros Ha. rewrite (load_state_dict_policy_eq sd strict w Ha). cbv zeta.
  destruct (load_outcome (mlp_state (teacher (self w))) (fst (remap sd)) strict);
    [reflexivity|].
  destruct (load_outcome (norm_state (teacher_obs_normalizer (self w)))
                       (snd (remap sd)) strict); reflexivity.
Qed.

(** X22.  Loading a prior-policy checkpoint does not touch the student:
    whether the load returns or raises, [act_inference] returns afterwards
    what it returned before for every observation mapping, and [act]
    stores the same distribution. *)
Theorem prior_policy_load_keeps_student
        (sd : Dict.t Tensor) (strict : bool) (w : World) (obs : Dict.t Tensor) :
  any_key_contains "actor" sd = true ->
  let w' := snd (load_state_dict sd strict w) in
  fst (act_inference obs w') = fst (act_inference obs w)
  /\ distribution (self (snd (act obs w'))) = distribution (self (snd (act obs w))).
Proof.
  intros Ha w'. pose proof (student_side_policy_load sd strict w Ha) as H.
  cbv zeta in H. fold w' in H. inversion H as [[H1 H2 H3 H4 H5 H6 H7]].
  split.
  - rewrite !act_inference_eq. cbn [fst]. rewrite H1, H2, H3. reflexivity.
  - rewrite !act_self.
    assert (N : next_distribution (self w') obs = next_distribution (self w) obs).
    { unfold next_distribution, distribution_for, noise_std.
      rewrite H1, H2, H3, H4, H5, H6. reflexivity. }
    rewrite N. destruct (next_distribution (self w) obs); [reflexivity|].
    cbn [snd]. exact H7.
Qed.

(** X23.  The normalization slot of the student is what the flag says, on
    every instance and after any calls.  Built with student normalization
    off, [update_normalization] returns at once for every mapping, even one
    that lacks the policy groups.  Built with it on, the slot holds a
    running normalizer, and [update_normalization] routes the policy
    groups and hands them to its [update]: it fails only as routing or
    that [update] fails. *)
Theorem update_normalization_follows_the_flag
        obs0 groups num_actions sn tn sh th activation c ty kwargs g s g'
        (calls : list Call) :
  __init__ obs0 groups num_actions sn tn sh th activation c ty kwargs g = (Ok s, g') ->
  let w := run calls (mkWorld s g') in
  if sn then
    exists buffers,
      norm_kind (student_obs_normalizer (self w)) = EmpiricalNormalization buffers
      /\ forall obs,
           update_normalization obs w
           = match routed (obs_groups (self w)) "policy" obs with
             | Ok x =>
                 (fst (EmpiricalNormalization_update buffers
                         (norm_training (student_obs_normalizer (self w))) x),
                  mkWorld
                    (set_student_obs_normalizer
                       (mkNormalizer
                          (EmpiricalNormalization
                             (snd (EmpiricalNormalization_update buffers
                                     (norm_training (student_obs_normalizer (self w)))
                                     x)))
                          (norm_training (student_obs_normalizer (self w))))
                       (self w))
                    (generator w))
             | Err e => (Err e, w)
             end
  else forall obs, update_normalization obs w = (Ok tt, w).
Proof.
  intros Hi w.
  pose proof (__init___state _ _ _ _ _ _ _ _ _ _ _ _ _ _ Hi)
    as (_ & _ & _ & _ & Hflags & Hkinds & _).
  pose proof (run_architecture calls (mkWorld s g')) as A. fold w in A.
  unfold architecture in A. cbn [self] in A.
  inversion A as [[A1 A2 A3 A4 A5 A6 A7 A8 A9 A10 A11]]. clear A.
  injection Hflags as F1 F2. injection Hkinds as K1 K2.
  rewrite F1 in A2. rewrite K1 in A5. clear F1 F2 K1 K2 Hi.
  destruct sn.
  - unfold is_empirical in A5.
    destruct (norm_kind (student_obs_normalizer (self w))) as [|buffers] eqn:E;
      [discriminate|].
    exists buffers. split; [reflexivity|]. intros obs.
    rewrite update_normalization_self, A2.
    destruct (routed (obs_groups (self w)) "policy" obs) as [x|e]; [|reflexivity].
    cbn [apply_write]. unfold Normalizer_update. rewrite E.
    destruct (EmpiricalNormalization_update buffers
                (norm_training (student_obs_normalizer (self w))) x); reflexivity.
  - intros obs. rewrite update_normalization_self, A2. reflexivity.
Qed.

End StudentSide.

(** * The further properties on the example instance *)

Lemma __init___returns_only_when_witness :
  Demo.construct "scalar"
  = (Ok (self (Demo.world "scalar")), generator (Demo.world "scalar"))
  /\ student (self (Demo.world "scalar"))
     = mkMLP (fst (Demo.init 3 2 [256; 256; 256] "elu" 0)) true
  /\ teacher (self (Demo.world "scalar"))
     = mkMLP (fst (Demo.init 4 2 [256; 256; 256] "elu" 1)) false.
Proof.
  split; [reflexivity|].
  destruct (__init___returns_only_when (collab := Demo.collab)
              Demo.obs Demo.groups 2 true false [256; 256; 256] [256; 256; 256]
              "elu" (1 / 2)%R "scalar" [] 0
              (self (Demo.world "scalar")) (generator (Demo.world "scalar")) eq_refl)
    as (policy & teacher_groups & Hp & Ht & _ & _ & H).
  cbv zeta in H. vm_compute in Hp, Ht. inversion Hp; inversion Ht; subst.
  destruct H as (H1 & H2 & _). split; [exact H1 | exact H2].
Defined.


Lemma __init___group_error_witness :
  find (not_2d Demo.obs_bad_rank) (["proprio"] ++ ["proprio"; "privileged"])
  = Some "privileged"
  /\ __init__ (collab := Demo.collab) Demo.obs_bad_rank Demo.groups 2 true false
       [256; 256; 256] [256; 256; 256] "elu" (1 / 2)%R "gaussian" [] 0
     = (Err (AssertionError only_1D_msg), 0).
Proof.
  split; [reflexivity|].
  exact (__init___group_error (collab := Demo.collab) Demo.obs_bad_rank Demo.groups 2
           true false [256; 256; 256] [256; 256; 256] "elu" (1 / 2)%R "gaussian" [] 0
           ["proprio"] ["proprio"; "privileged"] "privileged" eq_refl eq_refl eq_refl).
Defined.

Lemma __init___unknown_noise_last_witness :
  existsb (not_2d Demo.obs) (["proprio"] ++ ["proprio"; "privileged"]) = false
  /\ Demo.construct "gaussian" = (Err (ValueError (unknown_std_msg "gaussian")), 2).
Proof.
  split; [reflexivity|].
  exact (__init___unknown_noise_last (collab := Demo.collab) Demo.obs Demo.groups 2
           true false [256; 256; 256] [256; 256; 256] "elu" (1 / 2)%R "gaussian" [] 0
           ["proprio"] ["proprio"; "privileged"] eq_refl eq_refl eq_refl
           ltac:(discriminate) ltac:(discriminate)).
Defined.

Lemma Demo_world_constructed : Constructed (Demo.world "scalar").
Proof.
  apply (Constructed_init (collab := Demo.collab) Demo.obs Demo.groups 2 true false
           [256; 256; 256] [256; 256; 256] "elu" (1 / 2)%R "scalar" [] 0).
  reflexivity.
Defined.

Lemma teacher_always_in_eval_witness :
  Constructed (exec (CallTrain true) (Demo.world "scalar"))
  /\ mlp_training (teacher (self (exec (CallTrain true) (Demo.world "scalar")))) = false.
Proof.
  assert (C : Constructed (exec (CallTrain true) (Demo.world "scalar")))
    by (apply Constructed_call; exact Demo_world_constructed).
  split; [exact C | exact (teacher_always_in_eval _ C)].
Defined.

Lemma teacher_frozen_between_loads_witness :
  forallb (fun c => negb (is_load_call c)) Demo.calls_without_load = true
  /\ teacher (self (run Demo.calls_without_load (Demo.world "scalar")))
     = teacher (self (Demo.world "scalar")).
Proof.
  split; [reflexivity|].
  exact (proj1 (teacher_frozen_between_loads Demo.calls_without_load
                  (Demo.world "scalar") Demo_world_constructed eq_refl)).
Defined.

Lemma properties_need_a_distribution_witness :
  forallb (fun c => negb (is_distribution_call c)) Demo.calls_without_act = true
  /\ fst (action_mean (run Demo.calls_without_act (Demo.world "scalar")))
     = Err (AttributeError "action_mean").
Proof.
  split; [reflexivity|].
  pose proof (properties_need_a_distribution (collab := Demo.collab)
                Demo.obs Demo.groups 2 true false [256; 256; 256] [256; 256; 256]
                "elu" (1 / 2)%R "scalar" [] 0
                (self (Demo.world "scalar")) (generator (Demo.world "scalar"))
                Demo.calls_without_act eq_refl eq_refl) as H.
  cbv zeta in H. destruct H as [H _].
  exact (f_equal fst H).
Defined.

Lemma act_then_read_witness :
  act Demo.obs (Demo.world "scalar")
  = (Ok (mkTensor [2; 2] [0; 0; 0; 0]%R), snd (act Demo.obs (Demo.world "scalar")))
  /\ exists mean_ std_,
       action_mean (snd (act Demo.obs (Demo.world "scalar")))
       = (Ok mean_, snd (act Demo.obs (Demo.world "scalar")))
       /\ shape std_ = shape mean_.
Proof.
  split; [reflexivity|].
  destruct (act_then_read Demo.obs (Demo.world "scalar")
              (snd (act Demo.obs (Demo.world "scalar")))
              (mkTensor [2; 2] [0; 0; 0; 0]%R) eq_refl)
    as (m & sd & _ & _ & H1 & _ & H2 & _).
  exists m, sd. split; assumption.
Defined.

Lemma action_std_ignores_the_input_witness :
  shape (mkTensor [5; 2] (tile 5 [0; 0]%R)) = shape (mkTensor [5; 2] (tile 5 [0; 0]%R))
  /\ fst ((update_distribution (Demo.zeros [5; 3]) ;;; action_std) (Demo.world "scalar"))
     = fst ((update_distribution (Demo.ones2 [5; 3]) ;;; action_std)
              (Demo.world "scalar")).
Proof.
  split; [reflexivity|].
  exact (action_std_ignores_the_input (collab := Demo.collab)
           (Demo.zeros [5; 3]) (Demo.ones2 [5; 3])
           (mkTensor [5; 2] (tile 5 [0; 0]%R)) (mkTensor [5; 2] (tile 5 [0; 0]%R))
           (Demo.world "scalar") eq_refl eq_refl eq_refl).
Defined.

Lemma log_half_in_range : Forall exp_is_normal (data (log (scale_by (1 / 2) (ones 2)))).
Proof.
  assert (H : exp_is_normal (ln (1 / 2 * 1))).
  { unfold exp_is_normal. rewrite Rmult_1_r. split.
    - left. apply exp_lt_inv. rewrite exp_ln by lra.
      replace (-87)%R with (- (87))%R by lra. rewrite exp_Ropp.
      assert (H : (1 + 87 < Rtrigo_def.exp 87)%R) by (apply exp_ineq1; lra).
      assert (P : (0 < Rtrigo_def.exp 87)%R) by apply exp_pos.
      apply Rmult_lt_reg_r with (r := Rtrigo_def.exp 87); [exact P|].
      rewrite Rinv_l by lra. lra.
    - assert (L : (ln (1 / 2) < ln 1)%R) by (apply ln_increasing; lra).
      rewrite ln_1 in L. lra. }
  simpl. constructor; [exact H|]. constructor; [exact H|]. constructor.
Qed.

Lemma log_mode_std_is_positive_witness :
  noise_std_type (self (Demo.world "log")) = "log"
  /\ Forall exp_is_normal (data (log (scale_by (1 / 2) (ones 2))))
  /\ exists std_,
       fst ((update_distribution (Demo.zeros [5; 3]) ;;; action_std) (Demo.world "log"))
       = Ok std_
       /\ Forall (fun v => (0 < v)%R) (data std_).
Proof.
  split; [reflexivity|]. split; [exact log_half_in_range|].
  eexists. split; [reflexivity|].
  eapply (log_mode_std_is_positive (collab := Demo.collab) (Demo.zeros [5; 3])
            (Demo.world "log") _ (log (scale_by (1 / 2) (ones 2))));
    [reflexivity | reflexivity | reflexivity | exact log_half_in_range].
Defined.

Lemma update_distribution_returns_iff_witness :
  Demo.construct "scalar"
  = (Ok (self (Demo.world "scalar")), generator (Demo.world "scalar"))
  /\ is_ok (fst (update_distribution (Demo.zeros [5; 3])
                   (run Demo.calls_without_act (Demo.world "scalar")))) = true.
Proof.
  split; [reflexivity|].
  apply (update_distribution_returns_iff (collab := Demo.collab)
           Demo.obs Demo.groups 2 true false [256; 256; 256] [256; 256; 256]
           "elu" (1 / 2)%R "scalar" [] 0
           (self (Demo.world "scalar")) (generator (Demo.world "scalar"))
           Demo.calls_without_act (Demo.zeros [5; 3]) eq_refl).
  exists (mkTensor [5; 2] (tile 5 [0; 0]%R)).
  split; [reflexivity|]. split; [discriminate | left; reflexivity].
Defined.

Lemma entropy_scalar_mode_witness :
  Forall (fun v => (0 < v)%R) (data (scale_by (1 / 2) (ones 2)))
  /\ fst ((update_distribution (Demo.zeros [5; 3]) ;;; entropy) (Demo.world "scalar"))
     = Ok (mkTensor [5]
             (repeat
                (fold_right Rplus 0%R
                   (map (fun v => (1 / 2 * ln (2 * PI * Rtrigo_def.exp 1 * (v * v)))%R)
                        (data (scale_by (1 / 2) (ones 2)))))
                (numel [5]))).
Proof.
  assert (P : Forall (fun v => (0 < v)%R) (data (scale_by (1 / 2) (ones 2))))
    by (simpl; repeat constructor; lra).
  split; [exact P|].
  exact (entropy_scalar_mode (collab := Demo.collab) (Demo.zeros [5; 3])
           (mkTensor [5; 2] (tile 5 [0; 0]%R)) (scale_by (1 / 2) (ones 2))
           (Demo.world "scalar") [5] 2 eq_refl eq_refl eq_refl eq_refl P eq_refl eq_refl).
Defined.

Lemma entropy_log_mode_witness :
  log_std (self (Demo.world "log")) = Some (log (scale_by (1 / 2) (ones 2)))
  /\ Forall exp_is_normal (data (log (scale_by (1 / 2) (ones 2))))
  /\ fst ((update_distribution (Demo.zeros [5; 3]) ;;; entropy) (Demo.world "log"))
     = Ok (mkTensor [5]
             (repeat
                (fold_right Rplus 0%R
                   (map (fun v => (1 / 2 + 1 / 2 * ln (2 * PI) + v)%R)
                        (data (log (scale_by (1 / 2) (ones 2))))))
                (numel [5]))).
Proof.
  split; [reflexivity|]. split; [exact log_half_in_range|].
  exact (entropy_log_mode (collab := Demo.collab) (Demo.zeros [5; 3])
           (mkTensor [5; 2] (tile 5 [0; 0]%R)) (log (scale_by (1 / 2) (ones 2)))
           (Demo.world "log") [5] 2 eq_refl eq_refl eq_refl eq_refl
           log_half_in_range eq_refl eq_refl).
Defined.

Lemma load_state_dict_outcome_witness :
  is_ok (fst (load_state_dict Demo.policy_checkpoint true (Demo.world "scalar"))) = true
  /\ fst (load_state_dict Demo.policy_checkpoint true (Demo.world "scalar"))
     = Ok (negb (any_key_contains "actor" Demo.policy_checkpoint))
  /\ loaded_teacher
       (self (snd (load_state_dict Demo.partial_policy_checkpoint true
                     (Demo.world "scalar"))))
     = (is_ok (fst (load_state_dict Demo.partial_policy_checkpoint true
                      (Demo.world "scalar")))
        || loaded_teacher (self (Demo.world "scalar"))).
Proof.
  split; [reflexivity|].
  destruct (load_state_dict_outcome Demo.policy_checkpoint true (Demo.world "scalar"))
    as (_ & H & _).
  split; [exact (proj1 (H eq_refl))|].
  exact (proj1 (load_state_dict_outcome Demo.partial_policy_checkpoint true
                  (Demo.world "scalar"))).
Defined.

Lemma loaded_teacher_only_by_load_witness :
  forallb (fun c => negb (is_load_call c)) Demo.calls_without_load = true
  /\ loaded_teacher (self (run Demo.calls_without_load (Demo.world "scalar")))
     = loaded_teacher (self (Demo.world "scalar"))
  /\ loaded_teacher
       (self (snd (load_state_dict Demo.policy_checkpoint true (Demo.world "scalar"))))
     = true
  /\ loaded_teacher
       (self (run Demo.calls_without_act
                (snd (load_state_dict Demo.policy_checkpoint true
                        (Demo.world "scalar")))))
     = true.
Proof.
  split; [reflexivity|].
  split; [exact (proj1 (loaded_teacher_only_by_load Demo.calls_without_load
                          (Demo.world "scalar")) eq_refl)|].
  split; [reflexivity|].
  exact (proj2 (loaded_teacher_only_by_load Demo.calls_without_act
                  (snd (load_state_dict Demo.policy_checkpoint true
                          (Demo.world "scalar")))) eq_refl).
Defined.

Lemma load_state_dict_reads_actor_entries_witness :
  filter (fun item => is_actor_key (fst item)) Demo.policy_checkpoint
  = filter (fun item => is_actor_key (fst item)) Demo.actor_only_checkpoint
  /\ load_state_dict Demo.policy_checkpoint true (Demo.world "scalar")
     = load_state_dict Demo.actor_only_checkpoint true (Demo.world "scalar").
Proof.
  split; [reflexivity|].
  exact (load_state_dict_reads_actor_entries Demo.policy_checkpoint
           Demo.actor_only_checkpoint true (Demo.world "scalar")
           eq_refl eq_refl eq_refl).
Defined.

Lemma load_state_dict_without_actor_entries_witness :
  any_key_contains "actor" Demo.actor_std_checkpoint = true
  /\ forallb (fun key => negb (is_actor_key key)) (Dict.keys Demo.actor_std_checkpoint)
     = true
  /\ fst (load_state_dict Demo.actor_std_checkpoint false (Demo.world "scalar"))
     = Ok false
  /\ load_state_dict Demo.actor_std_checkpoint true (Demo.world "scalar")
     = (Err (LoadStateDictError ["0.weight"; "0.bias"] [] []), Demo.world "scalar").
Proof.
  split; [reflexivity|]. split; [reflexivity|].
  destruct (load_state_dict_without_actor_entries Demo.actor_std_checkpoint
              (Demo.world "scalar") eq_refl eq_refl) as [H1 H2].
  split; [exact (f_equal fst H1)|].
  apply H2. discriminate.
Defined.

Lemma state_dict_round_trip_witness :
  names_and_shapes (state_dict_of (self (Demo.world "scalar")))
  = names_and_shapes Demo.distillation_checkpoint
  /\ unique (Dict.keys Demo.distillation_checkpoint) = true
  /\ state_dict_of
       (self (snd (load_state_dict Demo.distillation_checkpoint true
                     (Demo.world "scalar"))))
     = Demo.distillation_checkpoint.
Proof.
  split; [reflexivity|]. split; [reflexivity|].
  exact (proj1 (proj2 (state_dict_round_trip Demo.distillation_checkpoint
                         (Demo.world "scalar") eq_refl eq_refl eq_refl eq_refl))).
Defined.

Lemma router_row_layout_witness :
  batch_of Demo.obs 2 ["proprio"; "privileged"] = true
  /\ exists out ts,
       get_teacher_obs Demo.obs (Demo.world "scalar") = (Ok out, Demo.world "scalar")
       /\ map Some ts = map (Dict.get Demo.obs) ["proprio"; "privileged"]
       /\ row 1 out = concat (map (row 1) ts).
Proof.
  split; [reflexivity|].
  destruct (proj2 (router_row_layout (Demo.world "scalar") Demo.obs 2
                     ["proprio"] ["proprio"; "privileged"] eq_refl eq_refl)
              ltac:(discriminate) eq_refl)
    as (out & ts & H1 & H2 & _ & H3).
  exists out, ts. split; [exact H1|]. split; [exact H2|]. apply H3. repeat constructor.
Defined.

Lemma prior_policy_load_keeps_student_witness :
  any_key_contains "actor" Demo.policy_checkpoint = true
  /\ fst (act_inference Demo.obs
            (snd (load_state_dict Demo.policy_checkpoint true (Demo.world "scalar"))))
     = fst (act_inference Demo.obs (Demo.world "scalar")).
Proof.
  split; [reflexivity|].
  exact (proj1 (prior_policy_load_keeps_student Demo.policy_checkpoint true
                  (Demo.world "scalar") Demo.obs eq_refl)).
Defined.

Lemma update_normalization_follows_the_flag_witness :
  Demo.construct "scalar"
  = (Ok (self (Demo.world "scalar")), generator (Demo.world "scalar"))
  /\ exists buffers,
       norm_kind (student_obs_normalizer
                    (self (run Demo.calls_without_act (Demo.world "scalar"))))
       = EmpiricalNormalization buffers.
Proof.
  split; [reflexivity|].
  pose proof (update_normalization_follows_the_flag (collab := Demo.collab)
                Demo.obs Demo.groups 2 true false [256; 256; 256] [256; 256; 256]
                "elu" (1 / 2)%R "scalar" [] 0
                (self (Demo.world "scalar")) (generator (Demo.world "scalar"))
                Demo.calls_without_act eq_refl) as H.
  cbv beta iota zeta in H. destruct H as (buffers & H & _).
  exists buffers. exact H.
Defined.
